(** * api-mocker: the mock resolution engine of [lib/index.js]

    A shallow embedding of the [ApiMocker] class: request paths and file
    names are strings, parsed JSON documents are values of [json] whose
    objects are finite maps, the rule directory is a tree of files and
    directories, and a JavaScript exception is an explicit [Throw] outcome.

    Conventions of the embedding.
    - A string is a sequence of code units; no claim below depends on
      characters outside ASCII.
    - JSON numbers are integers ([Z]); status codes and the numeric
      payloads of the examples are integers.  The error rate and the
      random draws are doubles, given by their rational value ([Q]);
      the product of two doubles is rounded as the language does
      ([Double]).
    - The [async] functions are modelled by the value their promise
      settles with ([Return] for fulfilment, [Throw] for rejection); the
      artificial delay and the logger change no value and are left out.
    - [Math.random] is modelled by passing the draws as arguments.
    - Property reads follow the language: a key that an object does not
      own reads as [undefined], or as what the object inherits where that
      can be observed ([errorMap], the [__proto__] setter). *)

From Stdlib Require Import ZArith QArith Qround Qabs Qpower Ascii String List.
From Stdlib Require Import Lia Lqa.
From stdpp Require Import gmap strings list fin_maps pretty.

Set Warnings "-register-all".
#[local] Open Scope string_scope.
#[local] Open Scope Z_scope.
#[local] Open Scope list_scope.

(** ** String primitives of the host language *)

Module Str.

(** [s.startsWith(p)] *)
Fixpoint startsWith (s p : string) {struct p} : bool :=
  match p, s with
  | EmptyString, _ => true
  | String c p', String d s' => if Ascii.eqb c d then startsWith s' p' else false
  | String _ _, EmptyString => false
  end.

(** [s.endsWith(p)]: some suffix of [s] is [p]. *)
Fixpoint endsWith (s p : string) : bool :=
  String.eqb s p ||
  match s with
  | EmptyString => false
  | String _ s' => endsWith s' p
  end.

(** [s.slice(0, -1)] *)
Fixpoint dropLast (s : string) : string :=
  match s with
  | EmptyString => EmptyString
  | String c EmptyString => EmptyString
  | String c s' => String c (dropLast s')
  end.

(** [s.substring(a, b)] for [0 <= a]; JavaScript swaps the bounds when
    [b < a], which the callers below never request. *)
Definition substring (a b : nat) (s : string) : string :=
  String.substring a (b - a) s.

(** [s.split(sep)] for a one-character separator: never the empty list. *)
Fixpoint split (sep : ascii) (s : string) : list string :=
  match s with
  | EmptyString => [EmptyString]
  | String c s' =>
      if Ascii.eqb c sep then EmptyString :: split sep s'
      else match split sep s' with
           | h :: t => String c h :: t
           | [] => [String c EmptyString]
           end
  end.

Definition nonEmpty (s : string) : bool := negb (String.eqb s "").

(** [parts.join(sep)] *)
Fixpoint join (sep : string) (parts : list string) : string :=
  match parts with
  | [] => ""
  | [p] => p
  | p :: rest => p +:+ sep +:+ join sep rest
  end.

Definition lowerAscii (c : ascii) : ascii :=
  let n := nat_of_ascii c in
  if ((65 <=? n) && (n <=? 90))%nat then ascii_of_nat (n + 32) else c.

(** [s.toLowerCase()] *)
Fixpoint toLowerCase (s : string) : string :=
  match s with
  | EmptyString => EmptyString
  | String c s' => String (lowerAscii c) (toLowerCase s')
  end.

(** [s.replace(/\\/g, '/')] *)
Fixpoint backslashToSlash (s : string) : string :=
  match s with
  | EmptyString => EmptyString
  | String c s' =>
      String (if Ascii.eqb c "\"%char then "/"%char else c) (backslashToSlash s')
  end.

(** [s.includes(p)] *)
Fixpoint includes (s p : string) : bool :=
  startsWith s p ||
  match s with
  | EmptyString => false
  | String _ s' => includes s' p
  end.

Definition isDigit (c : ascii) : bool :=
  let n := nat_of_ascii c in ((48 <=? n) && (n <=? 57))%nat.

Definition isSpace (c : ascii) : bool :=
  let n := nat_of_ascii c in ((9 <=? n) && (n <=? 13))%nat || (n =? 32)%nat.

Fixpoint skipSpaces (s : string) : string :=
  match s with
  | String c s' => if isSpace c then skipSpaces s' else s
  | EmptyString => s
  end.

(** The value of the longest prefix of decimal digits; [None] when the
    string does not start with a digit. *)
Fixpoint digits (acc : option Z) (s : string) : option Z :=
  match s with
  | String c s' =>
      if isDigit c
      then digits (Some (10 * default 0 acc + (Z.of_nat (nat_of_ascii c) - 48))) s'
      else acc
  | EmptyString => acc
  end.

(** [parseInt(s, 10)]: [None] stands for [NaN]. *)
Definition parseInt (s : string) : option Z :=
  match skipSpaces s with
  | String "-" s' => Z.opp <$> digits None s'
  | String "+" s' => digits None s'
  | s' => digits None s'
  end.

End Str.

(** ** Numbers of the host language *)

Module Double.

(** The numbers of the language are the binary64 doubles.  A finite
    double is a rational [m * 2^e] with a significand [m] of at most 53
    bits and an exponent [e] of at least -1074. *)
Definition pow2 (e : Z) : Q := (2 ^ e)%Q.

Definition isDouble (q : Q) : Prop :=
  exists m e,
    (q == inject_Z m * pow2 e)%Q /\ (Z.abs m < 2 ^ 53)%Z /\ (-1074 <= e)%Z.

(** The binade of a rational other than zero: the [e] with
    [2^e <= |q| < 2^(e+1)]. *)
Definition binade (q : Q) : Z :=
  let e := Z.log2 (Z.abs (Qnum q)) - Z.log2 (Zpos (Qden q)) in
  if Qle_bool (pow2 e) (Qabs q) then e else e - 1.

(** The unit in the last place of the doubles of the binade of [q]; the
    subnormal doubles share the unit [2^-1074]. *)
Definition ulp (q : Q) : Q := pow2 (Z.max (binade q - 52) (-1074)).

(** The nearest integer, a tie going to the even one. *)
Definition nearestEven (q : Q) : Z :=
  let f := Qfloor q in
  match (q - inject_Z f ?= 1 # 2)%Q with
  | Lt => f
  | Gt => f + 1
  | Eq => if Z.even f then f else f + 1
  end.

(** The double nearest to [q], for [q] below the overflow threshold: the
    rounding of every arithmetic operation. *)
Definition round (q : Q) : Q := (inject_Z (nearestEven (q / ulp q)) * ulp q)%Q.

(** [x * y] on doubles *)
Definition mul (x y : Q) : Q := round (x * y).

(** The double that a rational stands for where a double is expected: the
    number itself when it is a double, and the next double below it
    otherwise. *)
Definition toDouble (q : Q) : Q := (inject_Z (Qfloor (q / ulp q)) * ulp q)%Q.

(** [Number.EPSILON] *)
Definition epsilon : Q := pow2 (-52).

End Double.

(** ** JavaScript values *)

Module JS.

(** A parsed JSON document.  An object is a finite map from property
    names to values: [JSON.parse] keeps the last of duplicate keys and
    nothing below depends on the order of the keys. *)
Inductive json : Type :=
| JNull
| JBool (b : bool)
| JNum (z : Z)
| JStr (s : string)
| JArr (l : list json)
| JObj (m : gmap string json).

(** Objects that an own-property miss can reach through the prototype
    chain of an object literal. *)
Inductive host : Type := ObjectConstructor | ObjectPrototype.

(** A value that is either JSON data or such an inherited object. *)
Inductive value : Type :=
| Json (j : json)
| Host (h : host).

Inductive exn : Type := TypeError | SyntaxError | ENOENT | ENOTDIR | EISDIR.

(** The result of running a piece of code that may throw. *)
Inductive outcome (A : Type) : Type :=
| Return (a : A)
| Throw (e : exn).
Arguments Return {A} a.
Arguments Throw {A} e.

Definition bind {A B} (x : outcome A) (k : A -> outcome B) : outcome B :=
  match x with
  | Return a => k a
  | Throw e => Throw e
  end.

(** [try { x } catch (error) { h }] *)
Definition tryCatch {A} (x : outcome A) (h : outcome A) : outcome A :=
  match x with
  | Return a => Return a
  | Throw _ => h
  end.

(** Truthiness of a JSON value. *)
Definition truthy (v : json) : bool :=
  match v with
  | JNull => false
  | JBool b => b
  | JNum z => negb (z =? 0)
  | JStr s => Str.nonEmpty s
  | JArr _ | JObj _ => true
  end.

(** Truthiness of a property read; [None] is [undefined]. *)
Definition truthyOpt (v : option json) : bool :=
  match v with Some j => truthy j | None => false end.

(** [a === b] where [a] and [b] come from two separately parsed
    documents: primitives are compared by value, while an array or an
    object is only identical to itself and so never equal to a value of
    the other document. *)
Definition strictEq (a b : json) : bool :=
  match a, b with
  | JNull, JNull => true
  | JBool x, JBool y => Bool.eqb x y
  | JNum x, JNum y => (x =? y)
  | JStr x, JStr y => String.eqb x y
  | _, _ => false
  end.

(** [o[key] !== value] for an object [o] built from request data and a
    value of a rule file.  A key that [o] does not own reads as
    [undefined] or as an inherited function or object, and none of those
    is identical to a JSON value. *)
Definition propDiffers (o : gmap string json) (key : string) (v : json) : bool :=
  match o !! key with
  | Some x => negb (strictEq x v)
  | None => true
  end.

(** [v.key] on a non-null value, for the keys the engine reads
    ([_statusCode], [_headers], [_echo], [_merge], [_conditions], [body],
    [query], [headers]): only an object can own them, and no built-in
    prototype defines them. *)
Definition prop (v : json) (key : string) : option json :=
  match v with
  | JObj m => m !! key
  | _ => None
  end.

(** [v.key] where [v] may be [null]. *)
Definition propOf (v : json) (key : string) : outcome (option json) :=
  match v with
  | JNull => Throw TypeError
  | _ => Return (prop v key)
  end.

(** [delete v.key] *)
Definition del (key : string) (v : json) : json :=
  match v with
  | JObj m => JObj (delete key m)
  | _ => v
  end.

(** [x || d] *)
Definition orElse (x : option json) (d : json) : json :=
  match x with
  | Some j => if truthy j then j else d
  | None => d
  end.

Definition chars (s : string) : list string :=
  (fun c => String c EmptyString) <$> list_ascii_of_string s.

Definition indexed {A} (l : list A) : list (string * A) :=
  imap (fun i x => (pretty i, x)) l.

(** [Object.entries(v)] for a truthy JSON value. *)
Definition entries (v : json) : list (string * json) :=
  match v with
  | JObj m => map_to_list m
  | JArr l => indexed l
  | JStr s => indexed (JStr <$> chars s)
  | JNull | JBool _ | JNum _ => []
  end.

(** [{ ...a, ...b }]: the keys of [b] win. *)
Definition spread (a b : gmap string json) : gmap string json := b ∪ a.

(** [params[key] = v] for a string [v] on an object literal: the
    inherited [__proto__] setter ignores a primitive, so that key is
    never created. *)
Definition assign (o : gmap string string) (key v : string) : gmap string string :=
  if String.eqb key "__proto__" then o else <[key := v]> o.

(** [String(v)] for the values a status code can take. *)
Definition toStr (v : value) : option string :=
  match v with
  | Json (JNum z) => Some (pretty z)
  | Host ObjectConstructor => Some "function Object() { [native code] }"
  | Host ObjectPrototype => Some "[object Object]"
  | Json _ => None
  end.

End JS.

Import JS.

Notation "'do' x <- c1 ; c2" := (JS.bind c1 (fun x => c2))
  (at level 10, x name, c1 at level 100, c2 at level 200).

(** ** Paths and the file system *)

(** A location on disk is kept in the normal form that [path.join] and
    [path.resolve] produce for an absolute POSIX path: the list of its
    segments below the file-system root. *)
Definition path := list string.

Module Path.

(** One step of path normalisation: empty and [.] segments vanish and
    [..] removes the last segment (nothing is above the root). *)
Definition step (acc : path) (seg : string) : path :=
  if String.eqb seg "" || String.eqb seg "." then acc
  else if String.eqb seg ".." then removelast acc
  else acc ++ [seg].

(** [path.join(base, s)] for a normalised absolute [base]. *)
Definition join (base : path) (s : string) : path :=
  fold_left step (Str.split "/" s) base.

(** [p + ext] where [p] is the string [path.join] built from the
    segments [segs]: that string ends in a separator when [trailing] is
    set or when it is the root, and then [ext] becomes a segment of its
    own; otherwise [ext] extends the last segment. *)
Definition addExt (segs : path) (trailing : bool) (ext : string) : path :=
  match segs with
  | [] => [ext]
  | _ => if trailing then segs ++ [ext]
         else removelast segs ++ [List.last segs "" +:+ ext]
  end.

(** [path.basename(s)] of a path string. *)
Definition basename (s : string) : string :=
  List.last (List.filter Str.nonEmpty (Str.split "/" s)) "".

Fixpoint stripCommon (from to : path) : path * path :=
  match from, to with
  | a :: from', b :: to' =>
      if String.eqb a b then stripCommon from' to' else (from, to)
  | _, _ => (from, to)
  end.

(** [path.relative(from, to)], as segments. *)
Definition relative (from to : path) : path :=
  let '(up, down) := stripCommon from to in
  List.repeat ".." (length up) ++ down.

(** [path.dirname(rel)] of a relative path given by its segments, as a
    string: ["."] when there is no directory part. *)
Definition dirname (rel : path) : string :=
  match removelast rel with
  | [] => "."
  | d => Str.join "/" d
  end.

End Path.

Module Fs.

(** A file holds a JSON document, or text that [JSON.parse] rejects
    ([None]).  A directory lists its entries in the order
    [fs.readdirSync] reports them; entry names are file names. *)
Inductive node : Type :=
| File (content : option json)
| Dir (entries : list (string * node)).

Fixpoint assoc (name : string) (es : list (string * node)) : option node :=
  match es with
  | [] => None
  | (k, n) :: rest => if String.eqb k name then Some n else assoc name rest
  end.

Fixpoint lookup (p : path) (n : node) : option node :=
  match p with
  | [] => Some n
  | seg :: rest =>
      match n with
      | Dir es =>
          match assoc seg es with
          | Some child => lookup rest child
          | None => None
          end
      | File _ => None
      end
  end.

Section Disk.
Variable root : node.

(** [fs.existsSync(p)] *)
Definition existsSync (p : path) : bool :=
  match lookup p root with Some _ => true | None => false end.

(** [fs.readdirSync(p, { withFileTypes: true })] *)
Definition readdirTypes (p : path) : outcome (list (string * node)) :=
  match lookup p root with
  | Some (Dir es) => Return es
  | Some (File _) => Throw ENOTDIR
  | None => Throw ENOENT
  end.

(** [fs.readdirSync(p)] *)
Definition readdirSync (p : path) : outcome (list string) :=
  do es <- readdirTypes p; Return (fst <$> es).

(** [JSON.parse(fs.readFileSync(p, 'utf8'))] *)
Definition readJSON (p : path) : outcome json :=
  match lookup p root with
  | Some (File (Some j)) => Return j
  | Some (File None) => Throw SyntaxError
  | Some (Dir _) => Throw EISDIR
  | None => Throw ENOENT
  end.
End Disk.

End Fs.

(** ** The [ApiMocker] class *)

Module ApiMocker.

(** The [{ body, statusCode, headers }] object a resolution returns. *)
Record response : Type := Response {
  body : json;
  statusCode : value;
  headers : json
}.

(** An error code given to [getErrorResponse]: a number or a string. *)
Inductive code : Type :=
| CodeNum (z : Z)
| CodeStr (s : string).

(** An instance ([this]) together with what it reads from its host:
    the disk, and two library computations that are taken as given.
    - [interpolate t path method] is
      [JSON.parse(JSON.stringify(t).replace(/\{path\}/g, path).replace(/\{method\}/g, method))];
    - [looseLess v n] is the comparison [v < n] when [v] is a string, an
      array or an object, which goes through the language's conversion
      of [v] to a number. *)
Record t : Type := Instance {
  disk : Fs.node;
  mockDirectory : path;
  errorRate : Q;
  interpolate : json -> string -> string -> outcome json;
  looseLess : json -> Z -> bool
}.

(** A request body, query or header map: [None] is [null]. *)
Abbreviation reqmap := (option (gmap string json)).

(** [s.split('/').filter(Boolean)] *)
Definition segments (s : string) : list string :=
  List.filter Str.nonEmpty (Str.split "/" s).

Definition isParam (dirPart : string) : bool :=
  Str.startsWith dirPart "[" && Str.endsWith dirPart "]".

Definition paramName (dirPart : string) : string :=
  Str.substring 1 (String.length dirPart - 1) dirPart.

(** The loop of [parsePathParams] over two arrays of equal length. *)
Fixpoint matchParts (dirParts requestParts : list string)
    (params : gmap string string) : option (gmap string string) :=
  match dirParts, requestParts with
  | dirPart :: dirParts', requestPart :: requestParts' =>
      if isParam dirPart then
        matchParts dirParts' requestParts'
          (assign params (paramName dirPart) requestPart)
      else if negb (String.eqb dirPart requestPart) then None
      else matchParts dirParts' requestParts' params
  | _, _ => Some params
  end.

(** [parsePathParams(requestPath, mockDirPath)]: [None] is [null]. *)
Definition parsePathParams (requestPath mockDirPath : string)
    : option (gmap string string) :=
  let dirParts := segments mockDirPath in
  let requestParts := segments requestPath in
  if negb (length dirParts =? length requestParts)%nat then None
  else matchParts dirParts requestParts ∅.

(** The first two statements of [findMock] and [checkForSpecificError]. *)
Definition normalize (requestPath : string) : string :=
  let trimmedPath :=
    if Str.endsWith requestPath "/" then Str.dropLast requestPath else requestPath in
  if Str.startsWith trimmedPath "/" then trimmedPath else "/" +:+ trimmedPath.

Section Methods.
Variable this : t.

Definition errorDirectory : path := Path.join (mockDirectory this) "_errors".

(** The recursive [walkDir] of [getAllMockPaths], on the directory
    node found at [currentPath]: results are pushed in listing order,
    a subdirectory's files where the subdirectory is listed. *)
Fixpoint walkDir (currentPath : path) (dir : Fs.node) : list path :=
  match dir with
  | Fs.File _ => []
  | Fs.Dir files =>
      flat_map (fun file : string * Fs.node =>
        let filePath := Path.join currentPath (fst file) in
        match snd file with
        | Fs.Dir _ =>
            if negb (String.eqb (fst file) "_errors")
               && negb (String.eqb (fst file) "errors")
            then walkDir filePath (snd file)
            else []
        | Fs.File _ =>
            if Str.endsWith (fst file) ".json" then [filePath] else []
        end) files
  end.

(** [getAllMockPaths()]: a missing rule directory yields no paths;
    [fs.readdirSync] throws when the rule directory is a file. *)
Definition getAllMockPaths : outcome (list path) :=
  match Fs.lookup (mockDirectory this) (disk this) with
  | None => Return []
  | Some (Fs.File _) => Throw ENOTDIR
  | Some dir => Return (walkDir (mockDirectory this) dir)
  end.

(** The path template [findMockWithParams] derives from a rule file. *)
Definition mockDirPathOf (mockPath : path) : string :=
  let relPath := Path.relative (mockDirectory this) mockPath in
  let dirPath := Path.dirname relPath in
  if String.eqb dirPath "." then "/" else "/" +:+ Str.backslashToSlash dirPath.

(** The method filter of [findMockWithParams]; [true] means the file
    is kept. *)
Definition methodCompatible (requestPath method : string) (mockPath : path) : bool :=
  let filename := List.last mockPath "" in
  negb (negb (String.eqb filename (method +:+ ".json"))
        && negb (String.eqb filename "index.json")
        && negb (String.eqb filename (Path.basename requestPath +:+ ".json"))).

(** The loop of [findMockWithParams]. *)
Fixpoint firstMatch (requestPath method : string) (mockPaths : list path)
    : option path :=
  match mockPaths with
  | [] => None
  | mockPath :: rest =>
      if negb (methodCompatible requestPath method mockPath)
      then firstMatch requestPath method rest
      else match parsePathParams requestPath (mockDirPathOf mockPath) with
           | Some _ => Some mockPath
           | None => firstMatch requestPath method rest
           end
  end.

Definition findMockWithParams (requestPath method : string)
    : outcome (option path) :=
  do mockPaths <- getAllMockPaths;
  Return (firstMatch requestPath method mockPaths).

(** The three candidates of the direct lookup. *)
Definition exactPathOf (requestPath : string) : path :=
  Path.join (mockDirectory this) (normalize requestPath).

Definition methodFile (requestPath method : string) : path :=
  Path.join (exactPathOf requestPath) (method +:+ ".json").

Definition legacyFile (requestPath : string) : path :=
  Path.addExt (exactPathOf requestPath)
    (Str.endsWith (normalize requestPath) "/") ".json".

Definition indexFile (requestPath : string) : path :=
  Path.join (exactPathOf requestPath) "index.json".

(** [findMock(requestPath, method)] *)
Definition findMock (requestPath method : string) : outcome (option path) :=
  let normalizedPath := normalize requestPath in
  if Fs.existsSync (disk this) (methodFile requestPath method)
  then Return (Some (methodFile requestPath method))
  else if Fs.existsSync (disk this) (legacyFile requestPath)
  then Return (Some (legacyFile requestPath))
  else if Fs.existsSync (disk this) (indexFile requestPath)
  then Return (Some (indexFile requestPath))
  else if String.eqb method "GET" && Fs.existsSync (disk this) (indexFile requestPath)
  then Return (Some (indexFile requestPath))
  else findMockWithParams normalizedPath method.

(** One of the three inner loops of [evaluateConditions]: [true] when
    no entry differs. *)
Fixpoint checkEntries (es : list (string * json)) (o : gmap string json) : bool :=
  match es with
  | [] => true
  | (key, v) :: rest =>
      if propDiffers o key v then false else checkEntries rest o
  end.

(** [if (matches && declared && present) { loop }] *)
Definition checkPart (matches : bool) (declared : option json) (present : reqmap)
    : bool :=
  match present with
  | Some o =>
      if matches && truthyOpt declared
      then checkEntries (entries (default JNull declared)) o
      else matches
  | None => matches
  end.

(** The body of the outer loop of [evaluateConditions] for one
    condition: the final value of [matches]. *)
Definition conditionMatches (condition : json) (body query headers : reqmap)
    : outcome bool :=
  do declaredBody <- propOf condition "body";
  let matches := checkPart true declaredBody body in
  let matches := checkPart matches (prop condition "query") query in
  let matches := checkPart matches (prop condition "headers") headers in
  Return matches.

Fixpoint anyCondition (conditions : list json) (body query headers : reqmap)
    : outcome bool :=
  match conditions with
  | [] => Return false
  | condition :: rest =>
      do matches <- conditionMatches condition body query headers;
      if matches then Return true else anyCondition rest body query headers
  end.

(** [evaluateConditions(conditions, body, query, headers)]: a string
    iterates over its characters, a value that is not iterable throws. *)
Definition evaluateConditions (conditions : json) (body query headers : reqmap)
    : outcome bool :=
  match conditions with
  | JArr l => anyCondition l body query headers
  | JStr s => anyCondition (JStr <$> chars s) body query headers
  | _ => Throw TypeError
  end.

(** [v.length] for a truthy JSON value. *)
Definition lengthOf (v : json) : option json :=
  match v with
  | JStr s => Some (JNum (Z.of_nat (String.length s)))
  | JArr l => Some (JNum (Z.of_nat (length l)))
  | JObj m => m !! "length"
  | _ => None
  end.

(** [x < n] for a property read [x] and a number [n]. *)
Definition lessThan (x : option json) (n : Z) : bool :=
  match x with
  | None => false
  | Some JNull => 0 <? n
  | Some (JBool b) => (if b then 1 else 0) <? n
  | Some (JNum z) => z <? n
  | Some v => looseLess this v n
  end.

(** The [switch] of [errorApplies]: the truthiness of what the
    matching [case] returns. *)
Definition commonScenario (scenario : string) (body headers : reqmap)
    : outcome bool :=
  if String.eqb scenario "existing_email" then
    match body with
    | None => Return false
    | Some b =>
        match b !! "email" with
        | Some (JStr s) => Return (Str.nonEmpty s && Str.includes s "existing")
        | Some (JArr l) => Return (existsb (strictEq (JStr "existing")) l)
        | Some email => if truthy email then Throw TypeError else Return false
        | None => Return false
        end
    end
  else if String.eqb scenario "invalid_input" then
    match body with
    | None => Return false
    | Some b =>
        Return (match b !! "name" with Some (JStr "") => true | _ => false end
                || match b !! "email" with Some (JStr "") => true | _ => false end
                || match b !! "password" with
                   | Some pw => truthy pw && lessThan (lengthOf pw) 6
                   | None => false
                   end)
    end
  else if String.eqb scenario "unauthorized" then
    match headers with
    | None => Throw TypeError
    | Some h =>
        match h !! "authorization" with
        | Some (JStr s) => Return (negb (Str.nonEmpty s) || negb (Str.startsWith s "Bearer "))
        | Some a => if truthy a then Throw TypeError else Return true
        | None => Return true
        end
    end
  else if String.eqb scenario "forbidden" then
    match headers with
    | None => Throw TypeError
    | Some h => Return (match h !! "role" with Some (JStr "guest") => true | _ => false end)
    end
  else Return false.

(** [errorApplies(errorData, scenario, body, query, headers)], as the
    truthiness of its result. *)
Definition errorApplies (errorData : json) (scenario : string)
    (body query headers : reqmap) : outcome bool :=
  do conditions <- propOf errorData "_conditions";
  if truthyOpt conditions
  then evaluateConditions (default JNull conditions) body query headers
  else commonScenario scenario body headers.

(** The response [checkForSpecificError] builds from a firing file. *)
Definition scenarioResponse (errorData : json) : response :=
  {| body := del "_conditions" (del "_headers" (del "_statusCode" errorData));
     statusCode := Json (orElse (prop errorData "_statusCode") (JNum 400));
     headers := orElse (prop errorData "_headers") (JObj ∅) |}.

(** The descent of [checkForSpecificError] along the path parts. *)
Fixpoint descend (pathParts : list string) (errorDir : path) : outcome path :=
  match pathParts with
  | [] => Return errorDir
  | part :: rest =>
      do files <- (if Fs.existsSync (disk this) errorDir
                   then Fs.readdirSync (disk this) errorDir
                   else Return []);
      match List.find (fun f => Str.startsWith f "[" && Str.endsWith f "]") files with
      | Some dynamicFolder => descend rest (Path.join errorDir dynamicFolder)
      | None => descend rest (Path.join errorDir part)
      end
  end.

(** The scenario name in the name of an error file:
    [POST_existing_email.json] is the scenario [existing_email]. *)
Definition scenarioOf (method errorFile : string) : string :=
  Str.substring (String.length method + 1) (String.length errorFile - 5) errorFile.

(** The loop of [checkForSpecificError] over the error files. *)
Fixpoint firstApplicable (errorsDir : path) (method : string)
    (body query headers : reqmap) (errorFiles : list string)
    : outcome (option response) :=
  match errorFiles with
  | [] => Return None
  | errorFile :: rest =>
      let scenario := scenarioOf method errorFile in
      let errorPath := Path.join errorsDir errorFile in
      do errorData <- Fs.readJSON (disk this) errorPath;
      do applies <- errorApplies errorData scenario body query headers;
      if applies then Return (Some (scenarioResponse errorData))
      else firstApplicable errorsDir method body query headers rest
  end.

Definition isErrorFileFor (method f : string) : bool :=
  Str.startsWith f (method +:+ "_") && Str.endsWith f ".json".

(** [checkForSpecificError(requestPath, method, body, query, headers)]:
    [None] is [null]. *)
Definition checkForSpecificError (requestPath method : string)
    (body query headers : reqmap) : outcome (option response) :=
  let pathParts := segments (normalize requestPath) in
  do errorDir <- descend pathParts (Path.join (mockDirectory this) "");
  let errorsDir := Path.join errorDir "errors" in
  if negb (Fs.existsSync (disk this) errorsDir) then Return None
  else
    do names <- Fs.readdirSync (disk this) errorsDir;
    firstApplicable errorsDir method body query headers
      (List.filter (isErrorFileFor method) names).

(** [errorMap[key]]: the six own entries, and what the two lower-case
    property names of [Object.prototype] reach by inheritance. *)
Definition errorMap (key : string) : option value :=
  if String.eqb key "badrequest" then Some (Json (JNum 400))
  else if String.eqb key "unauthorized" then Some (Json (JNum 401))
  else if String.eqb key "forbidden" then Some (Json (JNum 403))
  else if String.eqb key "notfound" then Some (Json (JNum 404))
  else if String.eqb key "conflict" then Some (Json (JNum 409))
  else if String.eqb key "servererror" then Some (Json (JNum 500))
  else if String.eqb key "constructor" then Some (Host ObjectConstructor)
  else if String.eqb key "__proto__" then Some (Host ObjectPrototype)
  else None.

(** The own entries of [errorMap]. *)
Definition errorNames : list string :=
  ["badrequest"; "unauthorized"; "forbidden"; "notfound"; "conflict"; "servererror"].

(** The status code [getErrorResponse] resolves: [parseInt] returns an
    integer number unchanged (below 10^21 in magnitude), and every
    entry of [errorMap] is truthy. *)
Definition resolveStatus (errorCode : code) : value :=
  match errorCode with
  | CodeNum z => Json (JNum z)
  | CodeStr s =>
      match Str.parseInt s with
      | Some z => Json (JNum z)
      | None => default (Json (JNum 500)) (errorMap (Str.toLowerCase s))
      end
  end.

Definition errorBody (error message : string) : json :=
  JObj (<["error" := JStr error]> (<["message" := JStr message]> ∅)).

(** [defaultErrors[statusCode]] *)
Definition defaultErrors (requestPath method : string) (status : value)
    : option json :=
  match status with
  | Json (JNum 400) =>
      Some (errorBody "Bad Request" "The request was malformed or contains invalid parameters.")
  | Json (JNum 401) =>
      Some (errorBody "Unauthorized" "Authentication is required to access this resource.")
  | Json (JNum 403) =>
      Some (errorBody "Forbidden" "You do not have permission to access this resource.")
  | Json (JNum 404) =>
      Some (errorBody "Not Found"
              ("Resource at " +:+ method +:+ " " +:+ requestPath +:+ " was not found."))
  | Json (JNum 409) =>
      Some (errorBody "Conflict" "The request conflicts with the current state of the server.")
  | Json (JNum 429) =>
      Some (errorBody "Too Many Requests" "Rate limit exceeded. Please try again later.")
  | Json (JNum 500) =>
      Some (errorBody "Internal Server Error"
              "An unexpected error occurred while processing the request.")
  | Json (JNum 503) =>
      Some (errorBody "Service Unavailable"
              "The service is currently unavailable. Please try again later.")
  | _ => None
  end.

Definition defaultError500 : json :=
  errorBody "Internal Server Error"
    "An unexpected error occurred while processing the request.".

(** The fallback at the end of [getErrorResponse]. *)
Definition defaultResponse (requestPath method : string) (status : value)
    : response :=
  {| body := default defaultError500 (defaultErrors requestPath method status);
     statusCode := status;
     headers := JObj ∅ |}.

Definition errorFilePath (status : value) : path :=
  Path.join errorDirectory (default "" (toStr status) +:+ ".json").

(** The [try] block of [getErrorResponse]. *)
Definition fromTemplate (requestPath method : string) (status : value)
    : outcome response :=
  do errorTemplate <- Fs.readJSON (disk this) (errorFilePath status);
  do body <- interpolate this errorTemplate requestPath method;
  do templateHeaders <- propOf errorTemplate "_headers";
  Return {| body := body;
            statusCode := status;
            headers := orElse templateHeaders (JObj ∅) |}.

(** [getErrorResponse(errorCode, requestPath, method)] *)
Definition getErrorResponse (errorCode : code) (requestPath method : string)
    : response :=
  let status := resolveStatus errorCode in
  if Fs.existsSync (disk this) (errorFilePath status)
  then match fromTemplate requestPath method status with
       | Return r => r
       | Throw _ => defaultResponse requestPath method status
       end
  else defaultResponse requestPath method status.

(** [if (forceError)]: [undefined], [0] and the empty string are falsy. *)
Definition isSet (forceError : option code) : bool :=
  match forceError with
  | None => false
  | Some (CodeNum z) => negb (z =? 0)
  | Some (CodeStr s) => Str.nonEmpty s
  end.

Definition errorCodes : list Z := [400; 401; 403; 404; 500].

(** [errorCodes[Math.floor(draw * errorCodes.length)]], where [draw] is
    the double that [Math.random] returned and the product is the product
    of doubles. *)
Definition randomErrorCode (draw : Q) : option Z :=
  let i := Qfloor (Double.mul (Double.toDouble draw)
                     (inject_Z (Z.of_nat (length errorCodes)))) in
  if i <? 0 then None else errorCodes !! Z.to_nat i.

(** [this.errorRate > 0 && Math.random() < this.errorRate] *)
Definition injects (draw : Q) : bool :=
  negb (Qle_bool (errorRate this) 0) && negb (Qle_bool (errorRate this) draw).

(** [{ ...response, ...requestBody }] *)
Definition overlay (response : json) (requestBody : gmap string json) : json :=
  JObj (spread (match response with
                | JObj m => m
                | other => list_to_map (entries other)
                end) requestBody).

Definition bodyBearing (method : string) : bool :=
  String.eqb method "POST" || String.eqb method "PUT".

Definition flagged (response : json) (flag : string) : bool :=
  match prop response flag with
  | Some v => strictEq v (JBool true)
  | None => false
  end.

(** The echo/merge step of [getMockResponse]. *)
Definition applyBody (response : json) (method : string) (requestBody : reqmap)
    : json :=
  match requestBody with
  | Some rb =>
      if bodyBearing method then
        if flagged response "_echo" then overlay (del "_echo" response) rb
        else if flagged response "_merge" then overlay (del "_merge" response) rb
        else response
      else response
  | None => response
  end.

(** The [try] block of [getMockResponse]. *)
Definition fromRule (mockPath : path) (method : string) (requestBody : reqmap)
    : outcome response :=
  do response <- Fs.readJSON (disk this) mockPath;
  do declaredStatus <- propOf response "_statusCode";
  let statusCode := orElse declaredStatus (JNum 200) in
  let headers := orElse (prop response "_headers") (JObj ∅) in
  let response := del "_headers" (del "_statusCode" response) in
  Return {| body := applyBody response method requestBody;
            statusCode := Json statusCode;
            headers := headers |}.

(** [getMockResponse(requestPath, method, requestBody, query, headers,
    forceError)]; [draw1] and [draw2] are what the first and the second
    call of [Math.random] would return. *)
Definition getMockResponse (requestPath method : string)
    (requestBody query headers : reqmap) (forceError : option code)
    (draw1 draw2 : Q) : outcome response :=
  if isSet forceError then
    Return (getErrorResponse (default (CodeNum 0) forceError) requestPath method)
  else
    do specificError <- checkForSpecificError requestPath method requestBody query headers;
    match specificError with
    | Some r => Return r
    | None =>
        if injects draw1 then
          match randomErrorCode draw2 with
          | Some randomError =>
              Return (getErrorResponse (CodeNum randomError) requestPath method)
          | None => Throw TypeError
          end
        else
          do mockPath <- findMock requestPath method;
          match mockPath with
          | None => Return (getErrorResponse (CodeNum 404) requestPath method)
          | Some mockPath =>
              tryCatch (fromRule mockPath method requestBody)
                (Return (getErrorResponse (CodeNum 500) requestPath method))
          end
    end.
End Methods.
End ApiMocker.

Import ApiMocker.

(** ** Vocabulary of the statements *)

(** The bindings [parsePathParams] has accumulated when its loop ends. *)
Definition bindAll (dirParts requestParts : list string) (params : gmap string string)
    : gmap string string :=
  foldl (fun acc dr =>
           if isParam (fst dr) then assign acc (paramName (fst dr)) (snd dr) else acc)
        params (zip dirParts requestParts).

(** Every parameter segment of the template has its name bound to the
    request segment at its own position. *)
Definition bindsEveryParameter (requestPath mockDirPath : string)
    (params : gmap string string) : Prop :=
  forall i d r,
    segments mockDirPath !! i = Some d -> segments requestPath !! i = Some r ->
    isParam d = true -> params !! paramName d = Some r.

(** One key check of a condition against a request map: the map owns the
    key and its value is identical to the declared one. *)
Definition checkSatisfied (o : gmap string json) (key : string) (v : json) : Prop :=
  exists x, o !! key = Some x /\ strictEq x v = true.

(** The checks a condition declares for one of body, query and headers,
    as the code evaluates them: they are looked at only when the request
    has that map. *)
Definition partHolds (declared : option json) (present : reqmap) : Prop :=
  forall d o, declared = Some d -> truthy d = true -> present = Some o ->
    forall key v, (key, v) ∈ entries d -> checkSatisfied o key v.

Definition conditionHolds (condition : json) (body query headers : reqmap) : Prop :=
  partHolds (prop condition "body") body
  /\ partHolds (prop condition "query") query
  /\ partHolds (prop condition "headers") headers.

(** The same checks in the words of the specification: a check against a
    map that the request does not have is unsatisfied. *)
Definition partHoldsAsStated (declared : option json) (present : reqmap) : Prop :=
  forall d, declared = Some d -> truthy d = true ->
    forall key v, (key, v) ∈ entries d ->
      exists o, present = Some o /\ checkSatisfied o key v.

Definition conditionHoldsAsStated (condition : json) (body query headers : reqmap)
    : Prop :=
  partHoldsAsStated (prop condition "body") body
  /\ partHoldsAsStated (prop condition "query") query
  /\ partHoldsAsStated (prop condition "headers") headers.

(** A request map is absent wherever the condition constrains it. *)
Definition constrainedMapsAbsent (condition : json) (body query headers : reqmap)
    : Prop :=
  (truthyOpt (prop condition "body") = true -> body = None)
  /\ (truthyOpt (prop condition "query") = true -> query = None)
  /\ (truthyOpt (prop condition "headers") = true -> headers = None).

(** The directive keys of a payload, and a payload without them. *)
Definition directiveKeys : list string :=
  ["_statusCode"; "_headers"; "_echo"; "_merge"; "_conditions"].

Definition stripDirectives (m : gmap string json) : gmap string json :=
  foldr delete m directiveKeys.

(** The flag whose overlay [getMockResponse] applies to a payload, if any:
    [_echo] before [_merge], each only when it is exactly [true]. *)
Definition appliedFlag (m : gmap string json) : option string :=
  if flagged (JObj m) "_echo" then Some "_echo"
  else if flagged (JObj m) "_merge" then Some "_merge"
  else None.

(** A resolution gets as far as reading the rule file [mockPath]: no
    forced error, no firing error scenario, no injected error, and the
    lookup found [mockPath]. *)
Definition reachesRule (this : ApiMocker.t) (requestPath method : string)
    (requestBody query headers : reqmap) (forceError : option code) (draw1 : Q)
    (mockPath : path) : Prop :=
  isSet forceError = false
  /\ checkForSpecificError this requestPath method requestBody query headers
     = Return None
  /\ injects this draw1 = false
  /\ findMock this requestPath method = Return (Some mockPath).

(** The body a resolution settles with, if it does not throw. *)
Definition bodyOf (x : outcome response) : option json :=
  match x with
  | Return r => Some (body r)
  | Throw _ => None
  end.

(** The first existing candidate of the direct lookup, in the order
    method-specific file, legacy file, index file. *)
Definition directFile (this : ApiMocker.t) (requestPath method : string)
    : option path :=
  if Fs.existsSync (disk this) (methodFile this requestPath method)
  then Some (methodFile this requestPath method)
  else if Fs.existsSync (disk this) (legacyFile this requestPath)
  then Some (legacyFile this requestPath)
  else if Fs.existsSync (disk this) (indexFile this requestPath)
  then Some (indexFile this requestPath)
  else None.

(** Whether the error file [errorFile] of [errorsDir] fires for a request. *)
Definition fires (this : ApiMocker.t) (errorsDir : path) (method : string)
    (body query headers : reqmap) (errorFile : string) : outcome bool :=
  do errorData <- Fs.readJSON (disk this) (Path.join errorsDir errorFile);
  errorApplies this errorData (scenarioOf method errorFile) body query headers.

(** [r] is the response of the first file of [errorFiles] that fires. *)
Definition firstFiring (this : ApiMocker.t) (errorsDir : path) (method : string)
    (body query headers : reqmap) (errorFiles : list string) (r : response) : Prop :=
  exists before errorFile after errorData,
    errorFiles = before ++ errorFile :: after
    /\ (forall f, f ∈ before ->
          fires this errorsDir method body query headers f = Return false)
    /\ Fs.readJSON (disk this) (Path.join errorsDir errorFile) = Return errorData
    /\ fires this errorsDir method body query headers errorFile = Return true
    /\ r = scenarioResponse errorData.

(** The error files [checkForSpecificError] considers for a request: the
    listing of the [errors] directory at the end of the directory chain,
    filtered by method. *)
Definition errorFilesFor (this : ApiMocker.t) (requestPath method : string)
    (errorsDir : path) (errorFiles : list string) : Prop :=
  exists errorDir names,
    descend this (segments (normalize requestPath)) (mockDirectory this)
    = Return errorDir
    /\ errorsDir = Path.join errorDir "errors"
    /\ Fs.readdirSync (disk this) errorsDir = Return names
    /\ errorFiles = List.filter (isErrorFileFor method) names.

(** A string without the character [c]. *)
Fixpoint noChar (c : ascii) (s : string) : bool :=
  match s with
  | EmptyString => true
  | String d s' => negb (Ascii.eqb d c) && noChar c s'
  end.

(** An ordinary segment of a path: not empty, without separator or
    backslash, and neither [.] nor [..]. *)
Definition plainName (s : string) : bool :=
  Str.nonEmpty s && noChar "/" s && noChar "\" s
  && negb (String.eqb s ".") && negb (String.eqb s "..").

(** The path string [/s1/.../sn] of the segments [s1 .. sn]. *)
Definition pathOf (segs : list string) : string := "/" +:+ Str.join "/" segs.

(** ** Example rule sets *)

Definition obj (l : list (string * json)) : json := JObj (list_to_map l).

(** An instance whose rule directory is [/srv/mocks], without random
    errors and with templates that hold no placeholder. *)
Definition engineOn (mocks : Fs.node) : ApiMocker.t :=
  {| disk := Fs.Dir [("srv", Fs.Dir [("mocks", mocks)])];
     mockDirectory := ["srv"; "mocks"];
     errorRate := 0;
     interpolate := fun template _ _ => Return template;
     looseLess := fun _ _ => false |}.

(** The condition [{ body: { email: "a@b.com" } }]. *)
Definition emailCondition : json :=
  obj [("body", obj [("email", JStr "a@b.com")])].

(** An error-scenario file with that condition. *)
Definition emailScenario : json :=
  obj [("_conditions", JArr [emailCondition]); ("error", JStr "Email taken")].

(** A rule set with one endpoint per payload of the examples. *)
Definition payloadMocks : Fs.node :=
  Fs.Dir [
    ("items", Fs.Dir [
       ("GET.json", Fs.File (Some (obj [("_echo", JBool true); ("a", JNum 1)])));
       ("POST.json",
        Fs.File (Some (obj [("_echo", JBool true); ("a", JNum 1); ("b", JNum 2)])));
       ("PUT.json",
        Fs.File (Some (obj [("_merge", JBool true); ("a", JNum 1); ("b", JNum 2)])))]);
    ("both", Fs.Dir [
       ("POST.json",
        Fs.File (Some (obj [("_echo", JBool true); ("_merge", JBool true);
                            ("a", JNum 1)])))])
  ].

(** A rule set whose error-scenario file for [GET /users] is not valid
    JSON, and one whose rule file for [GET /users] is not valid JSON. *)
Definition brokenScenarioMocks : Fs.node :=
  Fs.Dir [
    ("users", Fs.Dir [
       ("GET.json", Fs.File (Some (obj [("users", JArr [])])));
       ("errors", Fs.Dir [("GET_unavailable.json", Fs.File None)])])
  ].

Definition brokenRuleMocks : Fs.node :=
  Fs.Dir [("users", Fs.Dir [("GET.json", Fs.File None)])].

(** A rule set in which [/users/5] has both a literal rule and a
    parametrised alternative, the latter listed first. *)
Definition literalAndParamMocks : Fs.node :=
  Fs.Dir [
    ("users", Fs.Dir [
       ("[id]", Fs.Dir [("GET.json", Fs.File (Some (obj [("kind", JStr "param")])))]);
       ("5", Fs.Dir [("GET.json", Fs.File (Some (obj [("kind", JStr "literal")])))])])
  ].

(** A rule set whose only file is named after the last segment of the
    path of its own directory. *)
Definition profileMocks : Fs.node :=
  Fs.Dir [
    ("users", Fs.Dir [
       ("profile", Fs.Dir [
          ("profile.json", Fs.File (Some (obj [("name", JStr "Ada")])))])])
  ].


(** ** Vocabulary of the further properties *)

(** A request map of one request is contained in that of another: both
    are missing, or both are present and every entry of the first is an
    entry of the second. *)
Definition reqSubset (a b : reqmap) : Prop :=
  match a, b with
  | Some o, Some o' => o ⊆ o'
  | None, None => True
  | _, _ => False
  end.

(** A value that is an array or an object. *)
Definition structured (v : json) : bool :=
  match v with
  | JArr _ | JObj _ => true
  | _ => false
  end.

(** The scenario names that the [switch] of [errorApplies] knows. *)
Definition commonScenarios : list string :=
  ["existing_email"; "invalid_input"; "unauthorized"; "forbidden"].

(** A condition that constrains a body key to an array or an object. *)
Definition constrainsStructured (condition : json) : Prop :=
  exists declared key v,
    prop condition "body" = Some (JObj declared)
    /\ declared !! key = Some v /\ structured v = true.

(** A rule set whose root holds the legacy file [users.json]. *)
Definition legacyMocks : Fs.node :=
  Fs.Dir [("users.json", Fs.File (Some (JArr [JStr "Ada"])));
          ("empty.json", Fs.File (Some JNull))].

(** The names of [errorMap] with their status codes. *)
Definition namedCodes : list (string * Z) :=
  [("badrequest", 400); ("unauthorized", 401); ("forbidden", 403);
   ("notfound", 404); ("conflict", 409); ("servererror", 500)].

(** ** Well-formed rule trees *)

(** No name occurs twice. *)
Fixpoint distinct (names : list string) : bool :=
  match names with
  | [] => true
  | name :: rest => negb (existsb (String.eqb name) rest) && distinct rest
  end.

(** The listing of every directory of the tree has distinct, ordinary
    names, as the listing of a directory on disk has. *)
Fixpoint wellFormed (n : Fs.node) : bool :=
  match n with
  | Fs.File _ => true
  | Fs.Dir files =>
      distinct (map fst files)
      && forallb (fun file => plainName (fst file) && wellFormed (snd file)) files
  end.

Definition errorsName (name : string) : bool :=
  String.eqb name "_errors" || String.eqb name "errors".

(** [rel] leads, below the directory [dir], to a file named [*.json]
    through directories none of which is called [errors] or [_errors]. *)
Definition ruleFileAt (dir : Fs.node) (rel : path) : Prop :=
  rel <> []
  /\ (exists content, Fs.lookup rel dir = Some (Fs.File content))
  /\ Str.endsWith (List.last rel "") ".json" = true
  /\ Forall (fun name => errorsName name = false) (removelast rel).

(** What [walkDir] pushes for the entry [name] of a listing, as the rest
    [rel'] of the path below that entry: the entry itself when it is a file
    named [*.json], or a rule file below it when it is a directory that is
    not an error directory. *)
Definition below (name : string) (child : Fs.node) (rel' : path) : Prop :=
  (rel' = [] /\ (exists content, child = Fs.File content)
   /\ Str.endsWith name ".json" = true)
  \/ (rel' <> [] /\ errorsName name = false /\ ruleFileAt child rel').

(** A rule set with an error directory and a file that is not JSON. *)
Definition shopMocks : Fs.node :=
  Fs.Dir [
    ("users", Fs.Dir [
       ("GET.json", Fs.File (Some (obj [("users", JArr [])])));
       ("index.json", Fs.File (Some (obj [("users", JArr [])])));
       ("notes.txt", Fs.File None);
       ("errors", Fs.Dir [
          ("GET_forbidden.json", Fs.File (Some (obj [("error", JStr "No")])))]);
       ("[id]", Fs.Dir [
          ("GET.json", Fs.File (Some (obj [("id", JNum 1)])));
          ("DELETE.json", Fs.File (Some (obj [("_statusCode", JNum 204)])))])]);
    ("_errors", Fs.Dir [("404.json", Fs.File (Some (obj [("error", JStr "Nope")])))])
  ].

(** A rule set with a bracketed directory next to a literal one. *)
Definition shadowMocks : Fs.node :=
  Fs.Dir [
    ("users", Fs.Dir [
       ("GET.json", Fs.File (Some (obj [("users", JArr [])])));
       ("errors", Fs.Dir [
          ("GET_always.json",
           Fs.File (Some (obj [("_conditions", JArr [JObj ∅])])))])]);
    ("[tenant]", Fs.Dir [("GET.json", Fs.File (Some (obj [("tenant", JNum 1)])))])
  ].

(** ** The listing of the routes *)

Module Routes.

(** The methods of [methodRegex]. *)
Definition methodNames : list string :=
  ["GET"; "POST"; "PUT"; "DELETE"; "PATCH"; "OPTIONS"; "HEAD"].

(** [methodRegex.test(name)]: the name is a method followed by [.json]. *)
Definition isMethodFile (name : string) : bool :=
  existsb (fun method => String.eqb name (method +:+ ".json")) methodNames.

(** [name.split('.')[0]] *)
Definition methodOf (name : string) : string :=
  List.hd "" (Str.split "." name).

Definition isFileNamed (test : string -> bool) (file : string * Fs.node) : bool :=
  match snd file with
  | Fs.File _ => test (fst file)
  | Fs.Dir _ => false
  end.

(** The recursive [walkDir] of [listRoutes] on the directory node at
    [basePath]: a route per method file, a GET route for [index.json], then
    the routes of the subdirectories that are neither error directories nor
    named like a method. *)
Fixpoint walkRoutes (basePath : string) (dir : Fs.node) : list (string * string) :=
  match dir with
  | Fs.File _ => []
  | Fs.Dir files =>
      map (fun file => (methodOf (fst file), basePath))
        (List.filter (isFileNamed isMethodFile) files)
      ++ (if existsb (isFileNamed (fun name => String.eqb name "index.json")) files
          then [("GET", basePath)] else [])
      ++ flat_map (fun file : string * Fs.node =>
           match snd file with
           | Fs.Dir _ =>
               if negb (String.eqb (fst file) "errors")
                  && negb (String.eqb (fst file) "_errors")
               then
                 if negb (isMethodFile (fst file +:+ ".json"))
                 then walkRoutes (basePath +:+ "/" +:+ fst file) (snd file)
                 else []
               else []
           | Fs.File _ => []
           end) files
  end.

(** [listRoutes()], as pairs of method and path. *)
Definition listRoutes (this : ApiMocker.t) : outcome (list (string * string)) :=
  match Fs.lookup (mockDirectory this) (disk this) with
  | None => Return []
  | Some (Fs.File _) => Throw ENOTDIR
  | Some dir => Return (walkRoutes "" dir)
  end.

End Routes.

(** The [basePath] that [listRoutes] has built at the directory reached by
    the segments [segs]. *)
Definition basePathOf (segs : list string) : string :=
  match segs with
  | [] => ""
  | _ => pathOf segs
  end.

(** A route that [walkRoutes] lists comes from a method file or from the
    index file of a directory of the tree. *)
Definition routeOrigin (this : ApiMocker.t) (method route : string) : Prop :=
  exists segs files,
    route = basePathOf segs
    /\ Forall (fun s => plainName s = true) segs
    /\ Fs.lookup (mockDirectory this ++ segs) (disk this) = Some (Fs.Dir files)
    /\ ((In method Routes.methodNames /\ noChar "/" method = true
         /\ exists content,
              Fs.assoc (method +:+ ".json") files = Some (Fs.File content))
        \/ (method = "GET"
            /\ exists content, Fs.assoc "index.json" files = Some (Fs.File content))).

(** ** The forced error of the command line *)

Module Cli.

(** The variables [nextErrorCode] and [errorForPath] of the server;
    [None] is [null]. *)
Record state : Type := State {
  nextErrorCode : option string;
  errorForPath : option string
}.

Definition truthyStr (x : option string) : bool :=
  match x with
  | Some s => Str.nonEmpty s
  | None => false
  end.

(** The [error] case of the command switch, on the words of the line. *)
Definition errorCommand (args : list string) (st : state) : state :=
  if (length args <? 2)%nat then st
  else {| nextErrorCode := args !! 1%nat;
          errorForPath := if truthyStr (args !! 2%nat) then args !! 2%nat else None |}.

(** [!errorForPath || req.path.includes(errorForPath)] *)
Definition pathSelected (st : state) (reqPath : string) : bool :=
  negb (truthyStr (errorForPath st))
  || Str.includes reqPath (default "" (errorForPath st)).

(** The middleware that applies the next error to a request: the value of
    [req._forceError] and the state after the request. *)
Definition applyNextError (st : state) (reqPath : string) : option string * state :=
  if truthyStr (nextErrorCode st) && pathSelected st reqPath
  then (nextErrorCode st, {| nextErrorCode := None; errorForPath := None |})
  else (None, st).

(** The middleware on a sequence of requests. *)
Fixpoint serve (st : state) (reqPaths : list string) : list (option string) * state :=
  match reqPaths with
  | [] => ([], st)
  | reqPath :: rest =>
      let '(forced, st') := applyNextError st reqPath in
      let '(others, final) := serve st' rest in
      (forced :: others, final)
  end.

End Cli.

(** ** The listing of the error scenarios *)

Module Scenarios.

(** An entry of [listErrorScenarios()]. *)
Record scenario : Type := Scenario {
  name : string;
  description : string
}.

(** [s.replace(p, '')]: the first occurrence of [p] is removed. *)
Fixpoint removeFirst (p s : string) {struct s} : string :=
  if Str.startsWith s p
  then Str.substring (String.length p) (String.length s) s
  else match s with
       | EmptyString => EmptyString
       | String c s' => String c (removeFirst p s')
       end.

(** [s.replace(/_/g, ' ')] *)
Fixpoint underscoresToSpaces (s : string) : string :=
  match s with
  | EmptyString => EmptyString
  | String c s' =>
      String (if Ascii.eqb c "_"%char then " "%char else c) (underscoresToSpaces s')
  end.

(** The entry of a file of the global [_errors] directory. *)
Definition globalEntry (file : string) : scenario :=
  let code := removeFirst ".json" file in
  {| name := code; description := "Global " +:+ code +:+ " error" |}.

(** The entry of a file of an [errors] directory found at [basePath]:
    the method is the part of the name before the first underscore, the
    scenario is the rest. *)
Definition routeEntry (basePath file : string) : scenario :=
  let parts := Str.split "_" (removeFirst ".json" file) in
  let method := List.hd "" parts in
  let scenario := Str.join "_" (List.tl parts) in
  {| name := scenario;
     description := method +:+ " " +:+ basePath +:+ " - "
                    +:+ underscoresToSpaces scenario |}.

Definition isJson (f : string) : bool := Str.endsWith f ".json".

Definition isErrorsDir (item : string * Fs.node) : bool :=
  match snd item with
  | Fs.Dir _ => String.eqb (fst item) "errors"
  | Fs.File _ => false
  end.

(** [scanForErrors] on the directory node at [basePath]: the entries of
    its [errors] directory, then those of its other subdirectories, in
    listing order.  The directory entry that [items.find] returns is the
    one the path [dirPath/errors] names. *)
Fixpoint scanForErrors (basePath : string) (dir : Fs.node) : list scenario :=
  match dir with
  | Fs.File _ => []
  | Fs.Dir items =>
      match List.find isErrorsDir items with
      | Some (_, Fs.Dir errorFiles) =>
          map (routeEntry basePath) (List.filter isJson (map fst errorFiles))
      | _ => []
      end
      ++ flat_map (fun item : string * Fs.node =>
           match snd item with
           | Fs.Dir _ =>
               if negb (String.eqb (fst item) "errors")
               then scanForErrors (basePath +:+ "/" +:+ fst item) (snd item)
               else []
           | Fs.File _ => []
           end) items
  end.

(** [listErrorScenarios()]: the global entries, then the scanned ones. *)
Definition listErrorScenarios (this : ApiMocker.t) : outcome (list scenario) :=
  let globalErrorsDir := Path.join (mockDirectory this) "_errors" in
  do global <-
    (if Fs.existsSync (disk this) globalErrorsDir
     then do names <- Fs.readdirSync (disk this) globalErrorsDir;
          Return (map globalEntry (List.filter isJson names))
     else Return []);
  do scanned <-
    match Fs.lookup (mockDirectory this) (disk this) with
    | None => Return []
    | Some (Fs.File _) => Throw ENOTDIR
    | Some dir => Return (scanForErrors "" dir)
    end;
  Return (global ++ scanned).

End Scenarios.

(** * Properties *)

(** ** The primitives on small inputs *)

Example normalize_examples :
  normalize "/users/" = "/users" /\ normalize "users/5" = "/users/5"
  /\ normalize "" = "/" /\ normalize "/" = "/".
Proof. repeat split. Qed.

Example segments_examples :
  segments "/users//5/" = ["users"; "5"] /\ segments "/" = [].
Proof. split; reflexivity. Qed.

Example isParam_examples :
  isParam "[id]" = true /\ paramName "[id]" = "id"
  /\ isParam "[id" = false /\ isParam "id]" = false /\ isParam "[" = false.
Proof. repeat split. Qed.

Example parsePathParams_examples :
  parsePathParams "/users/5" "/users/[id]" = Some {[ "id" := "5" ]}
  /\ parsePathParams "/users/5" "/Users/[id]" = None
  /\ parsePathParams "/users/5/posts" "/users/[id]" = None
  /\ parsePathParams "/" "/" = Some ∅.
Proof. repeat split. Qed.

Example parseInt_examples :
  Str.parseInt "404" = Some 404 /\ Str.parseInt " -12abc" = Some (-12)
  /\ Str.parseInt "notfound" = None /\ Str.parseInt "" = None.
Proof. repeat split. Qed.

Example join_examples :
  Path.join ["srv"; "mocks"] "/users/5" = ["srv"; "mocks"; "users"; "5"]
  /\ Path.join ["srv"; "mocks"] "/users/../orders/./7" = ["srv"; "mocks"; "orders"; "7"]
  /\ Path.join ["srv"; "mocks"] "" = ["srv"; "mocks"].
Proof. repeat split. Qed.

(** ** The path matcher *)

Section PathMatcher.

Lemma matchParts_Some ds : forall rs acc p,
  matchParts ds rs acc = Some p ->
  p = bindAll ds rs acc /\
  forall i d r, ds !! i = Some d -> rs !! i = Some r -> isParam d = false -> d = r.
Proof.
  induction ds as [|d0 ds IH]; intros [|r0 rs] acc p H; simpl in H;
    try (inversion H; subst; split; [reflexivity|];
         intros i d r Hd Hr; rewrite ?lookup_nil in Hd, Hr; discriminate).
  unfold bindAll. simpl. destruct (isParam d0) eqn:Hp.
  - apply IH in H as [-> Hlit]. split; [reflexivity|].
    intros [|i] d r Hd Hr Hn; simpl in *; [|eauto].
    inversion Hd; subst. congruence.
  - destruct (String.eqb d0 r0) eqn:He; simpl in H; [|discriminate].
    apply IH in H as [-> Hlit]. split; [reflexivity|].
    intros [|i] d r Hd Hr Hn; simpl in *; [|eauto].
    inversion Hd; inversion Hr; subst. by apply String.eqb_eq.
Qed.

Lemma matchParts_None ds : forall rs acc,
  matchParts ds rs acc = None ->
  exists i d r, ds !! i = Some d /\ rs !! i = Some r /\ isParam d = false /\ d <> r.
Proof.
  induction ds as [|d0 ds IH]; intros [|r0 rs] acc H; simpl in H; try discriminate.
  destruct (isParam d0) eqn:Hp.
  - apply IH in H as (i & d & r & ?). exists (S i), d, r. done.
  - destruct (String.eqb d0 r0) eqn:He; simpl in H.
    + apply IH in H as (i & d & r & ?). exists (S i), d, r. done.
    + exists 0%nat, d0, r0. repeat split; try done. by apply String.eqb_neq.
Qed.

Lemma matchParts_total ds rs acc :
  (forall i d r, ds !! i = Some d -> rs !! i = Some r -> isParam d = false -> d = r) ->
  matchParts ds rs acc = Some (bindAll ds rs acc).
Proof.
  intros Hlit. destruct (matchParts ds rs acc) as [p|] eqn:H.
  - apply matchParts_Some in H as [-> _]. reflexivity.
  - apply matchParts_None in H as (i & d & r & Hd & Hr & Hp & Hne).
    exfalso. eauto.
Qed.

Lemma bindAll_cons d0 ds r0 rs acc :
  bindAll (d0 :: ds) (r0 :: rs) acc
  = bindAll ds rs (if isParam d0 then assign acc (paramName d0) r0 else acc).
Proof. reflexivity. Qed.

Lemma assign_other o k v k' : k' <> k -> assign o k v !! k' = o !! k'.
Proof.
  intros Hne. unfold assign. destruct (String.eqb k "__proto__"); [done|].
  by rewrite lookup_insert_ne.
Qed.

Lemma assign_same o k v : k <> "__proto__" -> assign o k v !! k = Some v.
Proof.
  intros Hne. unfold assign. apply String.eqb_neq in Hne. rewrite Hne.
  by rewrite lookup_insert_eq.
Qed.

Lemma bindAll_untouched ds : forall rs acc k,
  (forall j d, ds !! j = Some d -> isParam d = true -> paramName d <> k) ->
  bindAll ds rs acc !! k = acc !! k.
Proof.
  induction ds as [|d0 ds IH]; intros [|r0 rs] acc k Hk; try reflexivity.
  rewrite bindAll_cons, IH.
  - destruct (isParam d0) eqn:Hp; [|done].
    apply assign_other. intros ->. by apply (Hk 0%nat d0).
  - intros j d Hd. apply (Hk (S j) d Hd).
Qed.

Lemma bindAll_last ds : forall rs acc i d r,
  ds !! i = Some d -> rs !! i = Some r -> isParam d = true ->
  paramName d <> "__proto__" ->
  (forall j d', (i < j)%nat -> ds !! j = Some d' -> isParam d' = true ->
                paramName d' <> paramName d) ->
  bindAll ds rs acc !! paramName d = Some r.
Proof.
  induction ds as [|d0 ds IH]; intros [|r0 rs] acc i d r Hd Hr Hp Hproto Hlast;
    rewrite ?lookup_nil in Hd, Hr; try discriminate.
  destruct i as [|i]; simpl in Hd, Hr.
  - inversion Hd; inversion Hr; subst. rewrite bindAll_cons, Hp, bindAll_untouched.
    + by apply assign_same.
    + intros j d' Hd' Hp'. apply (Hlast (S j) d'); [lia|done..].
  - rewrite bindAll_cons.
    eapply IH; eauto. intros j d' Hj. apply (Hlast (S j) d'). lia.
Qed.

Lemma bindAll_source ds : forall rs acc k v,
  bindAll ds rs acc !! k = Some v ->
  acc !! k = Some v \/
  exists i d, ds !! i = Some d /\ rs !! i = Some v /\ isParam d = true /\ paramName d = k.
Proof.
  induction ds as [|d0 ds IH]; intros [|r0 rs] acc k v H; try (by left).
  rewrite bindAll_cons in H.
  apply IH in H as [H|(i & d & ? & ? & ? & ?)].
  - destruct (isParam d0) eqn:Hp; [|by left].
    destruct (decide (k = paramName d0)) as [->|Hne].
    + unfold assign in H. destruct (String.eqb (paramName d0) "__proto__"); [by left|].
      rewrite lookup_insert_eq in H. inversion H; subst.
      right. exists 0%nat, d0. done.
    + rewrite assign_other in H by done. by left.
  - right. exists (S i), d. done.
Qed.

End PathMatcher.

(** C4, as the code has it.  For a request path and a path template:
    when the numbers of segments differ there is no match; when they agree
    and some literal template segment differs from the request segment at
    its position there is no match; and when they agree and every literal
    template segment equals the request segment at its position, the
    matcher returns a binding in which every bound name is the name of a
    parameter segment bound to the request segment at that position, and in
    which a parameter name other than [__proto__] is bound to the request
    segment at the last position that carries this name (its own position
    when the names of the template are distinct). *)
Theorem parsePathParams_bindings (requestPath mockDirPath : string) :
  let dirParts := segments mockDirPath in
  let requestParts := segments requestPath in
  (length dirParts <> length requestParts ->
   parsePathParams requestPath mockDirPath = None)
  /\ (length dirParts = length requestParts ->
      (exists i d r, dirParts !! i = Some d /\ requestParts !! i = Some r
                     /\ isParam d = false /\ d <> r) ->
      parsePathParams requestPath mockDirPath = None)
  /\ (length dirParts = length requestParts ->
      (forall i d r, dirParts !! i = Some d -> requestParts !! i = Some r ->
                     isParam d = false -> d = r) ->
      exists params,
        parsePathParams requestPath mockDirPath = Some params
        /\ (forall k v, params !! k = Some v ->
              exists i d, dirParts !! i = Some d /\ requestParts !! i = Some v
                          /\ isParam d = true /\ paramName d = k)
        /\ (forall i d r,
              dirParts !! i = Some d -> requestParts !! i = Some r ->
              isParam d = true -> paramName d <> "__proto__" ->
              (forall j d', (i < j)%nat -> dirParts !! j = Some d' ->
                            isParam d' = true -> paramName d' <> paramName d) ->
              params !! paramName d = Some r)).
Proof.
  intros dirParts requestParts. unfold parsePathParams.
  fold dirParts requestParts. repeat split.
  - intros Hne. apply Nat.eqb_neq in Hne. by rewrite Hne.
  - intros Hlen (i & d & r & Hd & Hr & Hp & Hne).
    rewrite Hlen, Nat.eqb_refl. simpl.
    destruct (matchParts dirParts requestParts ∅) as [p|] eqn:H; [|done].
    apply matchParts_Some in H as [_ Hlit]. by destruct (Hne (Hlit i d r Hd Hr Hp)).
  - intros Hlen Hlit. rewrite Hlen, Nat.eqb_refl. simpl.
    exists (bindAll dirParts requestParts ∅). split; [by apply matchParts_total|]. split.
    + intros k v Hk. apply bindAll_source in Hk as [Hk|Hk]; [|done].
      by rewrite lookup_empty in Hk.
    + intros i d r Hd Hr Hp Hproto Hlast. by eapply bindAll_last.
Qed.

(** An instance of C4: the template [/users/[id]] matches [/users/5] and
    binds [id] to [5]. *)
Lemma parsePathParams_bindings_witness :
  exists params,
    parsePathParams "/users/5" "/users/[id]" = Some params
    /\ params !! "id" = Some "5".
Proof.
  destruct (parsePathParams_bindings "/users/5" "/users/[id]") as (_ & _ & H).
  destruct H as (params & Hp & _ & Hb).
  - reflexivity.
  - intros [|[|[|i]]] d r Hd Hr Hn; vm_compute in Hd, Hr;
      inversion Hd; inversion Hr; subst; try reflexivity; discriminate.
  - exists params. split; [exact Hp|].
    apply (Hb 1%nat "[id]" "5"); try reflexivity; try discriminate.
    intros [|[|j]] d' Hj Hd'; try lia; vm_compute in Hd'; discriminate.
Defined.

(** C4 as stated fails on a template that repeats a parameter name: the
    template [/[id]/[id]] matches [/a/b], yet [id] is bound to [b] only, not
    to the segment [a] at the first bracketed position. *)
Lemma parsePathParams_repeated_name :
  parsePathParams "/a/b" "/[id]/[id]" = Some {[ "id" := "b" ]}
  /\ ~ bindsEveryParameter "/a/b" "/[id]/[id]" {[ "id" := "b" ]}.
Proof.
  split; [reflexivity|].
  intros H. specialize (H 0%nat "[id]" "a" eq_refl eq_refl eq_refl).
  vm_compute in H. discriminate.
Qed.

(** ** Declared conditions of an error scenario *)

Section Conditions.
Implicit Types (o : gmap string json) (body query headers : reqmap).

Lemma propDiffers_false o key v :
  propDiffers o key v = false <-> checkSatisfied o key v.
Proof.
  unfold propDiffers, checkSatisfied. destruct (o !! key) as [x|].
  - rewrite negb_false_iff. split; [eauto|]. by intros (y & [= ->] & ?).
  - split; [done|]. by intros (y & ? & ?).
Qed.

Lemma checkEntries_true es o :
  checkEntries es o = true <->
  forall key v, (key, v) ∈ es -> checkSatisfied o key v.
Proof.
  induction es as [|[k w] es IH]; simpl.
  - split; [|done]. intros _ key v H. by apply elem_of_nil in H.
  - destruct (propDiffers o k w) eqn:Hd.
    + split; [done|]. intros H.
      assert (checkSatisfied o k w) as Hs by (apply H; left).
      apply propDiffers_false in Hs. congruence.
    + rewrite IH. apply propDiffers_false in Hd. split.
      * intros H key v Hin. apply elem_of_cons in Hin as [[= -> ->]|Hin]; eauto.
      * intros H key v Hin. apply H. by right.
Qed.

Lemma checkPart_false declared present : checkPart false declared present = false.
Proof. by destruct present. Qed.

Lemma checkPart_true declared present :
  checkPart true declared present = true <-> partHolds declared present.
Proof.
  unfold checkPart, partHolds. destruct present as [o|].
  - simpl. destruct declared as [d|]; simpl.
    + destruct (truthy d) eqn:Ht.
      * rewrite checkEntries_true. split.
        -- intros H d' o' [= <-] _ [= <-]. done.
        -- intros H. by eapply H.
      * split; [|done]. intros _ d' o' [= <-]. congruence.
    + split; [|done]. by intros _ d' o' ?.
  - split; [|done]. by intros _ d o ? ? ?.
Qed.

Lemma conditionMatches_holds condition body query headers :
  condition <> JNull ->
  exists b, conditionMatches condition body query headers = Return b
            /\ (b = true <-> conditionHolds condition body query headers).
Proof.
  intros Hnn. unfold conditionMatches, conditionHolds.
  assert (propOf condition "body" = Return (prop condition "body")) as ->
    by (by destruct condition).
  simpl. eexists. split; [reflexivity|].
  rewrite <- !checkPart_true.
  destruct (checkPart true (prop condition "body") body);
    [destruct (checkPart true (prop condition "query") query)|];
    rewrite ?checkPart_false; intuition congruence.
Qed.

Lemma anyCondition_holds l body query headers :
  Forall (fun c => c <> JNull) l ->
  exists b, anyCondition l body query headers = Return b
            /\ (b = true <-> exists c, c ∈ l /\ conditionHolds c body query headers).
Proof.
  induction 1 as [|c l Hc _ IH]; simpl.
  - exists false. split; [done|]. split; [done|].
    intros (c & Hin & _). by apply elem_of_nil in Hin.
  - destruct (conditionMatches_holds c body query headers Hc) as (b & -> & Hb).
    simpl. destruct b.
    + exists true. split; [done|]. split; [|done]. intros _. exists c. split; [left|].
      by apply Hb.
    + destruct IH as (b' & -> & Hb'). exists b'. split; [done|].
      rewrite Hb'. split.
      * intros (c' & ? & ?). exists c'. split; [by right|done].
      * intros (c' & Hin & Hh). apply elem_of_cons in Hin as [->|Hin]; [|eauto].
        apply Hb in Hh. discriminate.
Qed.

Lemma absent_holds condition body query headers :
  constrainedMapsAbsent condition body query headers ->
  conditionHolds condition body query headers.
Proof.
  intros (Hb & Hq & Hh). repeat split; intros d o Hd Ht Hp;
    [rewrite Hb in Hp|rewrite Hq in Hp|rewrite Hh in Hp];
    try discriminate; by rewrite Hd.
Qed.
End Conditions.

Lemma errorApplies_declared this m l scenario body query headers :
  m !! "_conditions" = Some (JArr l) ->
  errorApplies this (JObj m) scenario body query headers
  = anyCondition l body query headers.
Proof. intros H. unfold errorApplies. simpl. by rewrite H. Qed.

Lemma emailCondition_holds o query headers :
  conditionHolds emailCondition (Some o) query headers
  <-> o !! "email" = Some (JStr "a@b.com").
Proof.
  unfold conditionHolds. split.
  - intros (Hb & _).
    destruct (Hb (obj [("email", JStr "a@b.com")]) o) with (key := "email")
      (v := JStr "a@b.com") as (x & Hx & Heq); try reflexivity.
    + vm_compute. left.
    + rewrite Hx. destruct x; try discriminate. simpl in Heq.
      apply String.eqb_eq in Heq. by subst.
  - intros Ho. repeat split; intros d o' Hd Ht Hp key v Hin;
      vm_compute in Hd; try discriminate.
    inversion Hd; subst d. inversion Hp; subst o'.
    vm_compute in Hin. apply list_elem_of_singleton in Hin. inversion Hin; subst.
    exists (JStr "a@b.com"). done.
Qed.

(** C2, as the code has it.  For an error-scenario file whose
    [_conditions] is a list of conditions, the scenario fires if and only
    if some condition of the list has, for each of body, query and headers
    that it declares and that the request has, all key checks of that map
    satisfied by exact equality; the checks of a declared map that the
    request lacks are skipped.  In particular a scenario with the single
    condition [{body: {email: "a@b.com"}}] fires on a request with a body
    exactly when the body's [email] is ["a@b.com"], and it fires on a
    request without a body. *)
Theorem errorApplies_conditions this m l scenario body query headers :
  m !! "_conditions" = Some (JArr l) ->
  Forall (fun c => c <> JNull) l ->
  (exists fires,
      errorApplies this (JObj m) scenario body query headers = Return fires
      /\ (fires = true <-> exists c, c ∈ l /\ conditionHolds c body query headers))
  /\ (l = [emailCondition] ->
      (forall o, body = Some o ->
         errorApplies this (JObj m) scenario body query headers = Return true
         <-> o !! "email" = Some (JStr "a@b.com"))
      /\ (body = None ->
          errorApplies this (JObj m) scenario body query headers = Return true)).
Proof.
  intros Hm Hl. rewrite (errorApplies_declared _ _ _ _ _ _ _ Hm).
  destruct (anyCondition_holds l body query headers Hl) as (fires & Hrun & Hiff).
  split; [by exists fires|].
  intros ->. rewrite Hrun. split.
  - intros o ->. rewrite <- emailCondition_holds with (query := query) (headers := headers).
    split.
    + intros [= ->]. destruct Hiff as [Hiff _].
      destruct (Hiff eq_refl) as (c & Hin & Hc).
      apply list_elem_of_singleton in Hin. by subst.
    + intros Hc. f_equal. apply Hiff. exists emailCondition. split; [left|done].
  - intros ->. f_equal. apply Hiff. exists emailCondition. split; [left|].
    apply absent_holds. repeat split; try done; by vm_compute.
Qed.

(** An instance of C2: the scenario file with condition
    [{body: {email: "a@b.com"}}] fires on the body [{email: "a@b.com"}]. *)
Lemma errorApplies_conditions_witness :
  errorApplies (engineOn (Fs.Dir [])) emailScenario "taken"
    (Some {[ "email" := JStr "a@b.com" ]}) (Some ∅) (Some ∅) = Return true.
Proof.
  pose proof (errorApplies_conditions (engineOn (Fs.Dir []))
                (list_to_map [("_conditions", JArr [emailCondition]);
                              ("error", JStr "Email taken")])
                [emailCondition] "taken"
                (Some {[ "email" := JStr "a@b.com" ]}) (Some ∅) (Some ∅)) as H.
  destruct H as (_ & H).
  - reflexivity.
  - repeat constructor. discriminate.
  - destruct (H eq_refl) as (Hsome & _).
    apply (Hsome {[ "email" := JStr "a@b.com" ]} eq_refl). reflexivity.
Defined.

(** C2 as stated fails on a request without a body: the scenario with
    condition [{body: {email: "a@b.com"}}] fires although no condition has
    its declared checks satisfied in the stated sense. *)
Lemma errorApplies_fires_without_body :
  errorApplies (engineOn (Fs.Dir [])) emailScenario "taken" None (Some ∅) (Some ∅)
  = Return true
  /\ ~ (exists c, c ∈ [emailCondition]
                  /\ conditionHoldsAsStated c None (Some ∅) (Some ∅)).
Proof.
  split; [reflexivity|].
  intros (c & Hin & Hb & _). apply list_elem_of_singleton in Hin. subst c.
  destruct (Hb (obj [("email", JStr "a@b.com")]) eq_refl eq_refl
              "email" (JStr "a@b.com")) as (o & Ho & _).
  - vm_compute. left.
  - discriminate.
Qed.

(** C10.  An error-scenario file whose [_conditions] is the empty list
    never fires; one whose list of conditions contains the empty object
    fires; and one whose list contains a condition all of whose
    constrained request maps are absent from the request fires. *)
Theorem errorApplies_vacuous this m scenario body query headers :
  (m !! "_conditions" = Some (JArr []) ->
   errorApplies this (JObj m) scenario body query headers = Return false)
  /\ (forall l, m !! "_conditions" = Some (JArr l) ->
        Forall (fun c => c <> JNull) l -> JObj ∅ ∈ l ->
        errorApplies this (JObj m) scenario body query headers = Return true)
  /\ (forall l c, m !! "_conditions" = Some (JArr l) ->
        Forall (fun c => c <> JNull) l -> c ∈ l ->
        constrainedMapsAbsent c body query headers ->
        errorApplies this (JObj m) scenario body query headers = Return true).
Proof.
  assert (forall l c, m !! "_conditions" = Some (JArr l) ->
            Forall (fun c => c <> JNull) l -> c ∈ l ->
            constrainedMapsAbsent c body query headers ->
            errorApplies this (JObj m) scenario body query headers = Return true) as Hgen.
  { intros l c Hm Hl Hin Habs. rewrite (errorApplies_declared _ _ _ _ _ _ _ Hm).
    destruct (anyCondition_holds l body query headers Hl) as (fires & -> & Hiff).
    f_equal. apply Hiff. exists c. split; [done|]. by apply absent_holds. }
  repeat split.
  - intros Hm. by rewrite (errorApplies_declared _ _ _ _ _ _ _ Hm).
  - intros l Hm Hl Hin. apply (Hgen l (JObj ∅)); try done.
  - exact Hgen.
Qed.

(** An instance of C10: a scenario whose only condition is [{}] fires on
    a request with an empty body, query and header map, whatever the
    scenario is called. *)
Lemma errorApplies_vacuous_witness :
  errorApplies (engineOn (Fs.Dir [])) (obj [("_conditions", JArr [JObj ∅])]) "forbidden"
    (Some ∅) (Some ∅) (Some ∅) = Return true.
Proof.
  destruct (errorApplies_vacuous (engineOn (Fs.Dir []))
              (list_to_map [("_conditions", JArr [JObj ∅])]) "forbidden"
              (Some ∅) (Some ∅) (Some ∅)) as (_ & H & _).
  apply (H [JObj ∅]).
  - reflexivity.
  - repeat constructor. discriminate.
  - left.
Defined.

(** ** Building the response of a rule file *)

Section Responses.
Variable this : ApiMocker.t.
Implicit Types (m rb : gmap string json) (requestBody : reqmap).

Lemma getMockResponse_rule requestPath method requestBody query headers
    forceError draw1 draw2 mockPath :
  reachesRule this requestPath method requestBody query headers forceError draw1
    mockPath ->
  getMockResponse this requestPath method requestBody query headers forceError
    draw1 draw2
  = tryCatch (fromRule this mockPath method requestBody)
      (Return (getErrorResponse this (CodeNum 500) requestPath method)).
Proof.
  intros (Hf & Hs & Hi & Hm). unfold getMockResponse.
  rewrite Hf, Hs. simpl. rewrite Hi, Hm. reflexivity.
Qed.


Lemma fromRule_object mockPath method requestBody m :
  Fs.readJSON (disk this) mockPath = Return (JObj m) ->
  fromRule this mockPath method requestBody
  = Return {| body := applyBody (JObj (delete "_headers" (delete "_statusCode" m)))
                        method requestBody;
              statusCode := Json (orElse (m !! "_statusCode") (JNum 200));
              headers := orElse (m !! "_headers") (JObj ∅) |}.
Proof. intros H. unfold fromRule. rewrite H. reflexivity. Qed.

Lemma flagged_stripped m flag :
  flag = "_echo" \/ flag = "_merge" ->
  flagged (JObj (delete "_headers" (delete "_statusCode" m))) flag
  = flagged (JObj m) flag.
Proof.
  intros [-> | ->]; unfold flagged; simpl;
    by rewrite !lookup_delete_ne by discriminate.
Qed.

Lemma applyBody_flag m method rb flag :
  bodyBearing method = true -> appliedFlag m = Some flag ->
  applyBody (JObj (delete "_headers" (delete "_statusCode" m))) method (Some rb)
  = JObj (rb ∪ delete flag (delete "_headers" (delete "_statusCode" m))).
Proof.
  intros Hb Hf. unfold applyBody, appliedFlag in *. rewrite Hb.
  rewrite !flagged_stripped by auto.
  destruct (flagged (JObj m) "_echo"); [by inversion Hf|].
  destruct (flagged (JObj m) "_merge"); [by inversion Hf|discriminate].
Qed.

End Responses.





(** C6, as the code has it.  For a POST or PUT request with a non-null
    body whose matched payload has [_echo] or else [_merge] exactly [true],
    the final body is the union of the request body and the payload
    without [_statusCode], [_headers] and the applied flag, the request
    body's keys taking precedence.  When the payload has no other directive
    key this is the union with the payload without its directives, and a
    payload flagged [_echo] yields the same body as the same payload
    flagged [_merge]. *)
Theorem overlay_union this mockPath method rb m flag :
  bodyBearing method = true ->
  Fs.readJSON (disk this) mockPath = Return (JObj m) ->
  appliedFlag m = Some flag ->
  exists r,
    fromRule this mockPath method (Some rb) = Return r
    /\ body r = JObj (rb ∪ delete flag (delete "_headers" (delete "_statusCode" m)))
    /\ (forall k v, rb !! k = Some v -> prop (body r) k = Some v)
    /\ ((forall k, k ∈ directiveKeys -> k <> "_statusCode" -> k <> "_headers" ->
                   k <> flag -> m !! k = None) ->
        body r = JObj (rb ∪ stripDirectives m))
    /\ (forall m0, m0 !! "_echo" = None -> m0 !! "_merge" = None ->
          applyBody (JObj (<["_echo" := JBool true]> m0)) method (Some rb)
          = JObj (rb ∪ m0)
          /\ applyBody (JObj (<["_merge" := JBool true]> m0)) method (Some rb)
             = JObj (rb ∪ m0)).
Proof.
  intros Hb Hread Hf. eexists. split; [by apply fromRule_object|]. cbn [body].
  rewrite (applyBody_flag _ _ _ _ Hb Hf).
  assert (flag = "_echo" \/ flag = "_merge") as Hflag.
  { unfold appliedFlag in Hf.
    destruct (flagged (JObj m) "_echo"); [inversion Hf; auto|].
    destruct (flagged (JObj m) "_merge"); [inversion Hf; auto|discriminate]. }
  repeat split.
  - intros k v Hk. simpl. by apply lookup_union_Some_l.
  - intros Hother. f_equal. f_equal. apply map_eq. intros k.
    unfold stripDirectives. simpl. rewrite !lookup_delete.
    destruct Hflag as [-> | ->]; repeat case_decide; subst; try done;
      first [apply Hother | symmetry; apply Hother]; first [set_solver | discriminate].
  - unfold applyBody. rewrite Hb. unfold flagged. simpl.
    rewrite lookup_insert_eq. simpl. by rewrite delete_insert_eq, delete_id.
  - unfold applyBody. rewrite Hb. unfold flagged. simpl.
    rewrite lookup_insert_ne by discriminate.
    match goal with He : _ !! "_echo" = None |- _ => rewrite He end.
    rewrite lookup_insert_eq. simpl. by rewrite delete_insert_eq, delete_id.
Qed.

(** An instance of C6, the example of the specification: the payload
    [{a: 1, b: 2}] flagged [_echo], requested by POST with body
    [{b: 9, c: 3}], yields the body [{a: 1, b: 9, c: 3}]. *)
Lemma overlay_union_witness :
  exists r,
    fromRule (engineOn payloadMocks) ["srv"; "mocks"; "items"; "POST.json"] "POST"
      (Some (list_to_map [("b", JNum 9); ("c", JNum 3)])) = Return r
    /\ body r = obj [("a", JNum 1); ("b", JNum 9); ("c", JNum 3)].
Proof.
  destruct (overlay_union (engineOn payloadMocks)
              ["srv"; "mocks"; "items"; "POST.json"] "POST"
              (list_to_map [("b", JNum 9); ("c", JNum 3)])
              (list_to_map [("_echo", JBool true); ("a", JNum 1); ("b", JNum 2)])
              "_echo" eq_refl eq_refl eq_refl) as (r & Hr & Hbody & _).
  exists r. split; [exact Hr|]. rewrite Hbody. reflexivity.
Defined.

(** The same example through the whole resolution, under either flag. *)
Example echo_and_merge_example :
  bodyOf (getMockResponse (engineOn payloadMocks) "/items" "POST"
            (Some (list_to_map [("b", JNum 9); ("c", JNum 3)])) (Some ∅) (Some ∅)
            None 0 0)
  = Some (obj [("a", JNum 1); ("b", JNum 9); ("c", JNum 3)])
  /\ bodyOf (getMockResponse (engineOn payloadMocks) "/items" "PUT"
               (Some (list_to_map [("b", JNum 9); ("c", JNum 3)])) (Some ∅) (Some ∅)
               None 0 0)
     = Some (obj [("a", JNum 1); ("b", JNum 9); ("c", JNum 3)]).
Proof. split; reflexivity. Qed.

(** C6 as stated fails on a payload that carries both flags: for
    [{_echo: true, _merge: true, a: 1}] and the POST body [{b: 2}] the final
    body keeps [_merge], so it is not the union of the payload without its
    directives and the request body. *)
Lemma overlay_keeps_other_flag :
  exists r,
    getMockResponse (engineOn payloadMocks) "/both" "POST"
      (Some {[ "b" := JNum 2 ]}) (Some ∅) (Some ∅) None 0 0 = Return r
    /\ body r = obj [("_merge", JBool true); ("a", JNum 1); ("b", JNum 2)]
    /\ body r <> JObj ({[ "b" := JNum 2 ]}
                       ∪ stripDirectives
                           (list_to_map [("_echo", JBool true); ("_merge", JBool true);
                                         ("a", JNum 1)])).
Proof.
  eexists. split; [reflexivity|]. split; [reflexivity|].
  intros Heq. apply (f_equal (fun j => prop j "_merge")) in Heq.
  vm_compute in Heq. discriminate.
Qed.

(** ** Synthesised error responses *)

Section ErrorResponses.
Variable this : ApiMocker.t.

Lemma getErrorResponse_status errorCode requestPath method :
  statusCode (getErrorResponse this errorCode requestPath method)
  = resolveStatus errorCode.
Proof.
  unfold getErrorResponse, fromTemplate.
  destruct (Fs.existsSync _ _); [|done].
  destruct (Fs.readJSON _ _) as [template|]; simpl; [|done].
  destruct (interpolate this template requestPath method); simpl; [|done].
  by destruct (propOf template "_headers").
Qed.

Lemma errorMap_None key :
  ~ In key errorNames -> key <> "constructor" -> key <> "__proto__" ->
  errorMap key = None.
Proof.
  intros Hn Hc Hp. unfold errorMap.
  repeat match goal with
         | |- context [String.eqb key ?k] =>
             destruct (String.eqb_spec key k) as [->|_]
         end; try done; exfalso; apply Hn; simpl; tauto.
Qed.

Lemma getErrorResponse_without_template errorCode requestPath method :
  Fs.existsSync (disk this) (errorFilePath this (resolveStatus errorCode)) = false ->
  getErrorResponse this errorCode requestPath method
  = defaultResponse requestPath method (resolveStatus errorCode).
Proof. intros H. unfold getErrorResponse. by rewrite H. Qed.

(** The part of C7 that the code satisfies: a name that [parseInt]
    rejects and that is neither an entry of the name map nor one of the
    two inherited property names resolves to 500; without a template on
    disk the body is the built-in default of the status code, which is
    the 500 body for a status code without a built-in default. *)
Lemma getErrorResponse_defaults requestPath method :
  (forall s, Str.parseInt s = None ->
     ~ In (Str.toLowerCase s) errorNames ->
     Str.toLowerCase s <> "constructor" -> Str.toLowerCase s <> "__proto__" ->
     statusCode (getErrorResponse this (CodeStr s) requestPath method)
     = Json (JNum 500))
  /\ (forall errorCode,
        Fs.existsSync (disk this) (errorFilePath this (resolveStatus errorCode)) = false ->
        body (getErrorResponse this errorCode requestPath method)
        = default defaultError500
            (defaultErrors requestPath method (resolveStatus errorCode))
        /\ (defaultErrors requestPath method (resolveStatus errorCode) = None ->
            body (getErrorResponse this errorCode requestPath method)
            = defaultError500)).
Proof.
  split.
  - intros s Hp Hn Hc Hproto. rewrite getErrorResponse_status. simpl.
    by rewrite Hp, errorMap_None.
  - intros errorCode He. rewrite getErrorResponse_without_template by done.
    split; [done|]. simpl. by intros ->.
Qed.
End ErrorResponses.

(** C7 at the input on which the code departs from it.  The forced error
    name [constructor] is not an entry of the name map and is not a number,
    yet the status code of the response is not 500: the lookup in the map
    reaches the function that every object literal inherits under that
    name, and the response carries that function as its status code (with
    the body of the 500 default). *)
Theorem getErrorResponse_inherited_name :
  ~ In (Str.toLowerCase "constructor") errorNames
  /\ Str.parseInt "constructor" = None
  /\ getErrorResponse (engineOn (Fs.Dir [])) (CodeStr "constructor") "/users" "GET"
     = {| body := defaultError500;
          statusCode := Host ObjectConstructor;
          headers := JObj ∅ |}
  /\ statusCode (getErrorResponse (engineOn (Fs.Dir [])) (CodeStr "constructor")
                   "/users" "GET") <> Json (JNum 500).
Proof.
  split; [|split; [reflexivity|split; [reflexivity|discriminate]]].
  simpl. intros H. repeat destruct H as [H|H]; try discriminate; done.
Qed.

(** ** The arithmetic of doubles *)

Section Doubles.
Import Double.
#[local] Open Scope Q_scope.

Lemma pow2_pos e : 0 < pow2 e.
Proof. by apply Qpower_0_lt. Qed.

Lemma pow2_add a b : pow2 (a + b) == pow2 a * pow2 b.
Proof. by apply Qpower_plus. Qed.

Lemma pow2_succ a : pow2 (a + 1) == 2 * pow2 a.
Proof. rewrite pow2_add. change (pow2 1) with 2. lra. Qed.

Lemma pow2_le a b : (a <= b)%Z -> pow2 a <= pow2 b.
Proof. intros H. by apply Qpower_le_compat_l. Qed.

Lemma pow2_lt_inv a b : pow2 a < pow2 b -> (a < b)%Z.
Proof. intros H. by apply (Qpower_lt_compat_l_inv 2). Qed.

Lemma pow2_Z n : (0 <= n)%Z -> pow2 n == inject_Z (2 ^ n).
Proof. intros H. symmetry. by apply (Zpower_Qpower 2). Qed.

Lemma Q_num_den (q : Q) : q * inject_Z (Zpos (Qden q)) == inject_Z (Qnum q).
Proof.
  destruct q as [n d]. unfold Qeq, Qmult, inject_Z. simpl. lia.
Qed.

Lemma log2_bounds (n : Z) :
  (0 < n)%Z ->
  pow2 (Z.log2 n) <= inject_Z n /\ inject_Z n < 2 * pow2 (Z.log2 n).
Proof.
  intros Hn. destruct (Z.log2_spec n Hn) as [Hlo Hhi].
  pose proof (Z.log2_nonneg n) as Hl.
  rewrite <- pow2_succ, !pow2_Z by lia. split.
  - by rewrite <- Zle_Qle.
  - rewrite <- Zlt_Qlt. by rewrite <- Z.add_1_r in Hhi.
Qed.

Lemma binade_spec q :
  0 < q -> pow2 (binade q) <= q /\ q < pow2 (binade q + 1).
Proof.
  intros Hq.
  assert (0 < Qnum q)%Z as Hn by (destruct q; unfold Qlt in Hq; simpl in *; lia).
  unfold binade. rewrite Z.abs_eq by lia.
  set (ln := Z.log2 (Qnum q)). set (ld := Z.log2 (Z.pos (Qden q))).
  assert (Qabs q == q) as Habs by (apply Qabs_pos; lra).
  destruct (log2_bounds (Qnum q) Hn) as [Hn1 Hn2]. fold ln in Hn1, Hn2.
  destruct (log2_bounds (Z.pos (Qden q))) as [Hd1 Hd2]; [done|]. fold ld in Hd1, Hd2.
  pose proof (Q_num_den q) as Hq'.
  set (N := inject_Z (Qnum q)) in *. set (D := inject_Z (Z.pos (Qden q))) in *.
  assert (pow2 ln == pow2 (ln - ld) * pow2 ld) as HA
    by (rewrite <- pow2_add; by replace (ln - ld + ld)%Z with ln by lia).
  pose proof (pow2_pos (ln - ld)) as HE. pose proof (pow2_pos ld) as HB.
  set (E := pow2 (ln - ld)) in *. set (B := pow2 ld) in *. set (A := pow2 ln) in *.
  destruct (Qle_bool E (Qabs q)) eqn:Hcmp.
  - apply Qle_bool_iff in Hcmp. rewrite Habs in Hcmp. split; [done|].
    rewrite pow2_succ. fold E. nra.
  - assert (q < E) as Hlt.
    { apply Qnot_le_lt. intros H. rewrite <- Habs in H.
      apply Qle_bool_iff in H. congruence. }
    replace (ln - ld - 1 + 1)%Z with (ln - ld)%Z by lia. split; [|done].
    assert (2 * pow2 (ln - ld - 1) == E) as HE'
      by (rewrite <- pow2_succ; by replace (ln - ld - 1 + 1)%Z with (ln - ld)%Z by lia).
    pose proof (pow2_pos (ln - ld - 1)). nra.
Qed.

Lemma binade_unique q e :
  0 < q -> pow2 e <= q -> q < pow2 (e + 1) -> binade q = e.
Proof.
  intros Hq Hlo Hhi. destruct (binade_spec q Hq) as [Hlo' Hhi'].
  assert (e < binade q + 1)%Z by (apply pow2_lt_inv; lra).
  assert (binade q < e + 1)%Z by (apply pow2_lt_inv; lra).
  lia.
Qed.

Lemma binade_mono q q' : 0 < q -> q <= q' -> (binade q <= binade q')%Z.
Proof.
  intros Hq Hle. destruct (binade_spec q Hq) as [Hlo _].
  destruct (binade_spec q') as [_ Hhi]; [lra|].
  assert (binade q < binade q' + 1)%Z by (apply pow2_lt_inv; lra).
  lia.
Qed.

Lemma nearestEven_floor q :
  (Qfloor q <= nearestEven q <= Qfloor q + 1)%Z.
Proof.
  unfold nearestEven. destruct (_ ?= _); [destruct (Z.even _)| |]; lia.
Qed.

Lemma nearestEven_Z q n : q == inject_Z n -> nearestEven q = n.
Proof.
  intros Hq. unfold nearestEven.
  rewrite (Qfloor_comp _ _ Hq), Qfloor_Z.
  destruct (Qcompare_spec (q - inject_Z n) (1 # 2)); [lra|done|lra].
Qed.

Lemma nearestEven_mono q q' : q <= q' -> (nearestEven q <= nearestEven q')%Z.
Proof.
  intros Hle. pose proof (Qfloor_resp_le _ _ Hle) as Hf.
  destruct (Z.eq_dec (Qfloor q) (Qfloor q')) as [Heq|Hne].
  - unfold nearestEven. rewrite <- Heq.
    destruct (Qcompare_spec (q - inject_Z (Qfloor q)) (1 # 2));
      destruct (Qcompare_spec (q' - inject_Z (Qfloor q)) (1 # 2));
      try destruct (Z.even _); try lia; lra.
  - pose proof (nearestEven_floor q). pose proof (nearestEven_floor q'). lia.
Qed.

Lemma nearestEven_ge q n : inject_Z n <= q -> (n <= nearestEven q)%Z.
Proof.
  intros H. pose proof (nearestEven_mono _ _ H) as Hm.
  by rewrite (nearestEven_Z (inject_Z n) n) in Hm by reflexivity.
Qed.

Lemma nearestEven_le q n : q <= inject_Z n -> (nearestEven q <= n)%Z.
Proof.
  intros H. pose proof (nearestEven_mono _ _ H) as Hm.
  by rewrite (nearestEven_Z (inject_Z n) n) in Hm by reflexivity.
Qed.

(** The exponent of the last place. *)
Lemma ulp_pos q : 0 < ulp q.
Proof. apply pow2_pos. Qed.

Lemma round_zero q : q == 0 -> round q == 0.
Proof.
  intros Hq. unfold round.
  rewrite (nearestEven_Z _ 0); [change (inject_Z 0) with 0; ring|].
  generalize (ulp q). intros u. rewrite Hq. change (inject_Z 0) with 0.
  unfold Qdiv. ring.
Qed.

Lemma round_nonneg q : 0 <= q -> 0 <= round q.
Proof.
  intros Hq. unfold round. pose proof (ulp_pos q).
  apply Qmult_le_0_compat; [|lra].
  change 0 with (inject_Z 0). rewrite <- Zle_Qle. apply nearestEven_ge.
  apply Qle_shift_div_l; [done|]. change (inject_Z 0) with 0. lra.
Qed.

(** Rounding stays within the binade of the number, up to its upper end. *)
Lemma round_lower q :
  0 < q -> (-1074 <= binade q - 52)%Z -> pow2 (binade q) <= round q.
Proof.
  intros Hq Hnormal. destruct (binade_spec q Hq) as [Hlo _].
  unfold round, ulp. rewrite Z.max_l by lia.
  set (u := (binade q - 52)%Z). pose proof (pow2_pos u) as Hu.
  assert (pow2 (binade q) == inject_Z (2 ^ 52) * pow2 u) as ->.
  { rewrite <- pow2_Z, <- pow2_add by lia. unfold u.
    by replace (52 + (binade q - 52))%Z with (binade q) by lia. }
  apply Qmult_le_compat_r; [|lra].
  rewrite <- Zle_Qle. apply nearestEven_ge.
  apply Qle_shift_div_l; [done|].
  rewrite <- pow2_Z, <- pow2_add by lia. unfold u.
  by replace (52 + (binade q - 52))%Z with (binade q) by lia.
Qed.

Lemma round_upper q e :
  0 < q -> (binade q + 1 <= e)%Z -> (Z.max (binade q - 52) (-1074) <= e)%Z ->
  round q <= pow2 e.
Proof.
  intros Hq He Hu. destruct (binade_spec q Hq) as [_ Hhi].
  unfold round, ulp. set (u := Z.max (binade q - 52) (-1074)) in *.
  pose proof (pow2_pos u) as Hpu.
  assert (pow2 e == inject_Z (2 ^ (e - u)) * pow2 u) as ->.
  { rewrite <- pow2_Z, <- pow2_add by lia.
    by replace (e - u + u)%Z with e by lia. }
  apply Qmult_le_compat_r; [|lra].
  rewrite <- Zle_Qle. apply nearestEven_le.
  apply Qle_shift_div_r; [done|].
  rewrite <- pow2_Z, <- pow2_add by lia.
  replace (e - u + u)%Z with e by lia.
  pose proof (pow2_le (binade q + 1) e He). lra.
Qed.

Lemma round_mono q q' : 0 <= q -> q <= q' -> round q <= round q'.
Proof.
  intros Hq Hle.
  destruct (Qlt_le_dec 0 q) as [Hpos|Hzero].
  2:{ rewrite (round_zero q) by lra. apply round_nonneg. lra. }
  pose proof (binade_mono q q' Hpos Hle) as Hb.
  destruct (Z.eq_dec (Z.max (binade q - 52) (-1074)) (Z.max (binade q' - 52) (-1074)))
    as [Heq|Hne].
  - unfold round, ulp. rewrite <- Heq.
    set (u := Z.max (binade q - 52) (-1074)). pose proof (pow2_pos u) as Hu.
    apply Qmult_le_compat_r; [|lra].
    rewrite <- Zle_Qle. apply nearestEven_mono.
    apply Qle_shift_div_l; [done|].
    unfold Qdiv. rewrite <- Qmult_assoc, (Qmult_comm (/ _)), Qmult_inv_r; lra.
  - apply Qle_trans with (pow2 (binade q')).
    + apply round_upper; [done|lia|lia].
    + apply round_lower; [lra|lia].
Qed.

Lemma double_scaled q :
  isDouble q -> 0 <= q -> exists n, q / ulp q == inject_Z n.
Proof.
  intros (m & e & Hq & Hm & He) Hq0.
  destruct (Z.eq_dec m 0%Z) as [->|Hm0].
  { exists 0%Z. generalize (ulp q). intros u. rewrite Hq.
    unfold Qdiv. change (inject_Z 0) with 0. ring. }
  assert (0 < m)%Z as Hmpos.
  { destruct (Z.lt_trichotomy m 0) as [Hneg|[?|?]]; [|done|done].
    assert (inject_Z m * pow2 e < 0); [|lra].
    pose proof (pow2_pos e). assert (inject_Z m < 0); [|nra].
    change 0 with (inject_Z 0). by rewrite <- Zlt_Qlt. }
  assert (0 < q) as Hpos.
  { rewrite Hq. apply Qmult_lt_0_compat; [|apply pow2_pos].
    change 0 with (inject_Z 0). by rewrite <- Zlt_Qlt. }
  destruct (binade_spec q Hpos) as [Hlo _].
  assert (binade q < 53 + e)%Z as Hb.
  { apply pow2_lt_inv. eapply Qle_lt_trans; [exact Hlo|].
    rewrite Hq, pow2_add, (pow2_Z 53) by lia.
    apply Qmult_lt_compat_r; [apply pow2_pos|]. rewrite <- Zlt_Qlt. lia. }
  unfold ulp. set (u := Z.max (binade q - 52) (-1074)).
  assert (0 <= e - u)%Z as Heu by lia. clearbody u.
  exists (m * 2 ^ (e - u))%Z.
  rewrite inject_Z_mult, <- pow2_Z by done.
  rewrite Hq. replace e with ((e - u) + u)%Z at 1 by lia. rewrite pow2_add.
  pose proof (pow2_pos u). field. lra.
Qed.

(** A double stands for itself, and rounding leaves it as it is. *)
Lemma toDouble_double q : isDouble q -> 0 <= q -> toDouble q == q.
Proof.
  intros Hq Hq0. destruct (double_scaled q Hq Hq0) as (n & Hn).
  unfold toDouble. rewrite (Qfloor_comp _ _ Hn), Qfloor_Z, <- Hn.
  pose proof (ulp_pos q). field. lra.
Qed.

Lemma round_double q : isDouble q -> 0 <= q -> round q == q.
Proof.
  intros Hq Hq0. destruct (double_scaled q Hq Hq0) as (n & Hn).
  unfold round. rewrite (nearestEven_Z _ n Hn), <- Hn.
  pose proof (ulp_pos q). field. lra.
Qed.

Lemma toDouble_le q : toDouble q <= q.
Proof.
  unfold toDouble. pose proof (ulp_pos q) as Hu.
  pose proof (Qfloor_le (q / ulp q)) as Hf.
  apply (Qmult_le_compat_r _ _ (ulp q)) in Hf; [|lra].
  eapply Qle_trans; [exact Hf|]. apply Qle_lteq. right. field. lra.
Qed.

Lemma toDouble_nonneg q : 0 <= q -> 0 <= toDouble q.
Proof.
  intros Hq. unfold toDouble. pose proof (ulp_pos q).
  apply Qmult_le_0_compat; [|lra].
  change 0 with (inject_Z 0). rewrite <- Zle_Qle.
  rewrite <- (Qfloor_Z 0). apply Qfloor_resp_le.
  apply Qle_shift_div_l; [done|]. change (inject_Z 0) with 0. lra.
Qed.

Lemma toDouble_gt q : q - ulp q < toDouble q.
Proof.
  unfold toDouble. pose proof (ulp_pos q) as Hu.
  pose proof (Qlt_floor (q / ulp q)) as Hf. rewrite inject_Z_plus in Hf.
  change (inject_Z 1) with 1 in Hf.
  apply (Qmult_lt_compat_r _ _ (ulp q)) in Hf; [|done].
  assert (q / ulp q * ulp q == q) as Hq by (field; lra).
  rewrite Hq in Hf. lra.
Qed.

Lemma ulp_unit q : 0 < q -> q < 1 -> ulp q <= pow2 (-53).
Proof.
  intros Hq H1. destruct (binade_spec q Hq) as [Hlo _].
  assert (binade q < 0)%Z by (apply pow2_lt_inv; change (pow2 0) with 1; lra).
  apply pow2_le. lia.
Qed.

(** A draw below one stands for a double below one. *)
Lemma toDouble_unit q : 0 <= q -> q < 1 -> toDouble q <= 1 - pow2 (-53).
Proof.
  intros Hq H1. pose proof (toDouble_le q) as Hle.
  destruct (Qlt_le_dec q (1 # 2)) as [Hsmall|Hbig].
  { assert (pow2 (-53) <= 1 # 2) by (by vm_compute). lra. }
  assert (binade q = (-1)%Z) as Hb.
  { apply binade_unique; [lra| |]; [change (pow2 (-1)) with (1 # 2)|change (pow2 (-1 + 1)) with 1]; lra. }
  unfold toDouble, ulp. rewrite Hb. change (Z.max (-1 - 52) (-1074)) with (-53)%Z.
  assert (Qfloor (q / pow2 (-53)) <= 2 ^ 53 - 1)%Z as Hf.
  { assert (Qfloor (q / pow2 (-53)) < 2 ^ 53)%Z; [|lia].
    rewrite Zlt_Qlt. eapply Qle_lt_trans; [apply Qfloor_le|].
    apply Qlt_shift_div_r; [apply pow2_pos|].
    assert (inject_Z (2 ^ 53) * pow2 (-53) == 1) as -> by (by vm_compute).
    done. }
  rewrite Zle_Qle in Hf.
  apply (Qmult_le_compat_r _ _ (pow2 (-53))) in Hf; [|by vm_compute].
  eapply Qle_trans; [exact Hf|]. by vm_compute.
Qed.

(** The index [Math.floor(draw * 5)] that selects the random error. *)
Lemma index_nonneg draw :
  0 <= draw -> (0 <= Qfloor (mul (toDouble draw) 5))%Z.
Proof.
  intros Hd. rewrite <- (Qfloor_Z 0). apply Qfloor_resp_le.
  apply round_nonneg. pose proof (toDouble_nonneg draw Hd). lra.
Qed.

Lemma index_below draw :
  0 <= draw -> draw < 1 -> (Qfloor (mul (toDouble draw) 5) < 5)%Z.
Proof.
  intros Hlo Hhi. rewrite Zlt_Qlt. eapply Qle_lt_trans; [apply Qfloor_le|].
  pose proof (toDouble_nonneg draw Hlo). pose proof (toDouble_unit draw Hlo Hhi).
  apply Qle_lt_trans with (round (5 - 5 * pow2 (-53))).
  - apply round_mono; lra.
  - by vm_compute.
Qed.

Lemma integer_double (k : Z) : (0 <= k <= 5)%Z -> round (inject_Z k) == inject_Z k.
Proof.
  intros Hk. apply round_double.
  - exists k, 0%Z. change (pow2 0) with 1. split; [ring|]. lia.
  - change 0 with (inject_Z 0). rewrite <- Zle_Qle. lia.
Qed.

Lemma index_ge draw (k : Z) :
  (0 <= k <= 5)%Z -> draw < 1 -> inject_Z k / 5 + epsilon <= draw ->
  (k <= Qfloor (mul (toDouble draw) 5))%Z.
Proof.
  intros Hk Hhi Hlo.
  assert (0 <= inject_Z k) as Hk0
    by (change 0 with (inject_Z 0); rewrite <- Zle_Qle; lia).
  assert (0 < epsilon) as Heps by apply pow2_pos.
  assert (inject_Z k / 5 == inject_Z k * (1 # 5)) as Hdiv by (by field).
  assert (0 < draw) as Hpos by lra.
  pose proof (toDouble_gt draw) as Hgt. pose proof (ulp_unit draw Hpos Hhi) as Hulp.
  assert (epsilon == 2 * pow2 (-53)) as Heq by (by vm_compute).
  rewrite <- (Qfloor_Z k). apply Qfloor_resp_le.
  rewrite <- (integer_double k Hk). apply round_mono; lra.
Qed.

Lemma below_integer_double (k : Z) :
  (0 <= k <= 4)%Z ->
  round (inject_Z (k + 1) - pow2 (-50)) == inject_Z (k + 1) - pow2 (-50).
Proof.
  intros Hk.
  assert (k = 0 \/ k = 1 \/ k = 2 \/ k = 3 \/ k = 4)%Z as Hcases by lia.
  destruct Hcases as [->|[->|[->|[->| ->]]]]; by vm_compute.
Qed.

Lemma index_le draw (k : Z) :
  (0 <= k <= 4)%Z -> 0 <= draw -> draw <= inject_Z (k + 1) / 5 - epsilon ->
  (Qfloor (mul (toDouble draw) 5) <= k)%Z.
Proof.
  intros Hk Hlo Hhi.
  assert (inject_Z (k + 1) / 5 == inject_Z (k + 1) * (1 # 5)) as Hdiv by (by field).
  assert (4 * epsilon == pow2 (-50)) as Heq by (by vm_compute).
  assert (0 < pow2 (-50)) as Hp by apply pow2_pos.
  pose proof (toDouble_le draw) as Hle. pose proof (toDouble_nonneg draw Hlo) as H0.
  assert (Qfloor (mul (toDouble draw) 5) < k + 1)%Z; [|lia].
  rewrite Zlt_Qlt. eapply Qle_lt_trans; [apply Qfloor_le|].
  apply Qle_lt_trans with (round (inject_Z (k + 1) - pow2 (-50))).
  - apply round_mono; lra.
  - rewrite below_integer_double by done. lra.
Qed.
End Doubles.

(** ** The resolver *)

Section Resolution.
Variable this : ApiMocker.t.
Implicit Types (requestPath method : string) (requestBody query headers : reqmap).

Lemma findMock_direct requestPath method :
  findMock this requestPath method
  = match directFile this requestPath method with
    | Some p => Return (Some p)
    | None => findMockWithParams this (normalize requestPath) method
    end.
Proof.
  unfold findMock, directFile.
  destruct (Fs.existsSync _ (methodFile _ _ _)); [done|].
  destruct (Fs.existsSync _ (legacyFile _ _)); [done|].
  destruct (Fs.existsSync _ (indexFile _ _)); [done|].
  by rewrite andb_false_r.
Qed.

Lemma firstApplicable_first errorsDir method requestBody query headers errorFiles r :
  firstApplicable this errorsDir method requestBody query headers errorFiles
  = Return (Some r) ->
  firstFiring this errorsDir method requestBody query headers errorFiles r.
Proof.
  induction errorFiles as [|f rest IH]; simpl; [discriminate|].
  destruct (Fs.readJSON (disk this) (Path.join errorsDir f)) as [data|] eqn:Hread;
    simpl; [|discriminate].
  destruct (errorApplies this data (scenarioOf method f) requestBody query headers)
    as [[|]|] eqn:Happ; simpl; [| |discriminate].
  - intros [= <-]. exists [], f, rest, data. repeat split; try done.
    + intros g Hg. by apply elem_of_nil in Hg.
    + unfold fires. by rewrite Hread.
  - intros H. destruct (IH H) as (before & g & after & d & -> & Hb & Hr & Hf & ->).
    exists (f :: before), g, after, d. repeat split; try done.
    intros h Hh. apply elem_of_cons in Hh as [->|Hh]; [|by apply Hb].
    unfold fires. by rewrite Hread.
Qed.

Lemma checkForSpecificError_first requestPath method requestBody query headers r :
  checkForSpecificError this requestPath method requestBody query headers
  = Return (Some r) ->
  exists errorsDir errorFiles,
    errorFilesFor this requestPath method errorsDir errorFiles
    /\ firstFiring this errorsDir method requestBody query headers errorFiles r.
Proof.
  unfold checkForSpecificError.
  replace (Path.join (mockDirectory this) "") with (mockDirectory this) by reflexivity.
  destruct (descend this _ _) as [errorDir|] eqn:Hd; simpl; [|discriminate].
  destruct (Fs.existsSync _ _); simpl; [|discriminate].
  destruct (Fs.readdirSync _ _) as [names|] eqn:Hn; simpl; [|discriminate].
  intros H%firstApplicable_first.
  exists (Path.join errorDir "errors"), (List.filter (isErrorFileFor method) names).
  split; [|done]. by exists errorDir, names.
Qed.

Lemma firstApplicable_firing errorsDir method requestBody query headers errorFiles r :
  firstFiring this errorsDir method requestBody query headers errorFiles r ->
  firstApplicable this errorsDir method requestBody query headers errorFiles
  = Return (Some r).
Proof.
  intros (before & errorFile & after & errorData & -> & Hbefore & Hread & Hfires & ->).
  induction before as [|f before IH].
  - cbn [app firstApplicable]. unfold fires in Hfires.
    rewrite Hread in *. cbn [bind] in *. by rewrite Hfires.
  - cbn [app firstApplicable].
    assert (fires this errorsDir method requestBody query headers f = Return false)
      as Hf by (apply Hbefore; left).
    unfold fires in Hf.
    destruct (Fs.readJSON (disk this) (Path.join errorsDir f)) as [data|];
      [|discriminate].
    cbn [bind] in *. rewrite Hf. cbn [bind]. apply IH.
    intros g Hg. apply Hbefore. by right.
Qed.

Lemma firstApplicable_none errorsDir method requestBody query headers errorFiles :
  firstApplicable this errorsDir method requestBody query headers errorFiles
  = Return None
  <-> forall f, f ∈ errorFiles ->
        fires this errorsDir method requestBody query headers f = Return false.
Proof.
  induction errorFiles as [|f rest IH].
  - split; [|done]. intros _ g Hg. by apply elem_of_nil in Hg.
  - cbn [firstApplicable].
    assert (fires this errorsDir method requestBody query headers f
            = do errorData <- Fs.readJSON (disk this) (Path.join errorsDir f);
              errorApplies this errorData (scenarioOf method f) requestBody query
                headers) as Hfires by reflexivity.
    destruct (Fs.readJSON (disk this) (Path.join errorsDir f)) as [data|];
      cbn [bind] in *.
    + destruct (errorApplies this data (scenarioOf method f) requestBody query headers)
        as [[|]|]; cbn [bind] in *.
      * split; [discriminate|]. intros H.
        specialize (H f (list_elem_of_here _ _)). congruence.
      * rewrite IH. split.
        -- intros H g Hg. apply elem_of_cons in Hg as [->|Hg]; [done|by apply H].
        -- intros H g Hg. apply H. by right.
      * split; [discriminate|]. intros H.
        specialize (H f (list_elem_of_here _ _)). congruence.
    + split; [discriminate|]. intros H.
      specialize (H f (list_elem_of_here _ _)). congruence.
Qed.

Lemma checkForSpecificError_files requestPath method requestBody query headers
    errorsDir errorFiles :
  errorFilesFor this requestPath method errorsDir errorFiles ->
  checkForSpecificError this requestPath method requestBody query headers
  = firstApplicable this errorsDir method requestBody query headers errorFiles.
Proof.
  intros (errorDir & names & Hdescend & -> & Hnames & ->).
  unfold checkForSpecificError.
  replace (Path.join (mockDirectory this) "") with (mockDirectory this) by reflexivity.
  rewrite Hdescend. cbn [bind].
  assert (Fs.existsSync (disk this) (Path.join errorDir "errors") = true) as ->.
  { unfold Fs.readdirSync, Fs.readdirTypes in Hnames. unfold Fs.existsSync.
    by destruct (Fs.lookup _ _). }
  cbn [negb]. by rewrite Hnames.
Qed.

Lemma injects_iff draw :
  injects this draw = true <-> (0 < errorRate this)%Q /\ (draw < errorRate this)%Q.
Proof.
  unfold injects. rewrite andb_true_iff, !negb_true_iff.
  rewrite <- !not_true_iff_false, !Qle_bool_iff.
  split; intros [H1 H2]; split; 
    first [by apply Qnot_le_lt | by apply Qlt_not_le].
Qed.

Lemma randomErrorCode_index (draw : Q) (k : nat) (c : Z) :
  errorCodes !! k = Some c ->
  Qfloor (Double.mul (Double.toDouble draw) 5) = Z.of_nat k ->
  randomErrorCode draw = Some c.
Proof.
  intros Hk Hi. unfold randomErrorCode.
  change (inject_Z (Z.of_nat (length errorCodes))) with 5%Q. rewrite Hi.
  destruct (Z.ltb_spec (Z.of_nat k) 0); [lia|]. by rewrite Nat2Z.id.
Qed.

Lemma randomErrorCode_interval (k : nat) (c : Z) (draw : Q) :
  errorCodes !! k = Some c ->
  (inject_Z (Z.of_nat k) / 5 + Double.epsilon <= draw)%Q ->
  (draw <= inject_Z (Z.of_nat k + 1) / 5 - Double.epsilon)%Q ->
  randomErrorCode draw = Some c.
Proof.
  intros Hk Hlo Hhi.
  assert (k < 5)%nat as Hk5 by (apply lookup_lt_Some in Hk; exact Hk).
  assert (0 < Double.epsilon)%Q as Heps by apply pow2_pos.
  assert (0 <= inject_Z (Z.of_nat k))%Q as Hk0
    by (change 0%Q with (inject_Z 0); rewrite <- Zle_Qle; lia).
  assert (inject_Z (Z.of_nat k + 1) <= 5)%Q as Hk1
    by (change 5%Q with (inject_Z 5); rewrite <- Zle_Qle; lia).
  assert (inject_Z (Z.of_nat k) / 5 == inject_Z (Z.of_nat k) * (1 # 5))%Q as Hd0
    by (by field).
  assert (inject_Z (Z.of_nat k + 1) / 5 == inject_Z (Z.of_nat k + 1) * (1 # 5))%Q
    as Hd1 by (by field).
  apply (randomErrorCode_index draw k c Hk).
  assert (Z.of_nat k <= Qfloor (Double.mul (Double.toDouble draw) 5))%Z
    by (apply index_ge; [lia|lra|done]).
  assert (Qfloor (Double.mul (Double.toDouble draw) 5) <= Z.of_nat k)%Z
    by (apply index_le; [lia|lra|done]).
  lia.
Qed.

Lemma randomErrorCode_bracket (draw : Q) :
  (0 <= draw)%Q -> (draw < 1)%Q ->
  exists (k : nat) c,
    errorCodes !! k = Some c
    /\ randomErrorCode draw = Some c
    /\ (inject_Z (Z.of_nat k) / 5 - Double.epsilon < draw)%Q
    /\ (draw < inject_Z (Z.of_nat k + 1) / 5 + Double.epsilon)%Q.
Proof.
  intros Hlo Hhi.
  pose proof (index_nonneg draw Hlo) as Hi0. pose proof (index_below draw Hlo Hhi) as Hi5.
  set (i := Qfloor (Double.mul (Double.toDouble draw) 5)) in *.
  assert (exists c, errorCodes !! Z.to_nat i = Some c) as (c & Hc)
    by (apply lookup_lt_is_Some_2; simpl; lia).
  assert (0 < Double.epsilon)%Q as Heps by apply pow2_pos.
  exists (Z.to_nat i), c. rewrite Z2Nat.id by done.
  split; [done|]. split; [|split].
  - apply (randomErrorCode_index draw _ c Hc). by rewrite Z2Nat.id.
  - destruct (Qlt_le_dec (inject_Z i / 5 - Double.epsilon) draw) as [|Hle]; [done|].
    destruct (Z.eq_dec i 0) as [Hz|Hz].
    + rewrite Hz in Hle.
      assert (inject_Z 0 / 5 == 0)%Q as Hzero by (by vm_compute). lra.
    + assert (i <= i - 1)%Z; [|lia]. apply index_le; [lia|done|].
      by replace (i - 1 + 1)%Z with i by lia.
  - destruct (Qlt_le_dec draw (inject_Z (i + 1) / 5 + Double.epsilon)) as [|Hle];
      [done|].
    assert (i + 1 <= i)%Z; [|lia]. apply index_ge; [lia|done|done].
Qed.
End Resolution.

(** C1.  A resolution follows the priority order, the first success
    winning: (1) a forced error that is set is synthesised at once,
    whatever the rules are; (2) otherwise the error files of the directory
    chain are tried in listing order and the response of the first firing
    one is returned: the stage yields a response exactly when a file
    fires after files that do not, that response is the resolution, and
    the stage yields nothing exactly when no file fires; (3) otherwise,
    when the error rate is positive and the first draw is below it, the
    error of the code that the second draw selects is synthesised, the
    five codes being selected by the five intervals of length one fifth of
    the unit interval, up to the rounding of the product, which moves an
    end of an interval by less than [Number.EPSILON]; (4) otherwise the
    first existing file of the direct lookup is served; (5) otherwise the
    file that the parametrised matching finds is served; (6) otherwise the
    404 error is synthesised. *)
Theorem resolution_priority this requestPath method requestBody query headers
    forceError draw1 draw2 :
  let resolved :=
    getMockResponse this requestPath method requestBody query headers forceError
      draw1 draw2 in
  let scenario :=
    checkForSpecificError this requestPath method requestBody query headers in
  let injected := (0 < errorRate this)%Q /\ (draw1 < errorRate this)%Q in
  let served p :=
    tryCatch (fromRule this p method requestBody)
      (Return (getErrorResponse this (CodeNum 500) requestPath method)) in
  (forall errorCode, forceError = Some errorCode -> isSet forceError = true ->
     resolved = Return (getErrorResponse this errorCode requestPath method))
  /\ (isSet forceError = false ->
      (forall r, scenario = Return (Some r) ->
         resolved = Return r
         /\ exists errorsDir errorFiles,
              errorFilesFor this requestPath method errorsDir errorFiles
              /\ firstFiring this errorsDir method requestBody query headers
                   errorFiles r)
      /\ (forall errorsDir errorFiles,
            errorFilesFor this requestPath method errorsDir errorFiles ->
            (forall r,
               firstFiring this errorsDir method requestBody query headers
                 errorFiles r ->
               scenario = Return (Some r) /\ resolved = Return r)
            /\ (scenario = Return None
                <-> forall f, f ∈ errorFiles ->
                      fires this errorsDir method requestBody query headers f
                      = Return false)))
  /\ (isSet forceError = false -> scenario = Return None -> injected ->
      (forall (k : nat) c, errorCodes !! k = Some c ->
         (inject_Z (Z.of_nat k) / 5 + Double.epsilon <= draw2)%Q ->
         (draw2 <= inject_Z (Z.of_nat k + 1) / 5 - Double.epsilon)%Q ->
         resolved = Return (getErrorResponse this (CodeNum c) requestPath method))
      /\ ((0 <= draw2)%Q -> (draw2 < 1)%Q ->
          exists (k : nat) c,
            errorCodes !! k = Some c
            /\ resolved
               = Return (getErrorResponse this (CodeNum c) requestPath method)
            /\ (inject_Z (Z.of_nat k) / 5 - Double.epsilon < draw2)%Q
            /\ (draw2 < inject_Z (Z.of_nat k + 1) / 5 + Double.epsilon)%Q))
  /\ (isSet forceError = false -> scenario = Return None -> ~ injected ->
      (forall p, directFile this requestPath method = Some p -> resolved = served p)
      /\ (directFile this requestPath method = None ->
          forall p,
            findMockWithParams this (normalize requestPath) method = Return (Some p) ->
            resolved = served p)
      /\ (directFile this requestPath method = None ->
          findMockWithParams this (normalize requestPath) method = Return None ->
          resolved = Return (getErrorResponse this (CodeNum 404) requestPath method)
          /\ statusCode (getErrorResponse this (CodeNum 404) requestPath method)
             = Json (JNum 404))).
Proof.
  intros resolved scenario injected served.
  assert (forall p, isSet forceError = false -> scenario = Return None ->
            ~ injected -> findMock this requestPath method = Return p ->
            resolved = match p with
                       | Some p => served p
                       | None => Return (getErrorResponse this (CodeNum 404)
                                           requestPath method)
                       end) as Hlookup.
  { intros p Hset Hscenario Hinj Hfind.
    unfold resolved, getMockResponse. fold scenario.
    rewrite Hset, Hscenario. simpl.
    destruct (injects this draw1) eqn:Hi; [by apply injects_iff in Hi|].
    by rewrite Hfind. }
  assert (forall r, isSet forceError = false -> scenario = Return (Some r) ->
            resolved = Return r) as Hfired.
  { intros r Hset Hscenario. unfold resolved, getMockResponse. fold scenario.
    by rewrite Hset, Hscenario. }
  assert (forall c, isSet forceError = false -> scenario = Return None ->
            injected -> randomErrorCode draw2 = Some c ->
            resolved = Return (getErrorResponse this (CodeNum c) requestPath method))
    as Hrandom.
  { intros c Hset Hscenario Hinj Hc.
    unfold resolved, getMockResponse. fold scenario. rewrite Hset, Hscenario. simpl.
    apply injects_iff in Hinj. by rewrite Hinj, Hc. }
  split; [|split; [|split]].
  - intros errorCode -> Hset. unfold resolved, getMockResponse. by rewrite Hset.
  - intros Hset. split.
    + intros r Hscenario. split; [by apply Hfired|].
      by apply checkForSpecificError_first.
    + intros errorsDir errorFiles Hfiles.
      assert (scenario
              = firstApplicable this errorsDir method requestBody query headers
                  errorFiles) as Hstage
        by (by apply checkForSpecificError_files).
      split.
      * intros r Hfiring. apply firstApplicable_firing in Hfiring.
        rewrite <- Hstage in Hfiring. split; [done|by apply Hfired].
      * rewrite Hstage. apply firstApplicable_none.
  - intros Hset Hscenario Hinj. split.
    + intros k c Hk Hlo Hhi. apply Hrandom; try done.
      by apply (randomErrorCode_interval k).
    + intros Hlo Hhi.
      destruct (randomErrorCode_bracket draw2 Hlo Hhi) as (k & c & Hk & Hc & Hb).
      exists k, c. split; [done|]. split; [by apply Hrandom|done].
  - intros Hset Hscenario Hinj. split; [|split].
    + intros p Hp. apply (Hlookup (Some p)); try done.
      by rewrite findMock_direct, Hp.
    + intros Hd p Hp. apply (Hlookup (Some p)); try done.
      by rewrite findMock_direct, Hd.
    + intros Hd Hp. split; [|by rewrite getErrorResponse_status].
      apply (Hlookup None); try done. by rewrite findMock_direct, Hd.
Qed.

(** Instances of C1.  Without a forced error, a firing scenario, an
    injected error or a matching rule file, the resolution is the 404
    error; and the error file [GET_forbidden.json] of [/users], which fires
    for a guest, is the resolution of such a request although a rule file
    matches. *)
Lemma resolution_priority_witness :
  getMockResponse (engineOn payloadMocks) "/nothing" "GET" None (Some ∅) (Some ∅)
    None 0 0
  = Return (getErrorResponse (engineOn payloadMocks) (CodeNum 404) "/nothing" "GET")
  /\ getMockResponse (engineOn shopMocks) "/users" "GET" None (Some ∅)
       (Some {["role" := JStr "guest"]}) None 0 0
     = Return {| body := obj [("error", JStr "No")];
                 statusCode := Json (JNum 400);
                 headers := JObj ∅ |}.
Proof.
  split.
  - destruct (resolution_priority (engineOn payloadMocks) "/nothing" "GET" None
                (Some ∅) (Some ∅) None 0 0) as (_ & _ & _ & H).
    destruct H as (_ & _ & H).
    + reflexivity.
    + reflexivity.
    + intros [H _]. vm_compute in H. discriminate.
    + apply H; reflexivity.
  - destruct (resolution_priority (engineOn shopMocks) "/users" "GET" None
                (Some ∅) (Some {["role" := JStr "guest"]}) None 0 0)
      as (_ & H & _).
    destruct (H eq_refl) as (_ & Hfiles).
    destruct (Hfiles ["srv"; "mocks"; "users"; "errors"] ["GET_forbidden.json"])
      as (Hfiring & _).
    + exists ["srv"; "mocks"; "users"], ["GET_forbidden.json"].
      repeat split; reflexivity.
    + destruct (Hfiring (scenarioResponse (obj [("error", JStr "No")])))
        as (_ & Hresolved); [|exact Hresolved].
      exists [], "GET_forbidden.json", [], (obj [("error", JStr "No")]).
      repeat split; try reflexivity.
      intros f Hf. by apply elem_of_nil in Hf.
Defined.

(** With an error rate of one half, a first draw of one quarter injects
    an error and a second draw of three fifths selects the fourth code. *)
Example injected_error_example :
  getMockResponse
    {| disk := Fs.Dir []; mockDirectory := []; errorRate := 1 # 2;
       interpolate := fun template _ _ => Return template;
       looseLess := fun _ _ => false |}
    "/items" "GET" None (Some ∅) (Some ∅) None (1 # 4) (3 # 5)
  = Return {| body := errorBody "Not Found" "Resource at GET /items was not found.";
              statusCode := Json (JNum 404);
              headers := JObj ∅ |}.
Proof. reflexivity. Qed.

(** The product is the product of doubles: five times the double
    nearest to three fifths, which is below three fifths, is rounded to
    three, so that draw selects the fourth code as well. *)
Example rounded_product_example :
  let draw := (5404319552844595 # 9007199254740992)%Q in
  Double.isDouble draw
  /\ (draw * 5 < 3)%Q
  /\ (Double.mul draw 5 == 3)%Q
  /\ randomErrorCode draw = Some 404.
Proof.
  split; [|by vm_compute].
  exists 5404319552844595, (-53). by vm_compute.
Qed.


(** ** Failures while resolving *)

Section Failures.
Variable this : ApiMocker.t.

Lemma randomErrorCode_total (draw : Q) :
  (0 <= draw)%Q -> (draw < 1)%Q -> exists c, randomErrorCode draw = Some c.
Proof.
  intros Hlo Hhi.
  destruct (randomErrorCode_bracket draw Hlo Hhi) as (k & c & _ & Hc & _). eauto.
Qed.

Lemma findMock_returns requestPath method paths :
  getAllMockPaths this = Return paths ->
  exists p, findMock this requestPath method = Return p.
Proof.
  intros Hp. rewrite findMock_direct.
  destruct (directFile this requestPath method); [eauto|].
  unfold findMockWithParams. rewrite Hp. simpl. eauto.
Qed.

Lemma fromRule_unreadable mockPath method requestBody e :
  Fs.readJSON (disk this) mockPath = Throw e ->
  fromRule this mockPath method requestBody = Throw e.
Proof. intros H. unfold fromRule. by rewrite H. Qed.
End Failures.

(** C8, as the code has it.  A resolution with a forced error returns a
    response.  A resolution returns a response whenever the error-scenario
    stage and the walk of the rule directory complete without throwing (and
    the second draw is in the unit interval).  A matched rule file that
    cannot be read or parsed is caught inside [getMockResponse] and becomes
    the synthesised 500 response.  A failure of the error-scenario stage is
    not caught there: [getMockResponse] throws it to its caller. *)
Theorem getMockResponse_failures this requestPath method requestBody query headers
    forceError draw1 draw2 :
  let resolved :=
    getMockResponse this requestPath method requestBody query headers forceError
      draw1 draw2 in
  let scenario :=
    checkForSpecificError this requestPath method requestBody query headers in
  (isSet forceError = true -> exists r, resolved = Return r)
  /\ (forall s paths, scenario = Return s -> getAllMockPaths this = Return paths ->
        (0 <= draw2)%Q -> (draw2 < 1)%Q -> exists r, resolved = Return r)
  /\ (forall mockPath e,
        reachesRule this requestPath method requestBody query headers forceError
          draw1 mockPath ->
        Fs.readJSON (disk this) mockPath = Throw e ->
        resolved = Return (getErrorResponse this (CodeNum 500) requestPath method)
        /\ statusCode (getErrorResponse this (CodeNum 500) requestPath method)
           = Json (JNum 500))
  /\ (forall e, isSet forceError = false -> scenario = Throw e -> resolved = Throw e).
Proof.
  intros resolved scenario. split; [|split; [|split]].
  - intros Hset. unfold resolved, getMockResponse. rewrite Hset. eauto.
  - intros s paths Hs Hp Hlo Hhi. unfold resolved, getMockResponse. fold scenario.
    destruct (isSet forceError); [eauto|]. rewrite Hs. simpl.
    destruct s as [r|]; [eauto|].
    destruct (injects this draw1).
    + destruct (randomErrorCode_total draw2 Hlo Hhi) as (c & ->). eauto.
    + destruct (findMock_returns this requestPath method paths Hp) as (p & ->).
      simpl. destruct p as [p|]; [|eauto].
      destruct (fromRule this p method requestBody); simpl; eauto.
  - intros mockPath e Hreach Hread. split; [|by rewrite getErrorResponse_status].
    unfold resolved. rewrite (getMockResponse_rule _ _ _ _ _ _ _ _ _ _ Hreach).
    by rewrite (fromRule_unreadable _ _ _ _ _ Hread).
  - intros e Hset Hs. unfold resolved, getMockResponse. fold scenario.
    by rewrite Hset, Hs.
Qed.

(** An instance of C8: a rule file that is not valid JSON resolves to the
    synthesised 500 response. *)
Lemma getMockResponse_failures_witness :
  getMockResponse (engineOn brokenRuleMocks) "/users" "GET" None (Some ∅) (Some ∅)
    None 0 0
  = Return {| body := defaultError500;
              statusCode := Json (JNum 500);
              headers := JObj ∅ |}.
Proof.
  destruct (getMockResponse_failures (engineOn brokenRuleMocks) "/users" "GET" None
              (Some ∅) (Some ∅) None 0 0) as (_ & _ & H & _).
  destruct (H ["srv"; "mocks"; "users"; "GET.json"] SyntaxError) as (Hr & _).
  - repeat split; reflexivity.
  - reflexivity.
  - rewrite Hr. reflexivity.
Defined.

(** C8 as stated fails on an error-scenario file that is not valid JSON:
    the resolution throws the parse error to its caller instead of
    returning a response. *)
Lemma getMockResponse_throws_on_broken_scenario :
  getMockResponse (engineOn brokenScenarioMocks) "/users" "GET" None (Some ∅)
    (Some ∅) None 0 0 = Throw SyntaxError
  /\ ~ (exists r, getMockResponse (engineOn brokenScenarioMocks) "/users" "GET" None
                    (Some ∅) (Some ∅) None 0 0 = Return r).
Proof.
  split; [reflexivity|]. intros (r & Hr). vm_compute in Hr. discriminate.
Qed.

(** ** Path strings and locations on disk *)

Section Strings.
Implicit Types (s a b : string) (segs : list string) (base : path).

Lemma split_noChar sep s : noChar sep s = true -> Str.split sep s = [s].
Proof.
  induction s as [|c s IH]; simpl; [done|].
  intros [Hc Hs]%andb_true_iff. apply negb_true_iff in Hc. rewrite Hc.
  by rewrite (IH Hs).
Qed.

Lemma split_app_sep sep a b :
  noChar sep a = true ->
  Str.split sep (a +:+ String sep b) = a :: Str.split sep b.
Proof.
  induction a as [|c a IH]; simpl.
  - intros _. by rewrite Ascii.eqb_refl.
  - intros [Hc Ha]%andb_true_iff. apply negb_true_iff in Hc. rewrite Hc.
    by rewrite (IH Ha).
Qed.

Lemma plainName_inv s :
  plainName s = true ->
  s <> "" /\ noChar "/" s = true /\ noChar "\" s = true /\ s <> "." /\ s <> "..".
Proof.
  unfold plainName, Str.nonEmpty. rewrite !andb_true_iff, !negb_true_iff.
  intros ((((H1 & H2) & H3) & H4) & H5).
  repeat split; try done; by apply String.eqb_neq.
Qed.

Lemma nonEmpty_plain s : plainName s = true -> Str.nonEmpty s = true.
Proof. unfold plainName. rewrite !andb_true_iff. tauto. Qed.

Lemma join_cons2 p q segs :
  Str.join "/" (p :: q :: segs) = p +:+ String "/" (Str.join "/" (q :: segs)).
Proof. reflexivity. Qed.

Lemma segments_join segs :
  Forall (fun s => plainName s = true) segs ->
  List.filter Str.nonEmpty (Str.split "/" (Str.join "/" segs)) = segs.
Proof.
  induction 1 as [|p segs Hp Hsegs IH]; [done|].
  destruct (plainName_inv p Hp) as (_ & Hslash & _).
  destruct segs as [|q segs].
  - simpl. rewrite split_noChar by done. simpl. by rewrite nonEmpty_plain.
  - rewrite join_cons2, split_app_sep by done.
    cbn [List.filter]. by rewrite nonEmpty_plain, IH.
Qed.

Lemma segments_pathOf segs :
  Forall (fun s => plainName s = true) segs -> segments (pathOf segs) = segs.
Proof. intros H. unfold segments, pathOf. simpl. by apply segments_join. Qed.

Lemma step_plain base s : plainName s = true -> Path.step base s = base ++ [s].
Proof.
  intros (H1 & _ & _ & H2 & H3)%plainName_inv. unfold Path.step.
  apply String.eqb_neq in H1, H2, H3. by rewrite H1, H2, H3.
Qed.

Lemma fold_step_join segs : forall base,
  Forall (fun s => plainName s = true) segs ->
  fold_left Path.step (Str.split "/" (Str.join "/" segs)) base = base ++ segs.
Proof.
  induction segs as [|p segs IH]; intros base Hall.
  - simpl. by rewrite app_nil_r.
  - inversion Hall as [|? ? Hp Hsegs]; subst.
    destruct (plainName_inv p Hp) as (_ & Hslash & _).
    destruct segs as [|q segs].
    + simpl. rewrite split_noChar by done. simpl. by apply step_plain.
    + rewrite join_cons2, split_app_sep by done. simpl fold_left.
      rewrite step_plain by done. rewrite IH by done. by rewrite <- app_assoc.
Qed.

Lemma join_pathOf base segs :
  Forall (fun s => plainName s = true) segs ->
  Path.join base (pathOf segs) = base ++ segs.
Proof. intros H. unfold Path.join, pathOf. simpl. by apply fold_step_join. Qed.

Lemma endsWith_noSlash s : noChar "/" s = true -> Str.endsWith s "/" = false.
Proof.
  induction s as [|c s IH]; simpl; [done|].
  intros [Hc Hs]%andb_true_iff. apply negb_true_iff in Hc.
  rewrite Hc. simpl. by apply IH.
Qed.

Lemma endsWith_app a b :
  b <> "" -> Str.endsWith (a +:+ b) "/" = Str.endsWith b "/".
Proof.
  intros Hb. induction a as [|c a IH]; [done|].
  simpl. rewrite IH.
  destruct (Ascii.eqb c "/"); [|done].
  destruct (a +:+ b) eqn:Hab; [|done].
  destruct a; [done|discriminate].
Qed.

Lemma join_nonempty segs :
  segs <> [] -> Forall (fun s => plainName s = true) segs ->
  Str.join "/" segs <> "" /\ Str.endsWith (Str.join "/" segs) "/" = false
  /\ Str.join "/" segs <> "." /\ noChar "\" (Str.join "/" segs) = true.
Proof.
  intros Hne Hall. induction Hall as [|p segs Hp Hsegs IH]; [done|].
  destruct (plainName_inv p Hp) as (Hp1 & Hp2 & Hp3 & Hp4 & _).
  destruct segs as [|q segs].
  - simpl. repeat split; try done. by apply endsWith_noSlash.
  - destruct IH as (IH1 & IH2 & _ & IH4); [done|].
    rewrite join_cons2. repeat split.
    + destruct p; [done|discriminate].
    + change (String "/" ?x) with ("/" +:+ x).
      rewrite endsWith_app; [by rewrite endsWith_app|].
      discriminate.
    + destruct p as [|c p]; [done|]. simpl. intros [= -> Hrest].
      destruct p; discriminate.
    + clear -Hp3 IH4. induction p as [|c p IHp]; simpl in *; [done|].
      apply andb_true_iff in Hp3 as [-> Hp3]. simpl. by apply IHp.
Qed.

Lemma normalize_pathOf segs :
  Forall (fun s => plainName s = true) segs -> normalize (pathOf segs) = pathOf segs.
Proof.
  intros Hall. destruct segs as [|p segs]; [done|].
  destruct (join_nonempty (p :: segs)) as (Hne & Hend & _); [done..|].
  unfold normalize, pathOf.
  rewrite endsWith_app by done. rewrite Hend. reflexivity.
Qed.

Lemma endsWith_pathOf segs :
  segs <> [] -> Forall (fun s => plainName s = true) segs ->
  Str.endsWith (pathOf segs) "/" = false.
Proof.
  intros Hne Hall. destruct (join_nonempty segs) as (Hj & Hend & _); [done..|].
  unfold pathOf. by rewrite endsWith_app.
Qed.

Lemma backslashToSlash_id s : noChar "\" s = true -> Str.backslashToSlash s = s.
Proof.
  induction s as [|c s IH]; simpl; [done|].
  intros [Hc Hs]%andb_true_iff. apply negb_true_iff in Hc.
  by rewrite Hc, IH.
Qed.

Lemma stripCommon_prefix base rest : Path.stripCommon base (base ++ rest) = ([], rest).
Proof.
  induction base as [|a base IH]; simpl; [by destruct rest|].
  by rewrite String.eqb_refl.
Qed.

Lemma relative_under base rest : Path.relative base (base ++ rest) = rest.
Proof. unfold Path.relative. by rewrite stripCommon_prefix. Qed.
End Strings.

Section Lookup.
Variable this : ApiMocker.t.
Implicit Types (segs : list string) (requestPath method : string).

Lemma exactPathOf_pathOf segs :
  Forall (fun s => plainName s = true) segs ->
  exactPathOf this (pathOf segs) = mockDirectory this ++ segs.
Proof.
  intros H. unfold exactPathOf. by rewrite normalize_pathOf, join_pathOf.
Qed.

Lemma ext_not_dots name :
  name +:+ ".json" <> "" /\ name +:+ ".json" <> "." /\ name +:+ ".json" <> "..".
Proof. destruct name as [|c1 [|c2 [|c3 name]]]; repeat split; discriminate. Qed.

Lemma noChar_app c a b :
  noChar c a = true -> noChar c b = true -> noChar c (a +:+ b) = true.
Proof.
  intros Ha Hb. induction a as [|d a IH]; simpl in *; [done|].
  apply andb_true_iff in Ha as [-> Ha]. simpl. by apply IH.
Qed.

Lemma join_file base name :
  noChar "/" name = true ->
  Path.join base (name +:+ ".json") = base ++ [name +:+ ".json"].
Proof.
  intros Hn. unfold Path.join. rewrite split_noChar by (by apply noChar_app).
  simpl. unfold Path.step.
  destruct (ext_not_dots name) as (H1 & H2 & H3).
  apply String.eqb_neq in H1, H2, H3. by rewrite H1, H2, H3.
Qed.

Lemma methodFile_pathOf segs method :
  Forall (fun s => plainName s = true) segs -> noChar "/" method = true ->
  methodFile this (pathOf segs) method
  = mockDirectory this ++ segs ++ [method +:+ ".json"].
Proof.
  intros Hs Hm. unfold methodFile.
  by rewrite exactPathOf_pathOf, join_file, <- app_assoc.
Qed.

Lemma indexFile_pathOf segs :
  Forall (fun s => plainName s = true) segs ->
  indexFile this (pathOf segs) = mockDirectory this ++ segs ++ ["index.json"].
Proof.
  intros Hs. unfold indexFile.
  by rewrite exactPathOf_pathOf, (join_file _ "index"), <- app_assoc.
Qed.

Lemma last_app_nonempty (l l' : list string) d :
  l' <> [] -> List.last (l ++ l') d = List.last l' d.
Proof.
  intros Hne. induction l as [|a l IH]; [done|].
  simpl. rewrite IH. destruct (l ++ l') eqn:Happ; [|done].
  apply app_eq_nil in Happ as [_ ->]. done.
Qed.

Lemma legacyFile_pathOf segs :
  segs <> [] -> Forall (fun s => plainName s = true) segs ->
  legacyFile this (pathOf segs)
  = mockDirectory this ++ removelast segs ++ [List.last segs "" +:+ ".json"].
Proof.
  intros Hne Hs. unfold legacyFile.
  rewrite exactPathOf_pathOf, normalize_pathOf, endsWith_pathOf by done.
  unfold Path.addExt.
  destruct (mockDirectory this ++ segs) eqn:Happ.
  - apply app_eq_nil in Happ as [_ ->]. done.
  - rewrite <- Happ. rewrite removelast_app, last_app_nonempty by done.
    by rewrite <- app_assoc.
Qed.

Lemma mockDirPathOf_under dirsegs file :
  Forall (fun s => plainName s = true) dirsegs ->
  mockDirPathOf this (mockDirectory this ++ dirsegs ++ [file]) = pathOf dirsegs.
Proof.
  intros Hd. unfold mockDirPathOf. rewrite relative_under.
  unfold Path.dirname. rewrite removelast_last.
  destruct dirsegs as [|d dirsegs]; [done|].
  destruct (join_nonempty (d :: dirsegs)) as (_ & _ & Hdot & Hback); [done..|].
  apply String.eqb_neq in Hdot. rewrite Hdot.
  by rewrite backslashToSlash_id.
Qed.

Lemma parsePathParams_length requestPath mockDirPath params :
  parsePathParams requestPath mockDirPath = Some params ->
  length (segments mockDirPath) = length (segments requestPath).
Proof.
  unfold parsePathParams.
  destruct (Nat.eqb_spec (length (segments mockDirPath))
              (length (segments requestPath))); [done|discriminate].
Qed.

Lemma firstMatch_Some requestPath method mockPaths p :
  firstMatch this requestPath method mockPaths = Some p ->
  p ∈ mockPaths
  /\ methodCompatible requestPath method p = true
  /\ is_Some (parsePathParams requestPath (mockDirPathOf this p)).
Proof.
  induction mockPaths as [|q rest IH]; simpl; [discriminate|].
  destruct (methodCompatible requestPath method q) eqn:Hq; simpl.
  - destruct (parsePathParams requestPath (mockDirPathOf this q)) eqn:Hm.
    + intros [= <-]. repeat split; [left|done|by rewrite Hm].
    + intros H. destruct (IH H) as (? & ? & ?). repeat split; [by right|done..].
  - intros H. destruct (IH H) as (? & ? & ?). repeat split; [by right|done..].
Qed.

Lemma firstMatch_first requestPath method before p after :
  (forall q, q ∈ before ->
     methodCompatible requestPath method q = false
     \/ parsePathParams requestPath (mockDirPathOf this q) = None) ->
  methodCompatible requestPath method p = true ->
  is_Some (parsePathParams requestPath (mockDirPathOf this p)) ->
  firstMatch this requestPath method (before ++ p :: after) = Some p.
Proof.
  intros Hbefore Hcompat (params & Hmatch).
  induction before as [|q before IH]; simpl.
  - by rewrite Hcompat, Hmatch.
  - rewrite IH by (intros q' Hq'; apply Hbefore; by right).
    destruct (Hbefore q) as [-> | ->]; [by left|done|].
    by destruct (methodCompatible requestPath method q).
Qed.

Lemma legacyFile_template segs :
  segs <> [] -> Forall (fun s => plainName s = true) segs ->
  length (segments (mockDirPathOf this (legacyFile this (pathOf segs))))
  = (length segs - 1)%nat.
Proof.
  intros Hne Hs. rewrite legacyFile_pathOf by done.
  assert (Forall (fun s => plainName s = true) (removelast segs)) as Hr.
  { apply Forall_forall. intros x Hx. rewrite Forall_forall in Hs. apply Hs.
    apply list_elem_of_In. apply list_elem_of_In in Hx.
    clear -Hx. induction segs as [|a [|b segs] IH]; simpl in *; [done..|].
    destruct Hx as [->|Hx]; [by left|right; by apply IH]. }
  rewrite mockDirPathOf_under, segments_pathOf by done.
  clear -Hne. induction segs as [|a [|b segs] IH]; simpl in *; [done..|].
  rewrite IH by done. simpl. lia.
Qed.
End Lookup.

(** C5.  The direct lookup checks, in this order, the method-specific
    file, the legacy file and the index file of the normalised path, for
    every method, and returns the first that exists.  So when any of them
    exists, [findMock] returns it whatever other rule files the directory
    holds, and a resolution that reaches the lookup serves the payload of
    that file.  For a request path [/s1/.../sn] of ordinary segments these
    three files are [s1/.../sn/<METHOD>.json], [s1/.../sn.json] and
    [s1/.../sn/index.json] below the rule directory. *)
Theorem findMock_direct_order this requestPath method :
  let found p := findMock this requestPath method = Return (Some p) in
  let present p := Fs.existsSync (disk this) p in
  (present (methodFile this requestPath method) = true ->
   found (methodFile this requestPath method))
  /\ (present (methodFile this requestPath method) = false ->
      present (legacyFile this requestPath) = true ->
      found (legacyFile this requestPath))
  /\ (present (methodFile this requestPath method) = false ->
      present (legacyFile this requestPath) = false ->
      present (indexFile this requestPath) = true ->
      found (indexFile this requestPath))
  /\ (forall p, directFile this requestPath method = Some p ->
        found p
        /\ forall requestBody query headers forceError draw1 draw2 payload,
             isSet forceError = false ->
             checkForSpecificError this requestPath method requestBody query headers
             = Return None ->
             injects this draw1 = false ->
             Fs.readJSON (disk this) p = Return payload -> payload <> JNull ->
             bodyOf (getMockResponse this requestPath method requestBody query headers
                       forceError draw1 draw2)
             = Some (applyBody (del "_headers" (del "_statusCode" payload))
                       method requestBody))
  /\ (forall segs, Forall (fun s => plainName s = true) segs ->
        noChar "/" method = true -> requestPath = pathOf segs ->
        methodFile this requestPath method
        = mockDirectory this ++ segs ++ [method +:+ ".json"]
        /\ indexFile this requestPath = mockDirectory this ++ segs ++ ["index.json"]
        /\ (segs <> [] ->
            legacyFile this requestPath
            = mockDirectory this ++ removelast segs ++ [List.last segs "" +:+ ".json"])).
Proof.
  intros found present. unfold found, present.
  split; [|split; [|split; [|split]]].
  - intros H1. by rewrite findMock_direct; unfold directFile; rewrite H1.
  - intros H1 H2. by rewrite findMock_direct; unfold directFile; rewrite H1, H2.
  - intros H1 H2 H3.
    by rewrite findMock_direct; unfold directFile; rewrite H1, H2, H3.
  - intros p Hp.
    assert (findMock this requestPath method = Return (Some p)) as Hfind
      by (by rewrite findMock_direct, Hp).
    split; [done|].
    intros requestBody query headers forceError draw1 draw2 payload
      Hset Hscenario Hinj Hread Hnull.
    rewrite (getMockResponse_rule this _ _ _ _ _ _ _ _ p) by done.
    unfold fromRule. rewrite Hread. simpl. by destruct payload.
  - intros segs Hsegs Hmethod ->.
    rewrite methodFile_pathOf, indexFile_pathOf by done.
    split; [done|]. split; [done|]. intros Hne. by apply legacyFile_pathOf.
Qed.

(** An instance of C5: [/users/5] has a literal rule file, which the
    lookup returns although the parametrised directory [[id]] is listed
    before it. *)
Lemma findMock_direct_order_witness :
  findMock (engineOn literalAndParamMocks) "/users/5" "GET"
  = Return (Some ["srv"; "mocks"; "users"; "5"; "GET.json"]).
Proof.
  destruct (findMock_direct_order (engineOn literalAndParamMocks) "/users/5" "GET")
    as (H & _).
  apply H. reflexivity.
Defined.

(** On the same rule set the parametrised matching alone finds the other
    file, and the resolution serves the literal one. *)
Example literal_before_parametrised :
  findMockWithParams (engineOn literalAndParamMocks) "/users/5" "GET"
  = Return (Some ["srv"; "mocks"; "users"; "[id]"; "GET.json"])
  /\ bodyOf (getMockResponse (engineOn literalAndParamMocks) "/users/5" "GET" None
               (Some ∅) (Some ∅) None 0 0)
     = Some (obj [("kind", JStr "literal")]).
Proof. split; reflexivity. Qed.

(** C9, as the code has it.  A file that the parametrised fallback
    returns is one of the enumerated rule files, passes the method filter,
    and lies in a directory whose path below the rule directory has as many
    segments as the request path and matches it.  Hence, for a request path
    [/s1/.../sn] of ordinary segments, the fallback does not return the
    legacy file [s1/.../sn.json] of that path, whose directory has one
    segment fewer.  Conversely the fallback returns the first enumerated
    file that passes the method filter, for whichever of its three reasons,
    and whose directory matches the request path. *)
Theorem fallback_candidates this requestPath method :
  (forall p,
     findMockWithParams this requestPath method = Return (Some p) ->
     (exists mockPaths, getAllMockPaths this = Return mockPaths /\ p ∈ mockPaths)
     /\ methodCompatible requestPath method p = true
     /\ length (segments (mockDirPathOf this p)) = length (segments requestPath)
     /\ is_Some (parsePathParams requestPath (mockDirPathOf this p))
     /\ (forall segs, segs <> [] -> Forall (fun s => plainName s = true) segs ->
           requestPath = pathOf segs -> p <> legacyFile this requestPath))
  /\ (forall mockPaths before p after,
        getAllMockPaths this = Return mockPaths ->
        mockPaths = before ++ p :: after ->
        (forall q, q ∈ before ->
           methodCompatible requestPath method q = false
           \/ parsePathParams requestPath (mockDirPathOf this q) = None) ->
        methodCompatible requestPath method p = true ->
        is_Some (parsePathParams requestPath (mockDirPathOf this p)) ->
        findMockWithParams this requestPath method = Return (Some p)).
Proof.
  split.
  - intros p. unfold findMockWithParams.
    destruct (getAllMockPaths this) as [mockPaths|] eqn:Hpaths; simpl; [|discriminate].
    intros [= Hfirst]. apply firstMatch_Some in Hfirst as (Hin & Hcompat & Hmatch).
    assert (length (segments (mockDirPathOf this p)) = length (segments requestPath))
      as Hlen by (destruct Hmatch as (params & Hm); by eapply parsePathParams_length).
    split; [by exists mockPaths|]. split; [done|]. split; [done|]. split; [done|].
    intros segs Hne Hsegs -> ->.
    rewrite legacyFile_template, segments_pathOf in Hlen by done.
    destruct segs; [done|]. simpl in Hlen. lia.
  - intros mockPaths before p after Hpaths -> Hbefore Hcompat Hmatch.
    unfold findMockWithParams. rewrite Hpaths. simpl.
    by rewrite firstMatch_first.
Qed.

(** An instance of C9: the fallback serves [/users/7] from the
    parametrised directory [users/[id]], the first enumerated file. *)
Lemma fallback_candidates_witness :
  findMockWithParams (engineOn literalAndParamMocks) "/users/7" "GET"
  = Return (Some ["srv"; "mocks"; "users"; "[id]"; "GET.json"])
  /\ length (segments (mockDirPathOf (engineOn literalAndParamMocks)
                         ["srv"; "mocks"; "users"; "[id]"; "GET.json"]))
     = length (segments "/users/7").
Proof.
  destruct (fallback_candidates (engineOn literalAndParamMocks) "/users/7" "GET")
    as (Hreturned & Hfirst).
  assert (findMockWithParams (engineOn literalAndParamMocks) "/users/7" "GET"
          = Return (Some ["srv"; "mocks"; "users"; "[id]"; "GET.json"])) as Hfound.
  { apply (Hfirst [["srv"; "mocks"; "users"; "[id]"; "GET.json"];
                   ["srv"; "mocks"; "users"; "5"; "GET.json"]]
                  [] _ [["srv"; "mocks"; "users"; "5"; "GET.json"]]).
    - reflexivity.
    - reflexivity.
    - intros q Hq. by apply elem_of_nil in Hq.
    - reflexivity.
    - eexists. reflexivity. }
  split; [exact Hfound|].
  destruct (Hreturned _ Hfound) as (_ & _ & Hlen & _). exact Hlen.
Defined.

(** C9 as stated fails on a file named after the last segment of its own
    directory: [users/profile/profile.json] passes the method filter for
    [GET /users/profile] only because of its base name, and the fallback
    returns it, its directory [/users/profile] having as many segments as
    the request path. *)
Lemma fallback_returns_basename_file :
  let p := ["srv"; "mocks"; "users"; "profile"; "profile.json"] in
  findMockWithParams (engineOn profileMocks) "/users/profile" "GET" = Return (Some p)
  /\ directFile (engineOn profileMocks) "/users/profile" "GET" = None
  /\ findMock (engineOn profileMocks) "/users/profile" "GET" = Return (Some p)
  /\ List.last p "" <> "GET.json"
  /\ List.last p "" <> "index.json"
  /\ List.last p "" = Path.basename "/users/profile" +:+ ".json".
Proof. repeat split; try reflexivity; discriminate. Qed.

(** * Further properties of the engine *)

(** ** Normalisation of the request path *)

Section Normalisation.
Variable this : ApiMocker.t.

Lemma dropLast_app_char s c : Str.dropLast (s +:+ String c "") = s.
Proof.
  induction s as [|d s IH]; [done|].
  simpl. rewrite IH. by destruct s.
Qed.

Lemma normalize_trailing p :
  Str.endsWith p "/" = false -> normalize (p +:+ "/") = normalize p.
Proof.
  intros Hp. unfold normalize.
  rewrite endsWith_app by discriminate.
  change (Str.endsWith "/" "/") with true. cbv iota.
  by rewrite dropLast_app_char, Hp.
Qed.

Lemma normalize_leading p :
  Str.startsWith p "/" = false -> normalize ("/" +:+ p) = normalize p.
Proof.
  intros Hp. destruct p as [|c p]; [done|].
  assert (Ascii.eqb "/" c = false) as Hc.
  { destruct (Ascii.eqb_spec "/" c) as [<-|Hne]; [|done]. cbn in Hp. discriminate. }
  unfold normalize.
  rewrite (endsWith_app "/" (String c p)) by discriminate.
  destruct (Str.endsWith (String c p) "/") eqn:Hend.
  - destruct p as [|d p].
    + cbn [Str.endsWith String.eqb orb] in Hend.
      rewrite Ascii.eqb_sym, Hc in Hend. discriminate.
    + change (Str.dropLast ("/" +:+ String c (String d p)))
        with (String "/" (String c (Str.dropLast (String d p)))).
      change (Str.dropLast (String c (String d p)))
        with (String c (Str.dropLast (String d p))).
      generalize (Str.dropLast (String d p)). intros x.
      cbn [Str.startsWith]. by rewrite Hc, Ascii.eqb_refl.
  - change ("/" +:+ String c p) with (String "/" (String c p)).
    cbn [Str.startsWith]. by rewrite Hc, Ascii.eqb_refl.
Qed.

Lemma findMock_normalize p q method :
  normalize p = normalize q -> findMock this p method = findMock this q method.
Proof.
  intros H. unfold findMock, methodFile, legacyFile, indexFile, exactPathOf.
  by rewrite H.
Qed.

Lemma checkForSpecificError_normalize p q method body query headers :
  normalize p = normalize q ->
  checkForSpecificError this p method body query headers
  = checkForSpecificError this q method body query headers.
Proof. intros H. unfold checkForSpecificError. by rewrite H. Qed.
End Normalisation.

(** X1.  One trailing slash and a missing leading slash of the request
    path make no difference to the lookup of the rule file and to the
    error-scenario stage: [p/] behaves like [p] when [p] does not itself
    end in a slash, and [/p] like [p] when [p] does not start with one. *)
Theorem lookup_ignores_outer_slashes this p method body query headers :
  (Str.endsWith p "/" = false ->
   findMock this (p +:+ "/") method = findMock this p method
   /\ checkForSpecificError this (p +:+ "/") method body query headers
      = checkForSpecificError this p method body query headers)
  /\ (Str.startsWith p "/" = false ->
      findMock this ("/" +:+ p) method = findMock this p method
      /\ checkForSpecificError this ("/" +:+ p) method body query headers
         = checkForSpecificError this p method body query headers).
Proof.
  split; intros Hp.
  - split; [apply findMock_normalize|apply checkForSpecificError_normalize];
      by apply normalize_trailing.
  - split; [apply findMock_normalize|apply checkForSpecificError_normalize];
      by apply normalize_leading.
Qed.

(** An instance of X1: [/users/5/] and [users/5] find the rule file of
    [/users/5]. *)
Lemma lookup_ignores_outer_slashes_witness :
  findMock (engineOn literalAndParamMocks) "/users/5/" "GET"
  = findMock (engineOn literalAndParamMocks) "/users/5" "GET"
  /\ findMock (engineOn literalAndParamMocks) ("/" +:+ "users/5") "GET"
     = findMock (engineOn literalAndParamMocks) "users/5" "GET".
Proof.
  split.
  - destruct (lookup_ignores_outer_slashes (engineOn literalAndParamMocks) "/users/5"
                "GET" None None None) as (H & _).
    by destruct (H eq_refl).
  - destruct (lookup_ignores_outer_slashes (engineOn literalAndParamMocks) "users/5"
                "GET" None None None) as (_ & H).
    by destruct (H eq_refl).
Defined.

(** A second trailing slash is not ignored: the legacy file of [/users] is
    found for [/users/] and not for [/users//]. *)
Example second_trailing_slash_example :
  let this := engineOn (Fs.Dir [("users.json", Fs.File (Some (JArr [])))]) in
  findMock this "/users/" "GET" = Return (Some ["srv"; "mocks"; "users.json"])
  /\ findMock this "/users//" "GET" = Return None.
Proof. split; reflexivity. Qed.

(** ** Templates without parameters *)

Lemma bindAll_literal ds rs :
  Forall (fun d => isParam d = false) ds -> bindAll ds rs ∅ = ∅.
Proof.
  intros Hlit. apply map_eq. intros k. apply bindAll_untouched.
  intros j d Hd Hp. rewrite Forall_forall in Hlit.
  assert (isParam d = false) by (apply Hlit; by eapply list_elem_of_lookup_2).
  congruence.
Qed.

(** X2.  A template none of whose segments is a parameter matches exactly
    the request paths that have the same segments, and binds nothing. *)
Theorem parsePathParams_literal requestPath mockDirPath :
  Forall (fun d => isParam d = false) (segments mockDirPath) ->
  (segments requestPath = segments mockDirPath ->
   parsePathParams requestPath mockDirPath = Some ∅)
  /\ (segments requestPath <> segments mockDirPath ->
      parsePathParams requestPath mockDirPath = None).
Proof.
  intros Hlit. unfold parsePathParams. split.
  - intros Heq. rewrite Heq, Nat.eqb_refl. simpl.
    rewrite matchParts_total, bindAll_literal; [done..|].
    intros i d r Hd Hr _. congruence.
  - intros Hne.
    destruct (Nat.eqb_spec (length (segments mockDirPath))
                (length (segments requestPath))) as [Hlen|]; [|done].
    simpl. destruct (matchParts _ _ _) as [params|] eqn:Hm; [|done].
    apply matchParts_Some in Hm as [_ Hsame]. exfalso. apply Hne.
    apply list_eq_same_length with (length (segments requestPath)); [done..|].
    intros i r d _ Hr Hd. symmetry. apply (Hsame i d r Hd Hr).
    rewrite Forall_forall in Hlit. apply Hlit.
    by eapply list_elem_of_lookup_2.
Qed.

(** An instance of X2: [/users/list] matches the template [/users/list]
    and nothing is bound. *)
Lemma parsePathParams_literal_witness :
  parsePathParams "/users/list/" "/users/list" = Some ∅.
Proof.
  apply parsePathParams_literal; [|reflexivity].
  repeat constructor.
Defined.

(** ** Conditions and named scenarios *)

Section ConditionAlgebra.
Implicit Types (o : gmap string json) (body query headers : reqmap).

Lemma partHolds_mono declared a b :
  reqSubset a b -> partHolds declared a -> partHolds declared b.
Proof.
  intros Hsub Ha d o Hd Ht Hb key v Hin.
  destruct a as [oa|], b as [ob|]; try done. inversion Hb; subst ob.
  destruct (Ha d oa Hd Ht eq_refl key v Hin) as (x & Hx & Heq).
  exists x. split; [|done]. by eapply lookup_weaken.
Qed.

Lemma conditionHolds_mono condition body query headers body' query' headers' :
  reqSubset body body' -> reqSubset query query' -> reqSubset headers headers' ->
  conditionHolds condition body query headers ->
  conditionHolds condition body' query' headers'.
Proof.
  intros Hb Hq Hh (H1 & H2 & H3). repeat split; by eapply partHolds_mono.
Qed.

Lemma strictEq_structured x v : structured v = true -> strictEq x v = false.
Proof. by destruct x, v. Qed.
End ConditionAlgebra.

(** X3.  Firing on declared conditions is monotone in the request: when
    a scenario's conditions fire for a request, they also fire for every
    request whose body, query and headers contain those of the first
    (a missing map staying missing).  Extra request fields never stop a
    scenario from firing. *)
Theorem evaluateConditions_monotone l body query headers body' query' headers' :
  Forall (fun c => c <> JNull) l ->
  reqSubset body body' -> reqSubset query query' -> reqSubset headers headers' ->
  evaluateConditions (JArr l) body query headers = Return true ->
  evaluateConditions (JArr l) body' query' headers' = Return true.
Proof.
  intros Hl Hb Hq Hh. simpl.
  destruct (anyCondition_holds l body query headers Hl) as (fires & -> & Hiff).
  destruct (anyCondition_holds l body' query' headers' Hl) as (fires' & -> & Hiff').
  intros [= ->]. f_equal. apply Hiff'.
  destruct Hiff as [Hiff _]. destruct (Hiff eq_refl) as (c & Hin & Hc).
  exists c. split; [done|]. by eapply conditionHolds_mono.
Qed.

(** An instance of X3: the email condition fires on a body with the
    email, and still fires when the body has a further field. *)
Lemma evaluateConditions_monotone_witness :
  evaluateConditions (JArr [emailCondition])
    (Some (list_to_map [("email", JStr "a@b.com"); ("name", JStr "Ada")]))
    (Some ∅) (Some ∅) = Return true.
Proof.
  apply (evaluateConditions_monotone [emailCondition]
           (Some {[ "email" := JStr "a@b.com" ]}) (Some ∅) (Some ∅)).
  - repeat constructor. discriminate.
  - simpl. apply map_subseteq_spec. intros k v Hk.
    apply lookup_singleton_Some in Hk as [<- <-]. reflexivity.
  - done.
  - done.
  - reflexivity.
Defined.

(** X4.  The order of the conditions of a scenario is irrelevant, and a
    scenario with the conditions of two lists fires exactly when one of
    the two lists fires. *)
Theorem evaluateConditions_order l l' body query headers :
  Forall (fun c => c <> JNull) l -> Forall (fun c => c <> JNull) l' ->
  (l ≡ₚ l' ->
   evaluateConditions (JArr l) body query headers
   = evaluateConditions (JArr l') body query headers)
  /\ (evaluateConditions (JArr (l ++ l')) body query headers = Return true
      <-> evaluateConditions (JArr l) body query headers = Return true
          \/ evaluateConditions (JArr l') body query headers = Return true).
Proof.
  intros Hl Hl'. simpl.
  destruct (anyCondition_holds l body query headers Hl) as (f & -> & Hf).
  destruct (anyCondition_holds l' body query headers Hl') as (f' & -> & Hf').
  split.
  - intros Hperm. f_equal. apply eq_true_iff_eq. rewrite Hf, Hf'.
    by setoid_rewrite Hperm.
  - destruct (anyCondition_holds (l ++ l') body query headers) as (g & -> & Hg);
      [by apply Forall_app|].
    assert (forall b b' : bool, @Return bool b = Return b' <-> b = b') as Hinj
      by (intros; split; congruence).
    rewrite !Hinj, Hg, Hf, Hf'. split.
    + intros (c & [Hin|Hin]%elem_of_app & Hc); [left|right]; by exists c.
    + intros [(c & Hin & Hc)|(c & Hin & Hc)]; exists c;
        (split; [apply elem_of_app; auto|done]).
Qed.

(** An instance of X4: swapping two conditions leaves the outcome
    unchanged. *)
Lemma evaluateConditions_order_witness :
  evaluateConditions (JArr [emailCondition; JObj ∅]) None None None
  = evaluateConditions (JArr [JObj ∅; emailCondition]) None None None.
Proof.
  destruct (evaluateConditions_order [emailCondition; JObj ∅] [JObj ∅; emailCondition]
              None None None) as (H & _).
  - repeat constructor; discriminate.
  - repeat constructor; discriminate.
  - apply H. apply Permutation_swap.
Defined.

(** X5.  A condition that constrains a body key to an array or an object
    can never be satisfied by a request that has a body, since such values
    are compared by identity: a scenario all of whose conditions do so does
    not fire on any request with a body. *)
Theorem structured_checks_never_match l o query headers :
  Forall constrainsStructured l ->
  evaluateConditions (JArr l) (Some o) query headers = Return false.
Proof.
  intros Hl. simpl.
  destruct (anyCondition_holds l (Some o) query headers) as (fires & -> & Hiff).
  { eapply Forall_impl; [exact Hl|]. intros c (d & k & v & Hc & _) ->. discriminate. }
  f_equal. destruct fires; [|done]. exfalso.
  destruct Hiff as [Hiff _]. destruct (Hiff eq_refl) as (c & Hin & Hbody & _).
  rewrite Forall_forall in Hl. destruct (Hl c Hin) as (d & k & v & Hc & Hk & Hv).
  destruct (Hbody (JObj d) o Hc eq_refl eq_refl k v) as (x & _ & Heq).
  - simpl. by apply elem_of_map_to_list.
  - by rewrite strictEq_structured in Heq.
Qed.

(** An instance of X5: the condition [{body: {tags: ["a"]}}] does not fire
    on the body [{tags: ["a"]}]. *)
Lemma structured_checks_never_match_witness :
  evaluateConditions (JArr [obj [("body", obj [("tags", JArr [JStr "a"])])]])
    (Some {[ "tags" := JArr [JStr "a"] ]}) (Some ∅) (Some ∅) = Return false.
Proof.
  apply structured_checks_never_match. repeat constructor.
  exists {[ "tags" := JArr [JStr "a"] ]}, "tags", (JArr [JStr "a"]).
  repeat split.
Defined.

(** X6.  An error file without declared conditions whose scenario name is
    none of the four built-in names never fires, whatever the request is. *)
Theorem errorApplies_unknown_scenario this errorData scenario body query headers :
  errorData <> JNull ->
  truthyOpt (prop errorData "_conditions") = false ->
  ~ In scenario commonScenarios ->
  errorApplies this errorData scenario body query headers = Return false.
Proof.
  intros Hnull Hcond Hname. unfold errorApplies.
  assert (propOf errorData "_conditions" = Return (prop errorData "_conditions"))
    as -> by (by destruct errorData).
  simpl. rewrite Hcond. unfold commonScenario.
  repeat match goal with
         | |- context [String.eqb scenario ?k] =>
             destruct (String.eqb_spec scenario k) as [->|_];
               [exfalso; apply Hname; simpl; tauto|]
         end.
  reflexivity.
Qed.

(** An instance of X6: the file [GET_maintenance.json] without conditions
    does not fire on a request of a guest without authorization. *)
Lemma errorApplies_unknown_scenario_witness :
  errorApplies (engineOn (Fs.Dir [])) (obj [("error", JStr "Down")])
    (scenarioOf "GET" "GET_maintenance.json")
    None (Some ∅) (Some {[ "role" := JStr "guest" ]}) = Return false.
Proof.
  apply errorApplies_unknown_scenario.
  - discriminate.
  - reflexivity.
  - vm_compute. intros H. repeat destruct H as [H|H]; try discriminate; done.
Defined.

(** ** Random errors *)

(** X7.  With an error rate that is not positive no error is injected:
    the resolution does not depend on the draws. *)
Theorem no_injection_without_rate this requestPath method requestBody query headers
    forceError draw1 draw2 draw1' draw2' :
  (errorRate this <= 0)%Q ->
  getMockResponse this requestPath method requestBody query headers forceError
    draw1 draw2
  = getMockResponse this requestPath method requestBody query headers forceError
      draw1' draw2'.
Proof.
  intros Hrate. unfold getMockResponse, injects.
  apply Qle_bool_iff in Hrate. by rewrite Hrate.
Qed.

(** An instance of X7: with rate zero the draws [0, 0] and [1/2, 3/5] give
    the same resolution. *)
Lemma no_injection_without_rate_witness :
  getMockResponse (engineOn payloadMocks) "/items" "GET" None None None None 0 0
  = getMockResponse (engineOn payloadMocks) "/items" "GET" None None None None
      (1 # 2) (3 # 5).
Proof. apply no_injection_without_rate. vm_compute. discriminate. Defined.

(** X8.  With an error rate of at least one, every resolution without a
    forced error and without a firing scenario is an injected error whose
    status code is one of 400, 401, 403, 404 and 500, whatever rule files
    exist. *)
Theorem always_injected_at_full_rate this requestPath method requestBody query
    headers forceError draw1 draw2 :
  (1 <= errorRate this)%Q ->
  (draw1 < 1)%Q -> (0 <= draw2)%Q -> (draw2 < 1)%Q ->
  isSet forceError = false ->
  checkForSpecificError this requestPath method requestBody query headers
  = Return None ->
  exists c,
    In c [400; 401; 403; 404; 500]
    /\ getMockResponse this requestPath method requestBody query headers forceError
         draw1 draw2
       = Return (getErrorResponse this (CodeNum c) requestPath method)
    /\ statusCode (getErrorResponse this (CodeNum c) requestPath method)
       = Json (JNum c).
Proof.
  intros Hrate Hd1 Hlo Hhi Hset Hscenario.
  destruct (randomErrorCode_total draw2 Hlo Hhi) as (c & Hc).
  exists c. split; [|split].
  - unfold randomErrorCode in Hc. destruct (_ <? 0); [discriminate|].
    apply list_elem_of_lookup_2, list_elem_of_In in Hc. exact Hc.
  - unfold getMockResponse. rewrite Hset, Hscenario. simpl.
    assert (injects this draw1 = true) as ->.
    { apply injects_iff. split.
      - eapply Qlt_le_trans; [|exact Hrate]. reflexivity.
      - eapply Qlt_le_trans; [exact Hd1|exact Hrate]. }
    by rewrite Hc.
  - apply getErrorResponse_status.
Qed.

(** An instance of X8: at rate one the request for an existing rule is
    answered with an injected 403. *)
Lemma always_injected_at_full_rate_witness :
  exists c,
    In c [400; 401; 403; 404; 500]
    /\ getMockResponse
         {| disk := disk (engineOn payloadMocks); mockDirectory := ["srv"; "mocks"];
            errorRate := 1; interpolate := fun template _ _ => Return template;
            looseLess := fun _ _ => false |}
         "/items" "GET" None None None None (9 # 10) (1 # 2)
       = Return (getErrorResponse
                   {| disk := disk (engineOn payloadMocks);
                      mockDirectory := ["srv"; "mocks"];
                      errorRate := 1; interpolate := fun template _ _ => Return template;
                      looseLess := fun _ _ => false |}
                   (CodeNum c) "/items" "GET").
Proof.
  destruct (always_injected_at_full_rate
              {| disk := disk (engineOn payloadMocks); mockDirectory := ["srv"; "mocks"];
                 errorRate := 1; interpolate := fun template _ _ => Return template;
                 looseLess := fun _ _ => false |}
              "/items" "GET" None None None None (9 # 10) (1 # 2))
    as (c & Hin & Hrun & _); try reflexivity; try (vm_compute; discriminate).
  exists c. split; [exact Hin|exact Hrun].
Defined.

(** ** Payloads that are not objects *)

(** X9.  A rule file whose document is [null] resolves to the synthesised
    500 error, and a rule file whose document is a boolean, a number, a
    string or an array is served unchanged with status 200 and no headers,
    whatever the method and the request body are. *)
Theorem non_object_payloads this requestPath method requestBody query headers
    forceError draw1 draw2 mockPath payload :
  reachesRule this requestPath method requestBody query headers forceError draw1
    mockPath ->
  Fs.readJSON (disk this) mockPath = Return payload ->
  (payload = JNull ->
   getMockResponse this requestPath method requestBody query headers forceError
     draw1 draw2
   = Return (getErrorResponse this (CodeNum 500) requestPath method))
  /\ (payload <> JNull -> (forall m, payload <> JObj m) ->
      getMockResponse this requestPath method requestBody query headers forceError
        draw1 draw2
      = Return {| body := payload; statusCode := Json (JNum 200);
                  headers := JObj ∅ |}).
Proof.
  intros Hreach Hread.
  rewrite (getMockResponse_rule this _ _ _ _ _ _ _ draw2 _ Hreach).
  unfold fromRule. rewrite Hread. split.
  - by intros ->.
  - intros Hnull Hobj.
    destruct payload as [| | | | |m]; [done| | | | |by destruct (Hobj m)];
      simpl; unfold applyBody, flagged; simpl;
      by destruct requestBody, (bodyBearing method).
Qed.

(** An instance of X9: the legacy file [users.json] holds an array, which
    is the body of the response to [POST /users]. *)
Lemma non_object_payloads_witness :
  getMockResponse (engineOn legacyMocks) "/users" "POST" (Some {[ "a" := JNum 1 ]})
    None None None 0 0
  = Return {| body := JArr [JStr "Ada"]; statusCode := Json (JNum 200);
              headers := JObj ∅ |}.
Proof.
  destruct (non_object_payloads (engineOn legacyMocks) "/users" "POST"
              (Some {[ "a" := JNum 1 ]}) None None None 0 0
              ["srv"; "mocks"; "users.json"] (JArr [JStr "Ada"])) as (_ & H).
  - repeat split; reflexivity.
  - reflexivity.
  - apply H; discriminate.
Defined.

(** A rule file that holds [null] is answered with the 500 error. *)
Example null_payload_example :
  getMockResponse (engineOn legacyMocks) "/empty" "GET" None None None None 0 0
  = Return {| body := defaultError500; statusCode := Json (JNum 500);
              headers := JObj ∅ |}.
Proof. reflexivity. Qed.

(** ** Error templates *)

Section Templates.
Variable this : ApiMocker.t.

Lemma readJSON_exists p j :
  Fs.readJSON (disk this) p = Return j -> Fs.existsSync (disk this) p = true.
Proof.
  unfold Fs.readJSON, Fs.existsSync. by destruct (Fs.lookup p (disk this)).
Qed.
End Templates.

(** X10.  What [getErrorResponse] does with the template file of a status
    code: when the file is read and interpolated and is not [null], the
    interpolated document is the body and the template's [_headers], if
    truthy, are the headers; when the file is missing, unreadable, not
    valid JSON, [null], or its interpolation fails, the built-in default is
    returned.  The status code is the resolved one in every case. *)
Theorem getErrorResponse_template this errorCode requestPath method :
  let status := resolveStatus errorCode in
  let template := Fs.readJSON (disk this) (errorFilePath this status) in
  let response := getErrorResponse this errorCode requestPath method in
  statusCode response = status
  /\ (forall t b, template = Return t -> t <> JNull ->
        interpolate this t requestPath method = Return b ->
        response = {| body := b; statusCode := status;
                      headers := orElse (prop t "_headers") (JObj ∅) |})
  /\ ((Fs.existsSync (disk this) (errorFilePath this status) = false
       \/ (exists e, template = Throw e)
       \/ template = Return JNull
       \/ (exists t e, template = Return t
                       /\ interpolate this t requestPath method = Throw e)) ->
      response = defaultResponse requestPath method status).
Proof.
  intros status template response. split; [apply getErrorResponse_status|].
  unfold response, getErrorResponse, fromTemplate. fold status. fold template.
  split.
  - intros t b Ht Hnull Hb. rewrite (readJSON_exists this _ t Ht), Ht. simpl.
    rewrite Hb. simpl. by destruct t.
  - intros [Hmissing|[(e & He)|[Hn|(t & e & Ht & He)]]].
    + by rewrite Hmissing.
    + rewrite He. simpl. by destruct (Fs.existsSync _ _).
    + rewrite Hn. simpl.
      destruct (Fs.existsSync _ _); [|done].
      by destruct (interpolate this JNull requestPath method).
    + rewrite Ht. simpl. rewrite He. simpl. by destruct (Fs.existsSync _ _).
Qed.

(** An instance of X10: the template [_errors/404.json] supplies body and
    headers of a forced [notfound]. *)
Lemma getErrorResponse_template_witness :
  let this :=
    engineOn (Fs.Dir [("_errors", Fs.Dir [
                ("404.json",
                 Fs.File (Some (obj [("_headers", obj [("X-Mock", JStr "1")]);
                                     ("error", JStr "Gone")])))])]) in
  getErrorResponse this (CodeStr "notfound") "/users" "GET"
  = {| body := obj [("_headers", obj [("X-Mock", JStr "1")]); ("error", JStr "Gone")];
       statusCode := Json (JNum 404);
       headers := obj [("X-Mock", JStr "1")] |}.
Proof.
  intros this.
  destruct (getErrorResponse_template this (CodeStr "notfound") "/users" "GET")
    as (_ & H & _).
  apply (H (obj [("_headers", obj [("X-Mock", JStr "1")]); ("error", JStr "Gone")])).
  - reflexivity.
  - discriminate.
  - reflexivity.
Defined.

(** ** Named error codes *)

Section Names.
Variable this : ApiMocker.t.

Lemma lowerAscii_digit c : Str.isDigit c = true -> Str.lowerAscii c = c.
Proof. destruct c as [[] [] [] [] [] [] [] []]; (reflexivity || discriminate). Qed.

Lemma isDigit_lower c : Str.isDigit (Str.lowerAscii c) = Str.isDigit c.
Proof. by destruct c as [[] [] [] [] [] [] [] []]. Qed.

Lemma isSpace_lower c : Str.isSpace (Str.lowerAscii c) = Str.isSpace c.
Proof. by destruct c as [[] [] [] [] [] [] [] []]. Qed.

Lemma digits_lower s : forall acc,
  Str.digits acc (Str.toLowerCase s) = Str.digits acc s.
Proof.
  induction s as [|c s IH]; intros acc; [done|].
  cbn [Str.toLowerCase Str.digits]. rewrite isDigit_lower.
  destruct (Str.isDigit c) eqn:Hd; [|done].
  by rewrite (lowerAscii_digit c Hd), IH.
Qed.

Lemma skipSpaces_lower s :
  Str.skipSpaces (Str.toLowerCase s) = Str.toLowerCase (Str.skipSpaces s).
Proof.
  induction s as [|c s IH]; [done|].
  cbn [Str.toLowerCase Str.skipSpaces]. rewrite isSpace_lower.
  by destruct (Str.isSpace c).
Qed.

Lemma parseInt_unfold s :
  Str.parseInt s
  = match Str.skipSpaces s with
    | EmptyString => None
    | String c rest =>
        if Ascii.eqb c "-" then Z.opp <$> Str.digits None rest
        else if Ascii.eqb c "+" then Str.digits None rest
        else Str.digits None (String c rest)
    end.
Proof.
  unfold Str.parseInt. destruct (Str.skipSpaces s) as [|c rest]; [done|].
  by destruct c as [[] [] [] [] [] [] [] []].
Qed.

Lemma sign_lower c (sign : ascii) :
  sign = "-"%char \/ sign = "+"%char ->
  Ascii.eqb (Str.lowerAscii c) sign = Ascii.eqb c sign.
Proof. intros [-> | ->]; by destruct c as [[] [] [] [] [] [] [] []]. Qed.

Lemma parseInt_lower s : Str.parseInt (Str.toLowerCase s) = Str.parseInt s.
Proof.
  rewrite !parseInt_unfold, skipSpaces_lower.
  destruct (Str.skipSpaces s) as [|c rest]; [done|].
  cbn [Str.toLowerCase]. rewrite !sign_lower by auto.
  rewrite digits_lower.
  change (String (Str.lowerAscii c) (Str.toLowerCase rest))
    with (Str.toLowerCase (String c rest)).
  by rewrite digits_lower.
Qed.

Lemma toLowerCase_idem s : Str.toLowerCase (Str.toLowerCase s) = Str.toLowerCase s.
Proof.
  induction s as [|c s IH]; [done|]. cbn [Str.toLowerCase]. rewrite IH. f_equal.
  by destruct c as [[] [] [] [] [] [] [] []].
Qed.

Lemma resolveStatus_lower s :
  resolveStatus (CodeStr (Str.toLowerCase s)) = resolveStatus (CodeStr s).
Proof. unfold resolveStatus. by rewrite parseInt_lower, toLowerCase_idem. Qed.
End Names.

(** X11.  Error names are matched without regard to letter case: two
    names with the same lower-case form give the same error response, and
    a name whose lower-case form is one of the six names of the map gives
    the status code of that name. *)
Theorem getErrorResponse_case_insensitive this s s' requestPath method :
  Str.toLowerCase s = Str.toLowerCase s' ->
  getErrorResponse this (CodeStr s) requestPath method
  = getErrorResponse this (CodeStr s') requestPath method
  /\ (forall name status, In (name, status) namedCodes ->
        Str.toLowerCase s = name ->
        statusCode (getErrorResponse this (CodeStr s) requestPath method)
        = Json (JNum status)).
Proof.
  intros Hlower. split.
  - unfold getErrorResponse, fromTemplate.
    by rewrite <- (resolveStatus_lower s), <- (resolveStatus_lower s'), Hlower.
  - intros name status Hin Hname.
    rewrite getErrorResponse_status, <- resolveStatus_lower, Hname.
    simpl in Hin.
    repeat destruct Hin as [Hin|Hin]; try (inversion Hin; subst; reflexivity).
Qed.

(** An instance of X11: [NotFound] and [NOTFOUND] are the 404 error. *)
Lemma getErrorResponse_case_insensitive_witness :
  getErrorResponse (engineOn (Fs.Dir [])) (CodeStr "NotFound") "/users" "GET"
  = getErrorResponse (engineOn (Fs.Dir [])) (CodeStr "NOTFOUND") "/users" "GET"
  /\ statusCode (getErrorResponse (engineOn (Fs.Dir [])) (CodeStr "NotFound")
                   "/users" "GET") = Json (JNum 404).
Proof.
  destruct (getErrorResponse_case_insensitive (engineOn (Fs.Dir [])) "NotFound"
              "NOTFOUND" "/users" "GET" eq_refl) as (Hsame & Hcode).
  split; [exact Hsame|].
  apply (Hcode "notfound"); [|reflexivity].
  simpl. tauto.
Defined.

(** ** The error-scenario stage *)

(** X12.  The error-scenario stage returns nothing, without reading any
    error file, when the directory at the end of the chain has no [errors]
    entry or when no entry of that [errors] directory is named
    [<METHOD>_....json]: the error files of other methods are never read. *)
Theorem no_error_file_for_method this requestPath method body query headers errorDir :
  descend this (segments (normalize requestPath)) (mockDirectory this)
  = Return errorDir ->
  (Fs.existsSync (disk this) (Path.join errorDir "errors") = false
   \/ exists names,
        Fs.readdirSync (disk this) (Path.join errorDir "errors") = Return names
        /\ Forall (fun f => isErrorFileFor method f = false) names) ->
  checkForSpecificError this requestPath method body query headers = Return None.
Proof.
  intros Hdescend Hfiles. unfold checkForSpecificError.
  replace (Path.join (mockDirectory this) "") with (mockDirectory this) by reflexivity.
  rewrite Hdescend. simpl.
  destruct Hfiles as [-> | (names & Hnames & Hnone)]; [done|].
  destruct (Fs.existsSync _ _); [|done]. simpl. rewrite Hnames. simpl.
  replace (List.filter (isErrorFileFor method) names) with (@nil string); [done|].
  symmetry. clear Hnames. induction Hnone as [|f names Hf _ IH]; [done|].
  cbn [List.filter]. by rewrite Hf.
Qed.

(** An instance of X12: the error file of [GET /users] that is not valid
    JSON is not read for [POST /users]. *)
Lemma no_error_file_for_method_witness :
  checkForSpecificError (engineOn brokenScenarioMocks) "/users" "POST" None None None
  = Return None.
Proof.
  apply (no_error_file_for_method _ _ _ _ _ _ ["srv"; "mocks"; "users"]).
  - reflexivity.
  - right. exists ["GET_unavailable.json"]. split; [reflexivity|].
    repeat constructor.
Defined.

Section Descent.
Variable this : ApiMocker.t.

Lemma lookup_app p q n :
  Fs.lookup (p ++ q) n
  = match Fs.lookup p n with
    | Some m => Fs.lookup q m
    | None => None
    end.
Proof.
  revert n. induction p as [|seg p IH]; intros n; [done|].
  simpl. destruct n as [|es]; [done|].
  destruct (Fs.assoc seg es); [apply IH|done].
Qed.

Lemma join_plain base name :
  plainName name = true -> Path.join base name = base ++ [name].
Proof.
  intros Hp. destruct (plainName_inv name Hp) as (_ & Hslash & _).
  unfold Path.join. rewrite split_noChar by done. simpl. by apply step_plain.
Qed.

Lemma descend_file part rest errorDir content :
  Fs.lookup errorDir (disk this) = Some (Fs.File content) ->
  descend this (part :: rest) errorDir = Throw ENOTDIR.
Proof.
  intros Hfile. simpl. unfold Fs.existsSync, Fs.readdirSync, Fs.readdirTypes.
  by rewrite Hfile.
Qed.

Lemma descend_literal part rest errorDir files :
  Fs.lookup errorDir (disk this) = Some (Fs.Dir files) ->
  List.find isParam (map fst files) = None ->
  descend this (part :: rest) errorDir = descend this rest (Path.join errorDir part).
Proof.
  intros Hdir Hfind. cbn [descend].
  unfold Fs.existsSync, Fs.readdirSync, Fs.readdirTypes. rewrite Hdir. cbn [bind].
  change (fst <$> files) with (map fst files).
  change (List.find _ (map fst files)) with (List.find isParam (map fst files)).
  by rewrite Hfind.
Qed.

Lemma descend_dynamic part rest errorDir files dynamicFolder :
  Fs.lookup errorDir (disk this) = Some (Fs.Dir files) ->
  List.find isParam (map fst files) = Some dynamicFolder ->
  descend this (part :: rest) errorDir
  = descend this rest (Path.join errorDir dynamicFolder).
Proof.
  intros Hdir Hfind. cbn [descend].
  unfold Fs.existsSync, Fs.readdirSync, Fs.readdirTypes. rewrite Hdir. cbn [bind].
  change (fst <$> files) with (map fst files).
  change (List.find _ (map fst files)) with (List.find isParam (map fst files)).
  by rewrite Hfind.
Qed.
End Descent.

(** X13.  A request path that continues below a file of the rule
    directory makes the resolution throw: when the first segment of the
    path names a file of the rule directory (and no entry of that directory
    is bracketed), the error-scenario stage tries to list that file as a
    directory and [getMockResponse] throws [ENOTDIR] to its caller. *)
Theorem request_below_file_throws this files name next rest content method
    requestBody query headers forceError draw1 draw2 :
  Fs.lookup (mockDirectory this) (disk this) = Some (Fs.Dir files) ->
  List.find isParam (map fst files) = None ->
  Fs.assoc name files = Some (Fs.File content) ->
  Forall (fun s => plainName s = true) (name :: next :: rest) ->
  isSet forceError = false ->
  getMockResponse this (pathOf (name :: next :: rest)) method requestBody query
    headers forceError draw1 draw2 = Throw ENOTDIR.
Proof.
  intros Hroot Hfind Hname Hplain Hset.
  unfold getMockResponse, checkForSpecificError. rewrite Hset.
  rewrite normalize_pathOf, segments_pathOf by done.
  replace (Path.join (mockDirectory this) "") with (mockDirectory this) by reflexivity.
  rewrite (descend_literal this name _ _ files Hroot Hfind).
  rewrite join_plain by (by inversion Hplain).
  rewrite (descend_file this next rest _ content); [done|].
  rewrite lookup_app, Hroot. simpl. by rewrite Hname.
Qed.

(** An instance of X13: with the legacy file [users.json] in the rule
    directory, the request [GET /users.json/5] throws. *)
Lemma request_below_file_throws_witness :
  getMockResponse (engineOn legacyMocks) "/users.json/5" "GET" None None None None 0 0
  = Throw ENOTDIR.
Proof.
  apply (request_below_file_throws (engineOn legacyMocks)
           [("users.json", Fs.File (Some (JArr [JStr "Ada"])));
            ("empty.json", Fs.File (Some JNull))]
           "users.json" "5" [] (Some (JArr [JStr "Ada"]))); try reflexivity.
  repeat constructor.
Defined.

(** X14.  When the rule directory lists a bracketed entry, the
    error-scenario stage follows that entry whatever the first segment of
    the request path is: two request paths that differ in their first
    segment only get the same result, so the error scenarios of a literal
    directory next to a bracketed one are never consulted. *)
Theorem bracketed_entry_shadows_literal this files dynamicFolder a b rest method
    body query headers :
  Fs.lookup (mockDirectory this) (disk this) = Some (Fs.Dir files) ->
  List.find isParam (map fst files) = Some dynamicFolder ->
  Forall (fun s => plainName s = true) (a :: rest) ->
  Forall (fun s => plainName s = true) (b :: rest) ->
  checkForSpecificError this (pathOf (a :: rest)) method body query headers
  = checkForSpecificError this (pathOf (b :: rest)) method body query headers.
Proof.
  intros Hroot Hfind Ha Hb. unfold checkForSpecificError.
  rewrite !normalize_pathOf, !segments_pathOf by done.
  replace (Path.join (mockDirectory this) "") with (mockDirectory this) by reflexivity.
  by rewrite (descend_dynamic this a _ _ files dynamicFolder Hroot Hfind),
    (descend_dynamic this b _ _ files dynamicFolder Hroot Hfind).
Qed.

(** An instance of X14: next to the directory [[tenant]], the scenario in
    [users/errors] that would always fire is not consulted for
    [GET /users]. *)
Lemma bracketed_entry_shadows_literal_witness :
  checkForSpecificError (engineOn shadowMocks) "/users" "GET" None None None
  = checkForSpecificError (engineOn shadowMocks) "/orders" "GET" None None None
  /\ checkForSpecificError (engineOn shadowMocks) "/users" "GET" None None None
     = Return None.
Proof.
  split; [|reflexivity].
  apply (bracketed_entry_shadows_literal (engineOn shadowMocks)
           [("users", Fs.Dir [
               ("GET.json", Fs.File (Some (obj [("users", JArr [])])));
               ("errors", Fs.Dir [
                  ("GET_always.json",
                   Fs.File (Some (obj [("_conditions", JArr [JObj ∅])])))])]);
            ("[tenant]", Fs.Dir [("GET.json", Fs.File (Some (obj [("tenant", JNum 1)])))])]
           "[tenant]" "users" "orders" []); try reflexivity; repeat constructor.
Defined.

(** ** The enumeration of the rule files *)

Section Enumeration.

Lemma node_induction (P : Fs.node -> Prop) :
  (forall content, P (Fs.File content)) ->
  (forall files, Forall (fun file => P (snd file)) files -> P (Fs.Dir files)) ->
  forall n, P n.
Proof.
  intros Hfile Hdir.
  fix IH 1. intros [content|files]; [apply Hfile|].
  apply Hdir. induction files as [|file files IHfiles]; constructor; [apply IH|done].
Qed.

Lemma assoc_elem name files n :
  Fs.assoc name files = Some n -> (name, n) ∈ files.
Proof.
  induction files as [|[k m] files IH]; simpl; [discriminate|].
  destruct (String.eqb_spec k name) as [->|_].
  - intros [= ->]. left.
  - intros H. right. by apply IH.
Qed.

Lemma distinct_assoc name n files :
  distinct (map fst files) = true -> (name, n) ∈ files ->
  Fs.assoc name files = Some n.
Proof.
  induction files as [|[k m] files IH]; simpl; intros Hd Hin.
  - by apply elem_of_nil in Hin.
  - apply andb_true_iff in Hd as [Hfresh Hd]. apply negb_true_iff in Hfresh.
    apply elem_of_cons in Hin as [[= <- <-]|Hin]; [by rewrite String.eqb_refl|].
    destruct (String.eqb_spec k name) as [->|_]; [|by apply IH].
    exfalso. apply not_true_iff_false in Hfresh. apply Hfresh.
    apply existsb_exists. exists name. split; [|apply String.eqb_refl].
    apply in_map_iff. exists (name, n). split; [done|by apply list_elem_of_In].
Qed.

Lemma wellFormed_child name n files :
  wellFormed (Fs.Dir files) = true -> (name, n) ∈ files ->
  plainName name = true /\ wellFormed n = true.
Proof.
  simpl. intros [_ Hall]%andb_true_iff Hin.
  rewrite forallb_forall in Hall.
  apply list_elem_of_In, Hall, andb_true_iff in Hin. exact Hin.
Qed.

Lemma lookup_below_file content rel :
  rel <> [] -> Fs.lookup rel (Fs.File content) = None.
Proof. by destruct rel. Qed.

Lemma ruleFileAt_cons files name rel' :
  ruleFileAt (Fs.Dir files) (name :: rel')
  <-> exists child, Fs.assoc name files = Some child /\ below name child rel'.
Proof.
  unfold ruleFileAt, below. destruct rel' as [|next rel'].
  - simpl. split.
    + intros (_ & (content & Hc) & Hend & _).
      destruct (Fs.assoc name files) as [child|]; [|done].
      exists child. split; [done|]. left. inversion Hc; subst. eauto.
    + intros (child & Ha & [(_ & (content & ->) & Hend)|(Hne & _)]); [|done].
      rewrite Ha. repeat split; eauto.
  - change (List.last (name :: next :: rel') "") with (List.last (next :: rel') "").
    change (removelast (name :: next :: rel'))
      with (name :: removelast (next :: rel')).
    change (Fs.lookup (name :: next :: rel') (Fs.Dir files))
      with (match Fs.assoc name files with
            | Some child => Fs.lookup (next :: rel') child
            | None => None
            end).
    split.
    + intros (_ & (content & Hc) & Hend & Herr).
      destruct (Fs.assoc name files) as [child|]; [|done].
      exists child. split; [done|]. right. inversion Herr; subst.
      repeat split; eauto.
    + intros (child & Ha & [(Hnil & _)|(_ & Hname & _ & Hc & Hend & Herr)]); [done|].
      rewrite Ha. repeat split; eauto.
Qed.

Lemma walkDir_unfold cur files :
  walkDir cur (Fs.Dir files)
  = flat_map (fun file : string * Fs.node =>
      match snd file with
      | Fs.Dir _ =>
          if negb (String.eqb (fst file) "_errors")
             && negb (String.eqb (fst file) "errors")
          then walkDir (Path.join cur (fst file)) (snd file)
          else []
      | Fs.File _ =>
          if Str.endsWith (fst file) ".json" then [Path.join cur (fst file)] else []
      end) files.
Proof. reflexivity. Qed.

Lemma errorsName_negb name :
  negb (String.eqb name "_errors") && negb (String.eqb name "errors")
  = negb (errorsName name).
Proof. unfold errorsName. by rewrite negb_orb. Qed.

Lemma walkDir_spec dir :
  wellFormed dir = true ->
  forall cur p, p ∈ walkDir cur dir <-> exists rel, p = cur ++ rel /\ ruleFileAt dir rel.
Proof.
  induction dir as [content|files IH] using node_induction; intros Hwf cur p.
  - simpl. split; [by intros ?%elem_of_nil|].
    intros (rel & _ & Hne & (c & Hc) & _). by rewrite lookup_below_file in Hc.
  - rewrite walkDir_unfold, list_elem_of_In, in_flat_map. split.
    + intros ([name child] & Hin%list_elem_of_In & Hp%list_elem_of_In).
      destruct (wellFormed_child name child files Hwf Hin) as (Hplain & Hchild).
      assert (Fs.assoc name files = Some child) as Hassoc.
      { apply distinct_assoc; [|done]. simpl in Hwf. by apply andb_true_iff in Hwf as [? _]. }
      cbn [fst snd] in Hp. rewrite join_plain in Hp by done.
      destruct child as [content|sub].
      * destruct (Str.endsWith name ".json") eqn:Hend; [|by apply elem_of_nil in Hp].
        apply list_elem_of_singleton in Hp as ->. exists [name]. split; [done|].
        apply ruleFileAt_cons. exists (Fs.File content). split; [done|]. left. eauto.
      * rewrite errorsName_negb in Hp.
        destruct (errorsName name) eqn:Herr; [by apply elem_of_nil in Hp|].
        rewrite Forall_forall in IH.
        apply (IH (name, Fs.Dir sub)) in Hp as (rel' & -> & Hrel'); [|done..].
        exists (name :: rel'). split; [by rewrite <- app_assoc|].
        apply ruleFileAt_cons. exists (Fs.Dir sub). split; [done|]. right.
        split; [by destruct Hrel'|done].
    + intros (rel & -> & Hrel). destruct rel as [|name rel']; [by destruct Hrel|].
      apply ruleFileAt_cons in Hrel as (child & Hassoc & Hbelow).
      pose proof (assoc_elem _ _ _ Hassoc) as Hin.
      destruct (wellFormed_child name child files Hwf Hin) as (Hplain & Hchild).
      exists (name, child). split; [by apply list_elem_of_In|].
      apply list_elem_of_In. cbn [fst snd]. rewrite join_plain by done.
      destruct Hbelow as [(-> & (content & ->) & Hend)|(Hne & Herr & Hrel')].
      * rewrite Hend. left.
      * destruct child as [content|sub].
        { destruct Hrel' as (_ & (c & Hc) & _). by rewrite lookup_below_file in Hc. }
        rewrite errorsName_negb, Herr. simpl.
        rewrite Forall_forall in IH. apply (IH (name, Fs.Dir sub)); [done..|].
        exists rel'. split; [by rewrite <- app_assoc|done].
Qed.
End Enumeration.

(** X15.  On a well-formed rule tree [getAllMockPaths] enumerates exactly
    the files below the rule directory that are named [*.json] and do not
    lie below a directory called [errors] or [_errors]; it returns no path
    when the rule directory is missing and throws when it is a file. *)
Theorem getAllMockPaths_characterised this :
  (forall dir files,
     Fs.lookup (mockDirectory this) (disk this) = Some dir ->
     dir = Fs.Dir files -> wellFormed dir = true ->
     exists mockPaths,
       getAllMockPaths this = Return mockPaths
       /\ forall p, p ∈ mockPaths
                    <-> exists rel, p = mockDirectory this ++ rel /\ ruleFileAt dir rel)
  /\ (Fs.lookup (mockDirectory this) (disk this) = None ->
      getAllMockPaths this = Return [])
  /\ (forall content,
        Fs.lookup (mockDirectory this) (disk this) = Some (Fs.File content) ->
        getAllMockPaths this = Throw ENOTDIR).
Proof.
  unfold getAllMockPaths. split; [|split].
  - intros dir files Hdir -> Hwf. rewrite Hdir. eexists. split; [reflexivity|].
    intros p. by apply walkDir_spec.
  - by intros ->.
  - by intros content ->.
Qed.

(** An instance of X15: in the example rule set the file of
    [users/[id]/DELETE.json] is enumerated. *)
Lemma getAllMockPaths_characterised_witness :
  exists mockPaths,
    getAllMockPaths (engineOn shopMocks) = Return mockPaths
    /\ ["srv"; "mocks"; "users"; "[id]"; "DELETE.json"] ∈ mockPaths.
Proof.
  destruct (getAllMockPaths_characterised (engineOn shopMocks)) as (H & _).
  destruct (H shopMocks _ eq_refl eq_refl eq_refl) as (mockPaths & Hpaths & Hin).
  exists mockPaths. split; [exact Hpaths|].
  apply Hin. exists ["users"; "[id]"; "DELETE.json"]. split; [reflexivity|].
  repeat split; try reflexivity.
  - discriminate.
  - by eexists.
  - repeat constructor.
Defined.

(** The enumeration of the example rule set: neither the scenario file
    below [errors], nor the template below [_errors], nor [notes.txt]. *)
Example getAllMockPaths_example :
  getAllMockPaths (engineOn shopMocks)
  = Return [["srv"; "mocks"; "users"; "GET.json"];
            ["srv"; "mocks"; "users"; "index.json"];
            ["srv"; "mocks"; "users"; "[id]"; "GET.json"];
            ["srv"; "mocks"; "users"; "[id]"; "DELETE.json"]].
Proof. reflexivity. Qed.

(** X16.  On a well-formed rule tree every path that [findMock] returns
    exists on disk, so reading a matched rule never fails because the file
    is missing. *)
Theorem findMock_returns_existing this requestPath method p :
  (forall dir, Fs.lookup (mockDirectory this) (disk this) = Some dir ->
               wellFormed dir = true) ->
  findMock this requestPath method = Return (Some p) ->
  Fs.existsSync (disk this) p = true
  /\ Fs.readJSON (disk this) p <> Throw ENOENT.
Proof.
  intros Hwf Hfind.
  assert (Fs.existsSync (disk this) p = true) as Hex.
  { rewrite findMock_direct in Hfind. unfold directFile in Hfind.
    destruct (Fs.existsSync _ (methodFile _ _ _)) eqn:H1; [by inversion Hfind; subst|].
    destruct (Fs.existsSync _ (legacyFile _ _)) eqn:H2; [by inversion Hfind; subst|].
    destruct (Fs.existsSync _ (indexFile _ _)) eqn:H3; [by inversion Hfind; subst|].
    unfold findMockWithParams, getAllMockPaths in Hfind.
    destruct (Fs.lookup (mockDirectory this) (disk this)) as [dir|] eqn:Hdir;
      [|simpl in Hfind; by inversion Hfind].
    destruct dir as [content|files]; [discriminate|].
    cbn [bind] in Hfind. inversion Hfind as [Hfirst].
    apply firstMatch_Some in Hfirst as (Hin & _).
    apply (walkDir_spec (Fs.Dir files)) in Hin
      as (rel & -> & _ & (content & Hfile) & _); [|by apply Hwf].
    unfold Fs.existsSync. by rewrite lookup_app, Hdir, Hfile. }
  split; [done|]. unfold Fs.existsSync in Hex. unfold Fs.readJSON.
  destruct (Fs.lookup p (disk this)) as [[[j|]|]|]; done.
Qed.

(** An instance of X16: the file found for [DELETE /users/7] exists. *)
Lemma findMock_returns_existing_witness :
  Fs.existsSync (disk (engineOn shopMocks))
    ["srv"; "mocks"; "users"; "[id]"; "DELETE.json"] = true.
Proof.
  destruct (findMock_returns_existing (engineOn shopMocks) "/users/7" "DELETE"
              ["srv"; "mocks"; "users"; "[id]"; "DELETE.json"]) as (H & _).
  - intros dir Hdir. vm_compute in Hdir. inversion Hdir. reflexivity.
  - reflexivity.
  - exact H.
Defined.

(** ** The listed routes *)

Section ListedRoutes.
Variable this : ApiMocker.t.
Import Routes.

Lemma isMethodFile_inv name :
  isMethodFile name = true ->
  exists method, In method methodNames /\ name = method +:+ ".json"
                 /\ methodOf name = method /\ noChar "/" method = true.
Proof.
  intros (method & Hin & Heq%String.eqb_eq)%existsb_exists.
  exists method. subst name. split; [done|]. split; [done|].
  simpl in Hin. repeat destruct Hin as [<-|Hin]; try done; by split.
Qed.

Lemma append_assoc (a b c : string) : (a +:+ b) +:+ c = a +:+ (b +:+ c).
Proof.
  induction a as [|x a IH]; [done|].
  change (String x ((a +:+ b) +:+ c) = String x (a +:+ (b +:+ c))). by f_equal.
Qed.

Lemma join_snoc segs name :
  segs <> [] -> Str.join "/" (segs ++ [name]) = Str.join "/" segs +:+ "/" +:+ name.
Proof.
  intros Hne. induction segs as [|a [|b segs] IH]; [done|done|].
  change ((a :: b :: segs) ++ [name]) with (a :: ((b :: segs) ++ [name])).
  change (Str.join "/" (a :: (b :: segs) ++ [name]))
    with (a +:+ "/" +:+ Str.join "/" ((b :: segs) ++ [name])).
  rewrite IH by done.
  change (Str.join "/" (a :: b :: segs))
    with (a +:+ "/" +:+ Str.join "/" (b :: segs)).
  by rewrite !append_assoc.
Qed.

Lemma basePathOf_snoc segs name :
  basePathOf segs +:+ "/" +:+ name = basePathOf (segs ++ [name]).
Proof.
  destruct segs as [|a segs]; [done|].
  change (basePathOf ((a :: segs) ++ [name])) with (pathOf ((a :: segs) ++ [name])).
  unfold basePathOf, pathOf. rewrite join_snoc by done.
  by rewrite !append_assoc.
Qed.

Lemma exactPathOf_base segs :
  Forall (fun s => plainName s = true) segs ->
  exactPathOf this (basePathOf segs) = mockDirectory this ++ segs.
Proof.
  intros Hs. destruct segs as [|a segs]; [by rewrite app_nil_r|].
  by apply exactPathOf_pathOf.
Qed.

Lemma walkRoutes_origin sub :
  wellFormed sub = true ->
  forall segs method route,
    Forall (fun s => plainName s = true) segs ->
    Fs.lookup (mockDirectory this ++ segs) (disk this) = Some sub ->
    (method, route) ∈ walkRoutes (basePathOf segs) sub ->
    routeOrigin this method route.
Proof.
  induction sub as [content|files IH] using node_induction;
    intros Hwf segs method route Hsegs Hsub Hin.
  - by apply elem_of_nil in Hin.
  - assert (distinct (map fst files) = true) as Hdistinct
      by (simpl in Hwf; by apply andb_true_iff in Hwf as [? _]).
    cbn [walkRoutes] in Hin.
    apply elem_of_app in Hin as [Hin|Hin]; [|apply elem_of_app in Hin as [Hin|Hin]].
    + apply list_elem_of_In, in_map_iff in Hin as ([name child] & [= <- <-] & Hfile).
      apply filter_In in Hfile as [Hfile%list_elem_of_In Htest].
      destruct child as [content|]; [|done]. cbn in Htest.
      destruct (isMethodFile_inv name Htest) as (m & Hm & -> & -> & Hslash).
      exists segs, files. repeat split; try done. left. repeat split; try done.
      exists content. by apply distinct_assoc.
    + destruct (existsb _ files) eqn:Hindex; [|by apply elem_of_nil in Hin].
      apply list_elem_of_singleton in Hin as [= -> ->].
      apply existsb_exists in Hindex as ([name child] & Hfile%list_elem_of_In & Htest).
      destruct child as [content|]; [|done]. cbn in Htest.
      apply String.eqb_eq in Htest as ->.
      exists segs, files. repeat split; try done. right. split; [done|].
      exists content. by apply distinct_assoc.
    + apply list_elem_of_In, in_flat_map in Hin
        as ([name child] & Hfile%list_elem_of_In & Hin%list_elem_of_In).
      cbn [fst snd] in Hin. destruct child as [|sub]; [by apply elem_of_nil in Hin|].
      destruct (negb (name =? "errors")%string && negb (name =? "_errors")%string);
        [|by apply elem_of_nil in Hin].
      destruct (negb (isMethodFile (name +:+ ".json")));
        [|by apply elem_of_nil in Hin].
      destruct (wellFormed_child name (Fs.Dir sub) files Hwf Hfile) as (Hplain & Hchild).
      rewrite basePathOf_snoc in Hin. rewrite Forall_forall in IH.
      apply (IH (name, Fs.Dir sub) Hfile Hchild (segs ++ [name])); [| |done].
      * apply Forall_app. split; [done|]. by repeat constructor.
      * rewrite app_assoc, lookup_app, Hsub. simpl.
        by rewrite (distinct_assoc name (Fs.Dir sub) files).
Qed.

Lemma routeOrigin_resolves method route :
  routeOrigin this method route ->
  In method methodNames
  /\ exists p, directFile this route method = Some p.
Proof.
  intros (segs & files & -> & Hsegs & Hdir & Horigin).
  assert (forall name n, Fs.assoc name files = Some n ->
            Fs.existsSync (disk this) (mockDirectory this ++ segs ++ [name]) = true)
    as Hexists.
  { intros name n Hname. unfold Fs.existsSync.
    rewrite app_assoc, lookup_app, Hdir. simpl. by rewrite Hname. }
  unfold directFile.
  destruct Horigin as [(Hm & Hslash & content & Hfile)|(-> & content & Hfile)].
  - split; [done|].
    assert (methodFile this (basePathOf segs) method
            = mockDirectory this ++ segs ++ [method +:+ ".json"]) as ->.
    { unfold methodFile. by rewrite exactPathOf_base, join_file, <- app_assoc. }
    rewrite (Hexists _ _ Hfile). eauto.
  - split; [simpl; tauto|].
    assert (indexFile this (basePathOf segs)
            = mockDirectory this ++ segs ++ ["index.json"]) as Hindex.
    { unfold indexFile.
      by rewrite exactPathOf_base, (join_file _ "index"), <- app_assoc. }
    destruct (Fs.existsSync _ (methodFile _ _ _)); [eauto|].
    destruct (Fs.existsSync _ (legacyFile _ _)); [eauto|].
    rewrite Hindex, (Hexists _ _ Hfile). eauto.
Qed.
End ListedRoutes.

(** X17.  On a well-formed rule tree every route that [listRoutes] lists
    has one of the seven known methods and is served by the direct lookup:
    [findMock] returns an existing rule file for the listed path and
    method, without the parametrised fallback. *)
Theorem listed_routes_resolve this dir routes method route :
  Fs.lookup (mockDirectory this) (disk this) = Some dir ->
  wellFormed dir = true ->
  Routes.listRoutes this = Return routes ->
  (method, route) ∈ routes ->
  In method Routes.methodNames
  /\ exists p, directFile this route method = Some p
               /\ findMock this route method = Return (Some p).
Proof.
  intros Hdir Hwf Hroutes Hin. unfold Routes.listRoutes in Hroutes.
  rewrite Hdir in Hroutes. destruct dir as [content|files]; [discriminate|].
  inversion Hroutes; subst routes.
  destruct (routeOrigin_resolves this method route) as (Hm & p & Hp).
  - apply (walkRoutes_origin this (Fs.Dir files) Hwf []); [done| |done].
    by rewrite app_nil_r.
  - split; [done|]. exists p. split; [done|]. by rewrite findMock_direct, Hp.
Qed.

(** The routes of the example rule set. *)
Example listRoutes_example :
  Routes.listRoutes (engineOn shopMocks)
  = Return [("GET", "/users"); ("GET", "/users");
            ("GET", "/users/[id]"); ("DELETE", "/users/[id]")].
Proof. reflexivity. Qed.

(** An instance of X17: the listed route [DELETE /users/[id]] is found by
    the direct lookup. *)
Lemma listed_routes_resolve_witness :
  findMock (engineOn shopMocks) "/users/[id]" "DELETE"
  = Return (Some ["srv"; "mocks"; "users"; "[id]"; "DELETE.json"]).
Proof.
  assert (("DELETE", "/users/[id]")
          ∈ [("GET", "/users"); ("GET", "/users");
             ("GET", "/users/[id]"); ("DELETE", "/users/[id]")]) as Hin
    by set_solver.
  destruct (listed_routes_resolve (engineOn shopMocks) _ _ _ _
              eq_refl eq_refl eq_refl Hin) as (_ & p & Hp & Hfind).
  rewrite Hfind. vm_compute in Hp. by rewrite Hp.
Defined.

(** ** The forced error of the command line *)

Lemma serve_untouched st reqPaths :
  Cli.truthyStr (Cli.nextErrorCode st) = false
  \/ Forall (fun reqPath => Cli.pathSelected st reqPath = false) reqPaths ->
  Cli.serve st reqPaths = (replicate (length reqPaths) None, st).
Proof.
  intros Hidle. induction reqPaths as [|reqPath rest IH]; [done|].
  assert (Cli.applyNextError st reqPath = (None, st)) as Hstep.
  { unfold Cli.applyNextError. destruct Hidle as [->|Hrest]; [done|].
    apply Forall_inv in Hrest. cbv beta in Hrest.
    by rewrite Hrest, andb_false_r. }
  cbn [Cli.serve]. rewrite Hstep, IH; [done|].
  destruct Hidle as [?|Hrest]; [by left|right]. by apply Forall_inv_tail in Hrest.
Qed.

(** X18.  The forced error of the command line is applied once.  While an
    error code is pending, the requests whose path is not selected pass
    without a forced error and leave it pending; the first request whose
    path is selected carries the code, and both variables are cleared, so
    no later request is forced.  When no code is pending, or no request is
    selected, no request is forced and the state stays as it is. *)
Theorem forced_error_one_shot st before reqPath after :
  Forall (fun p => Cli.pathSelected st p = false) before ->
  (Cli.truthyStr (Cli.nextErrorCode st) = true ->
   Cli.pathSelected st reqPath = true ->
   Cli.serve st (before ++ reqPath :: after)
   = (replicate (length before) None
        ++ Cli.nextErrorCode st :: replicate (length after) None,
      {| Cli.nextErrorCode := None; Cli.errorForPath := None |}))
  /\ (Cli.truthyStr (Cli.nextErrorCode st) = false
      \/ Cli.pathSelected st reqPath = false
         /\ Forall (fun p => Cli.pathSelected st p = false) after ->
      Cli.serve st (before ++ reqPath :: after)
      = (replicate (length (before ++ reqPath :: after)) None, st)).
Proof.
  intros Hbefore. split.
  - intros Hcode Hselected.
    induction Hbefore as [|p before Hp _ IH].
    + cbn [app length replicate Cli.serve]. unfold Cli.applyNextError.
      rewrite Hcode, Hselected. cbn [andb].
      by rewrite serve_untouched by (by left).
    + cbn [app length replicate Cli.serve]. unfold Cli.applyNextError at 1.
      rewrite Hp, andb_false_r. by rewrite IH.
  - intros [Hidle|(Hthis & Hafter)]; apply serve_untouched; [by left|right].
    apply Forall_app. split; [done|]. by constructor.
Qed.

(** An instance of X18: after the command [error 500 /users], a request to
    [/orders] passes, the request to [/users/7] carries the code, and the
    next request to [/users/8] passes again. *)
Lemma forced_error_one_shot_witness :
  Cli.serve (Cli.errorCommand ["error"; "500"; "/users"] (Cli.State None None))
    ["/orders"; "/users/7"; "/users/8"]
  = ([None; Some "500"; None], Cli.State None None).
Proof.
  assert (Forall (fun p => Cli.pathSelected
                    (Cli.errorCommand ["error"; "500"; "/users"]
                       (Cli.State None None)) p = false) ["/orders"]) as Hbefore
    by (by repeat constructor).
  destruct (forced_error_one_shot _ ["/orders"] "/users/7" ["/users/8"] Hbefore)
    as (Hforced & _).
  exact (Hforced eq_refl eq_refl).
Defined.

(** ** The listing of the error scenarios *)

Lemma startsWith_app p rest : Str.startsWith (p +:+ rest) p = true.
Proof. induction p as [|c p IH]; [done|]. simpl. by rewrite Ascii.eqb_refl. Qed.

Lemma length_append (a b : string) :
  String.length (a +:+ b) = (String.length a + String.length b)%nat.
Proof. induction a as [|c a IH]; [done|]. simpl. by rewrite IH. Qed.

Lemma substring_prefix (a b : string) :
  String.substring 0 (String.length a) (a +:+ b) = a.
Proof. induction a as [|c a IH]; [by destruct b|]. simpl. by rewrite IH. Qed.

Lemma substring_skip (a b : string) n :
  String.substring (String.length a) n (a +:+ b) = String.substring 0 n b.
Proof. induction a as [|c a IH]; [done|]. simpl. by rewrite IH. Qed.

Lemma endsWith_suffix a p : Str.endsWith (a +:+ p) p = true.
Proof.
  induction a as [|c a IH].
  - destruct p; simpl; [done|]. by rewrite Ascii.eqb_refl, String.eqb_refl.
  - change (String c a +:+ p) with (String c (a +:+ p)).
    cbn [Str.endsWith]. rewrite IH. by rewrite orb_true_r.
Qed.

Lemma startsWith_cons c p d s :
  Str.startsWith (String d s) (String c p)
  = if Ascii.eqb c d then Str.startsWith s p else false.
Proof. reflexivity. Qed.

(** The pattern [.json] cannot start inside a string and end in a
    [.json] that follows it. *)
Lemma startsWith_json_app x :
  x <> "" -> Str.startsWith (x +:+ ".json") ".json" = Str.startsWith x ".json".
Proof.
  intros Hx.
  do 5 (destruct x as [|? x]; [done|];
        change (String ?c x +:+ ".json") with (String c (x +:+ ".json"));
        rewrite !startsWith_cons; case (Ascii.eqb _ _); [|done]; clear Hx;
        assert (True -> True) as Hx by done).
  by destruct x.
Qed.

Lemma removeFirst_suffix x :
  Str.includes x ".json" = false ->
  Scenarios.removeFirst ".json" (x +:+ ".json") = x.
Proof.
  induction x as [|c x IH]; [done|]. intros Hx.
  cbn [Str.includes] in Hx. apply orb_false_iff in Hx as [Hhere Hlater].
  change (String c x +:+ ".json") with (String c (x +:+ ".json")).
  cbn [Scenarios.removeFirst].
  change (String c (x +:+ ".json")) with (String c x +:+ ".json").
  rewrite startsWith_json_app, Hhere by done. by rewrite IH.
Qed.

Lemma join_split sep s : Str.join (String sep "") (Str.split sep s) = s.
Proof.
  induction s as [|c s IH]; [done|]. simpl.
  destruct (Ascii.eqb_spec c sep) as [->|_].
  - destruct (Str.split sep s) as [|h t] eqn:Hsplit; [by destruct s; simpl in *; repeat case_match|].
    change (Str.join (String sep "") ("" :: h :: t))
      with (String sep (Str.join (String sep "") (h :: t))).
    by rewrite IH.
  - destruct (Str.split sep s) as [|h [|k t]] eqn:Hsplit.
    + by destruct s; simpl in *; repeat case_match.
    + simpl in *. by rewrite IH.
    + change (Str.join (String sep "") (String c h :: k :: t))
        with (String c (Str.join (String sep "") (h :: k :: t))).
      by rewrite IH.
Qed.

(** X19.  The scenario name that the listing shows for an error file is
    the one the engine derives for it.  For a method without underscore
    and an error file [<method>_<scenario>.json] in whose name [.json]
    occurs only as the extension, [listErrorScenarios] lists the name
    [<scenario>] and describes it with the method, the route and the name
    with spaces for underscores; [checkForSpecificError] selects the file
    for that method and passes the same name to [errorApplies]. *)
Theorem listed_scenario_name method scenario basePath :
  noChar "_" method = true ->
  Str.includes (method +:+ "_" +:+ scenario) ".json" = false ->
  let errorFile := method +:+ "_" +:+ scenario +:+ ".json" in
  Scenarios.routeEntry basePath errorFile
  = {| Scenarios.name := scenario;
       Scenarios.description :=
         method +:+ " " +:+ basePath +:+ " - "
         +:+ Scenarios.underscoresToSpaces scenario |}
  /\ Scenarios.isJson errorFile = true
  /\ isErrorFileFor method errorFile = true
  /\ scenarioOf method errorFile = scenario.
Proof.
  intros Hmethod Hplain errorFile.
  assert (errorFile = (method +:+ "_" +:+ scenario) +:+ ".json") as Hfile
    by (unfold errorFile; by rewrite !append_assoc).
  assert (errorFile = (method +:+ "_") +:+ (scenario +:+ ".json")) as Hfile'
    by (unfold errorFile; by rewrite !append_assoc).
  repeat split.
  - unfold Scenarios.routeEntry. rewrite Hfile, removeFirst_suffix by done.
    change (method +:+ "_" +:+ scenario) with (method +:+ String "_" scenario).
    rewrite split_app_sep by done. cbn [List.hd List.tl].
    by rewrite (join_split "_" scenario).
  - unfold Scenarios.isJson. rewrite Hfile. apply endsWith_suffix.
  - unfold isErrorFileFor. rewrite Hfile' at 1. rewrite startsWith_app.
    rewrite Hfile. by rewrite endsWith_suffix.
  - unfold scenarioOf, Str.substring.
    replace (String.length method + 1)%nat with (String.length (method +:+ "_"))
      by (rewrite length_append; done).
    rewrite Hfile' at 2. rewrite substring_skip.
    replace (String.length errorFile - 5 - String.length (method +:+ "_"))%nat
      with (String.length scenario).
    + apply substring_prefix.
    + rewrite Hfile', !length_append. simpl. lia.
Qed.

(** An instance of X19: the file [POST_existing_email.json]. *)
Lemma listed_scenario_name_witness :
  Scenarios.name (Scenarios.routeEntry "/users" "POST_existing_email.json")
  = "existing_email"
  /\ scenarioOf "POST" "POST_existing_email.json" = "existing_email".
Proof.
  destruct (listed_scenario_name "POST" "existing_email" "/users" eq_refl eq_refl)
    as (Hentry & _ & _ & Hscenario).
  split; [|exact Hscenario].
  exact (f_equal Scenarios.name Hentry).
Defined.

Lemma find_errorsDir items errorFiles :
  Fs.assoc "errors" items = Some (Fs.Dir errorFiles) ->
  exists k, List.find Scenarios.isErrorsDir items = Some (k, Fs.Dir errorFiles).
Proof.
  induction items as [|[k n] items IH]; [done|].
  cbn [Fs.assoc List.find]. unfold Scenarios.isErrorsDir at 1. cbn [fst snd].
  destruct (String.eqb k "errors") eqn:Hk.
  - intros [= ->]. eauto.
  - intros Hrest. destruct n; by apply IH.
Qed.

Lemma scanForErrors_complete segs : forall pre dir errorFiles f,
  Forall (fun s => s <> "errors") segs ->
  Fs.lookup (segs ++ ["errors"]) dir = Some (Fs.Dir errorFiles) ->
  f ∈ map fst errorFiles ->
  Scenarios.isJson f = true ->
  Scenarios.routeEntry (basePathOf (pre ++ segs)) f
  ∈ Scenarios.scanForErrors (basePathOf pre) dir.
Proof.
  induction segs as [|s segs IH]; intros pre dir errorFiles f Hsegs Hdir Hf Hjson.
  - rewrite app_nil_r. destruct dir as [|items]; [done|].
    cbn in Hdir. destruct (Fs.assoc "errors" items) as [n|] eqn:Herrors; [|done].
    injection Hdir as ->.
    destruct (find_errorsDir _ _ Herrors) as (k & Hfind).
    cbn [Scenarios.scanForErrors]. rewrite Hfind.
    apply elem_of_app. left. apply list_elem_of_In, in_map, filter_In.
    by split; [apply list_elem_of_In|].
  - destruct dir as [|items]; [done|].
    change ((s :: segs) ++ ["errors"]) with (s :: (segs ++ ["errors"])) in Hdir.
    cbn [Fs.lookup] in Hdir.
    destruct (Fs.assoc s items) as [child|] eqn:Hchild; [|done].
    assert (exists sub, child = Fs.Dir sub) as (sub & ->).
    { destruct child; [|eauto]. rewrite lookup_below_file in Hdir; [done|].
      by destruct segs. }
    cbn [Scenarios.scanForErrors]. apply elem_of_app. right.
    apply list_elem_of_In, in_flat_map. exists (s, Fs.Dir sub).
    split; [by apply list_elem_of_In, assoc_elem|].
    cbn [fst snd]. inversion Hsegs as [|? ? Hs Hrest]; subst.
    apply String.eqb_neq in Hs. rewrite Hs. cbn [negb].
    apply list_elem_of_In. rewrite basePathOf_snoc.
    replace (pre ++ s :: segs) with ((pre ++ [s]) ++ segs) by (by rewrite <- app_assoc).
    by apply (IH (pre ++ [s]) (Fs.Dir sub) errorFiles f).
Qed.

(** X20.  The listing of the error scenarios is complete.  When the rule
    directory is a directory whose [_errors] entry is not a plain file,
    [listErrorScenarios] returns a list that has the global entry of every
    [.json] name of [_errors], and the route entry, at the route of its
    directory, of every [.json] name of every [errors] directory that is
    reached without passing through a directory named [errors]. *)
Theorem listErrorScenarios_complete this files :
  Fs.lookup (mockDirectory this) (disk this) = Some (Fs.Dir files) ->
  (forall content, Fs.assoc "_errors" files <> Some (Fs.File content)) ->
  exists scenarios,
    Scenarios.listErrorScenarios this = Return scenarios
    /\ (forall errorFiles f,
          Fs.assoc "_errors" files = Some (Fs.Dir errorFiles) ->
          f ∈ map fst errorFiles -> Scenarios.isJson f = true ->
          Scenarios.globalEntry f ∈ scenarios)
    /\ (forall segs errorFiles f,
          Forall (fun s => s <> "errors") segs ->
          Fs.lookup (segs ++ ["errors"]) (Fs.Dir files) = Some (Fs.Dir errorFiles) ->
          f ∈ map fst errorFiles -> Scenarios.isJson f = true ->
          Scenarios.routeEntry (basePathOf segs) f ∈ scenarios).
Proof.
  intros Hroot Hglobal. unfold Scenarios.listErrorScenarios.
  rewrite (join_plain _ "_errors") by done.
  unfold Fs.existsSync, Fs.readdirSync, Fs.readdirTypes.
  rewrite lookup_app, Hroot. cbn [Fs.lookup].
  destruct (Fs.assoc "_errors" files) as [[content|errorFiles]|] eqn:Herrors.
  - by destruct (Hglobal content).
  - eexists. split; [reflexivity|]. split.
    + intros ? f [= <-] Hf Hjson. apply elem_of_app. left.
      apply list_elem_of_In, in_map, filter_In.
      by split; [apply list_elem_of_In|].
    + intros segs scenarioFiles f Hsegs Hdir Hf Hjson. apply elem_of_app. right.
      by apply (scanForErrors_complete segs [] (Fs.Dir files) scenarioFiles f).
  - eexists. split; [reflexivity|]. split; [done|].
    intros segs errorFiles f Hsegs Hdir Hf Hjson. apply elem_of_app. right.
    by apply (scanForErrors_complete segs [] (Fs.Dir files) errorFiles f).
Qed.

(** The scenarios of the example rule set. *)
Example listErrorScenarios_example :
  Scenarios.listErrorScenarios (engineOn shopMocks)
  = Return [Scenarios.Scenario "404" "Global 404 error";
            Scenarios.Scenario "forbidden" "GET /users - forbidden"].
Proof. reflexivity. Qed.

(** An instance of X20: the scenario of [users/errors/GET_forbidden.json]
    is listed. *)
Lemma listErrorScenarios_complete_witness :
  exists scenarios,
    Scenarios.listErrorScenarios (engineOn shopMocks) = Return scenarios
    /\ Scenarios.routeEntry "/users" "GET_forbidden.json" ∈ scenarios.
Proof.
  destruct (listErrorScenarios_complete (engineOn shopMocks) _ eq_refl)
    as (scenarios & Hlist & _ & Hroutes); [done|].
  exists scenarios. split; [done|].
  apply (Hroutes ["users"]
           [("GET_forbidden.json", Fs.File (Some (obj [("error", JStr "No")])))]);
    [by repeat constructor|done|set_solver|done].
Defined.
